(** * whm2bunny: a shallow embedding of the provisioning state store,
    the provisioning pipeline, the webhook signature check, the provider
    client's retry loop and the recovery driver.

    Go pointers are modelled explicitly: a heap of [ProvisionState] cells
    addressed by [nat] locations.  [Manager.states] maps a record id to the
    location of the record it owns, so the aliasing that
    [Manager.Update] introduces (it stores the caller's pointer) is kept.
    Every effect runs in a small state/error monad [M] over a [World] that
    holds the manager, the state file on disk, the provider (the remote
    DNS/CDN API) and a log of the provider calls made. *)

From Stdlib Require Import ZArith String Ascii List Bool Lia.
From stdpp Require Import base strings gmap list pretty.

Local Open Scope Z_scope.
Local Open Scope string_scope.

(* ------------------------------------------------------------------ *)
(** ** State records (package state) *)

Definition StatusPending := "pending".
Definition StatusProvisioning := "provisioning".
Definition StatusSuccess := "success".
Definition StatusFailed := "failed".

Definition StepNone : Z := 0.
Definition StepDNSZone : Z := 1.
Definition StepDNSRecords : Z := 2.
Definition StepPullZone : Z := 3.
Definition StepCNAMESync : Z := 4.

(** [ProvisionState]; timestamps are kept as integers (wall-clock ticks). *)
Record ProvisionState := mkPS {
  ID : string;
  Domain : string;
  Status : string;
  CurrentStep : Z;
  ZoneID : Z;
  PullZoneID : Z;
  CDNHostname : string;
  Error : string;
  Retries : Z;
  CreatedAt : Z;
  UpdatedAt : Z
}.

Definition set_Status (s : string) (p : ProvisionState) : ProvisionState :=
  mkPS p.(ID) p.(Domain) s p.(CurrentStep) p.(ZoneID) p.(PullZoneID)
       p.(CDNHostname) p.(Error) p.(Retries) p.(CreatedAt) p.(UpdatedAt).
Definition set_CurrentStep (n : Z) (p : ProvisionState) : ProvisionState :=
  mkPS p.(ID) p.(Domain) p.(Status) n p.(ZoneID) p.(PullZoneID)
       p.(CDNHostname) p.(Error) p.(Retries) p.(CreatedAt) p.(UpdatedAt).
Definition set_ZoneID (n : Z) (p : ProvisionState) : ProvisionState :=
  mkPS p.(ID) p.(Domain) p.(Status) p.(CurrentStep) n p.(PullZoneID)
       p.(CDNHostname) p.(Error) p.(Retries) p.(CreatedAt) p.(UpdatedAt).
Definition set_PullZoneID (n : Z) (p : ProvisionState) : ProvisionState :=
  mkPS p.(ID) p.(Domain) p.(Status) p.(CurrentStep) p.(ZoneID) n
       p.(CDNHostname) p.(Error) p.(Retries) p.(CreatedAt) p.(UpdatedAt).
Definition set_CDNHostname (h : string) (p : ProvisionState) : ProvisionState :=
  mkPS p.(ID) p.(Domain) p.(Status) p.(CurrentStep) p.(ZoneID) p.(PullZoneID)
       h p.(Error) p.(Retries) p.(CreatedAt) p.(UpdatedAt).
Definition set_Error (e : string) (p : ProvisionState) : ProvisionState :=
  mkPS p.(ID) p.(Domain) p.(Status) p.(CurrentStep) p.(ZoneID) p.(PullZoneID)
       p.(CDNHostname) e p.(Retries) p.(CreatedAt) p.(UpdatedAt).
Definition set_Retries (n : Z) (p : ProvisionState) : ProvisionState :=
  mkPS p.(ID) p.(Domain) p.(Status) p.(CurrentStep) p.(ZoneID) p.(PullZoneID)
       p.(CDNHostname) p.(Error) n p.(CreatedAt) p.(UpdatedAt).
Definition set_CreatedAt (t : Z) (p : ProvisionState) : ProvisionState :=
  mkPS p.(ID) p.(Domain) p.(Status) p.(CurrentStep) p.(ZoneID) p.(PullZoneID)
       p.(CDNHostname) p.(Error) p.(Retries) t p.(UpdatedAt).
Definition set_UpdatedAt (t : Z) (p : ProvisionState) : ProvisionState :=
  mkPS p.(ID) p.(Domain) p.(Status) p.(CurrentStep) p.(ZoneID) p.(PullZoneID)
       p.(CDNHostname) p.(Error) p.(Retries) p.(CreatedAt) t.

(* ------------------------------------------------------------------ *)
(** ** The state file on disk *)

(** Contents of a file: a complete JSON array of records, or the torn
    bytes left by a write that was interrupted. *)
Inductive Content := Full (l : list ProvisionState) | Torn.

Record Disk := mkDisk { real : option Content; tmp : option Content }.

(** The file-system actions [Manager.save] performs, one per system call
    (os.WriteFile truncates/creates the file first, then writes it). *)
Inductive FsAction :=
  | WriteBegin            (* <path>.tmp created/truncated *)
  | WriteEnd (l : list ProvisionState) (* <path>.tmp fully written *)
  | RenameTmp             (* os.Rename(<path>.tmp, <path>) *)
  | RemoveTmp.            (* os.Remove(<path>.tmp) *)

Definition apply_fs (d : Disk) (a : FsAction) : Disk :=
  match a with
  | WriteBegin => mkDisk d.(real) (Some Torn)
  | WriteEnd l => mkDisk d.(real) (Some (Full l))
  | RenameTmp => mkDisk d.(tmp) None
  | RemoveTmp => mkDisk d.(real) None
  end.

Definition apply_all (d : Disk) (acts : list FsAction) : Disk :=
  fold_left apply_fs acts d.

(** How a save ends: the environment decides whether the write or the
    rename fails (disk full, permissions, ...). *)
Inductive SaveFault := SaveOK | WriteFail | RenameFail.

(* ------------------------------------------------------------------ *)
(** ** Provider (package bunny) *)

Definition DNSRecordTypeA : Z := 0.
Definition DNSRecordTypeAAAA : Z := 1.
Definition DNSRecordTypeCNAME : Z := 2.
Definition DNSRecordTypeTXT : Z := 3.
Definition DNSRecordTypeMX : Z := 4.

Record DNSZone := mkZone { zone_ID : Z; zone_Domain : string }.

Record DNSRecord := mkRec {
  rec_ID : Z; rec_Type : Z; rec_Name : string; rec_Value : string;
  rec_TTL : Z; rec_Priority : Z
}.

(** [AddDNSRecordRequest] / [UpdateDNSRecordRequest] (the fields used). *)
Record DNSRecordRequest := mkRecReq {
  req_Type : Z; req_Name : string; req_Value : string; req_TTL : Z;
  req_Priority : Z
}.

Record PullZone := mkPZ { pz_ID : Z; pz_Name : string; pz_Hostnames : list string }.

(** [CreatePullZoneRequest] of cdn.go. *)
Record CreatePullZoneRequest := mkPZReq {
  Name : string;
  OriginURL : string;
  OriginHostHeader : string;
  EnableGeoZoneASIA : bool;
  EnableGeoZoneEU : bool;
  EnableGeoZoneNA : bool;
  EnableGeoZoneSA : bool;
  EnableGeoZoneAF : bool;
  EnableOriginShield : bool;
  OriginShieldZoneCode : string;
  EnableAutoSSL : bool;
  EnableBrotliCompression : bool;
  CacheExpirationTime : Z
}.

(** The remote API's resources.  The provider itself is not code of this
    repository; this is the environment the client talks to. *)
Record Provider := mkProv {
  dnsZones : list DNSZone;
  dnsRecords : list (Z * DNSRecord);   (* (zone id, record) *)
  pullZones : list PullZone;
  nextID : Z
}.

(** Every HTTP request the client sends. *)
Inductive Call :=
  | CListDNSZones
  | CCreateDNSZone (domain soa : string)
  | CGetDNSRecords (zone : Z)
  | CAddDNSRecord (zone : Z) (r : DNSRecordRequest)
  | CUpdateDNSRecord (zone rid : Z) (r : DNSRecordRequest)
  | CDeleteDNSRecord (zone rid : Z)
  | CListPullZones
  | CCreatePullZone (r : CreatePullZoneRequest)
  | CAddPullZoneHostname (pz : Z) (host : string)
  | CGetPullZone (pz : Z)
  | CDeleteDNSZone (zone : Z)
  | CDeletePullZone (pz : Z).

(** Notifications handed to the chat notifier. *)
Inductive Note :=
  | NSuccess (domain : string) (zone : Z) (cdn : string)
  | NFailed (domain step msg : string)
  | NSubdomain (full parent cdn : string)
  | NDeprovisioned (domain : string).

(** [config.Config] (the fields the pipeline reads). *)
Record Config := mkCfg {
  SOAEmail : string;            (* cfg.DNS.SOAEmail *)
  ReverseProxyIP : string;      (* cfg.Origin.ReverseProxyIP *)
  OriginShieldRegion : string   (* cfg.CDN.OriginShieldRegion *)
}.

(* ------------------------------------------------------------------ *)
(** ** The world and the monad *)

Record World := mkW {
  heap : gmap nat ProvisionState;       (* Go heap of *ProvisionState *)
  nextLoc : nat;
  states : gmap string nat;             (* Manager.states: id -> pointer *)
  domainIndex : gmap string string;     (* Manager.domainIndex *)
  disk : Disk;                          (* <path> and <path>.tmp *)
  faults : list SaveFault;              (* outcome of the coming saves *)
  fslog : list FsAction;                (* file-system actions so far *)
  uuids : list string;                  (* values uuid.New() will return *)
  now : Z;
  prov : Provider;
  calls : list Call;                    (* provider requests so far *)
  notes : list Note                     (* notifications so far *)
}.

Inductive res (A : Type) := ROk (a : A) | RErr (e : string) | RPanic.
Arguments ROk {A} a.
Arguments RErr {A} e.
Arguments RPanic {A}.

Definition M (A : Type) := World -> res A * World.

Definition ret {A} (a : A) : M A := fun w => (ROk a, w).
Definition bind {A B} (m : M A) (k : A -> M B) : M B :=
  fun w => match m w with
           | (ROk a, w') => k a w'
           | (RErr e, w') => (RErr e, w')
           | (RPanic, w') => (RPanic, w')
           end.
Definition throw {A} (e : string) : M A := fun w => (RErr e, w).
Definition panic {A} : M A := fun w => (RPanic, w).

(** [try m]: run [m] and hand its error to the caller as a value (the Go
    pattern [if err := m(); err != nil { log; continue }]); a panic is not
    caught. *)
Definition try {A} (m : M A) : M (A + string) :=
  fun w => match m w with
           | (ROk a, w') => (ROk (inl a), w')
           | (RErr e, w') => (ROk (inr e), w')
           | (RPanic, w') => (RPanic, w')
           end.

Declare Scope go_scope.
Delimit Scope go_scope with go.
Notation "x <- m ;; k" := (bind m (fun x => k))
  (at level 100, m at next level, right associativity) : go_scope.
Notation "m ;;; k" := (bind m (fun _ => k))
  (at level 100, right associativity) : go_scope.
Local Open Scope go_scope.

Definition gets {A} (f : World -> A) : M A := fun w => (ROk (f w), w).
Definition modify (f : World -> World) : M unit := fun w => (ROk tt, f w).

Definition with_heap h w := mkW h w.(nextLoc) w.(states) w.(domainIndex) w.(disk)
  w.(faults) w.(fslog) w.(uuids) w.(now) w.(prov) w.(calls) w.(notes).
Definition with_nextLoc n w := mkW w.(heap) n w.(states) w.(domainIndex) w.(disk)
  w.(faults) w.(fslog) w.(uuids) w.(now) w.(prov) w.(calls) w.(notes).
Definition with_states s w := mkW w.(heap) w.(nextLoc) s w.(domainIndex) w.(disk)
  w.(faults) w.(fslog) w.(uuids) w.(now) w.(prov) w.(calls) w.(notes).
Definition with_domainIndex di w := mkW w.(heap) w.(nextLoc) w.(states) di w.(disk)
  w.(faults) w.(fslog) w.(uuids) w.(now) w.(prov) w.(calls) w.(notes).
Definition with_disk d w := mkW w.(heap) w.(nextLoc) w.(states) w.(domainIndex) d
  w.(faults) w.(fslog) w.(uuids) w.(now) w.(prov) w.(calls) w.(notes).
Definition with_faults f w := mkW w.(heap) w.(nextLoc) w.(states) w.(domainIndex) w.(disk)
  f w.(fslog) w.(uuids) w.(now) w.(prov) w.(calls) w.(notes).
Definition with_fslog l w := mkW w.(heap) w.(nextLoc) w.(states) w.(domainIndex) w.(disk)
  w.(faults) l w.(uuids) w.(now) w.(prov) w.(calls) w.(notes).
Definition with_uuids u w := mkW w.(heap) w.(nextLoc) w.(states) w.(domainIndex) w.(disk)
  w.(faults) w.(fslog) u w.(now) w.(prov) w.(calls) w.(notes).
Definition with_prov p w := mkW w.(heap) w.(nextLoc) w.(states) w.(domainIndex) w.(disk)
  w.(faults) w.(fslog) w.(uuids) w.(now) p w.(calls) w.(notes).
Definition with_calls c w := mkW w.(heap) w.(nextLoc) w.(states) w.(domainIndex) w.(disk)
  w.(faults) w.(fslog) w.(uuids) w.(now) w.(prov) c w.(notes).
Definition with_notes n w := mkW w.(heap) w.(nextLoc) w.(states) w.(domainIndex) w.(disk)
  w.(faults) w.(fslog) w.(uuids) w.(now) w.(prov) w.(calls) n.

(** Pointer operations.  Dereferencing a pointer with no cell is a nil
    dereference: a Go panic. *)
Definition deref (p : nat) : M ProvisionState :=
  fun w => match w.(heap) !! p with
           | Some r => (ROk r, w)
           | None => (RPanic, w)
           end.
Definition store (p : nat) (r : ProvisionState) : M unit :=
  modify (fun w => with_heap (<[p := r]> w.(heap)) w).
Definition alloc (r : ProvisionState) : M nat :=
  fun w => let p := w.(nextLoc) in
           (ROk p, with_nextLoc (S p) (with_heap (<[p := r]> w.(heap)) w)).
(** [p.f = v] through a pointer. *)
Definition assign (p : nat) (f : ProvisionState -> ProvisionState) : M unit :=
  r <- deref p ;; store p (f r).

Definition record_call (c : Call) : M unit :=
  modify (fun w => with_calls (w.(calls) ++ [c]) w).
Definition notify (n : Note) : M unit :=
  modify (fun w => with_notes (w.(notes) ++ [n]) w).

(* ------------------------------------------------------------------ *)
(** ** State manager (package state, Manager) *)

Definition ErrStateNotFound := "state not found".

(** The records the manager owns, in the map's iteration order. *)
Definition records_of (w : World) : list ProvisionState :=
  omap (fun kv => w.(heap) !! kv.2) (map_to_list w.(states)).

Definition save_actions (f : SaveFault) (data : list ProvisionState) : list FsAction :=
  match f with
  | SaveOK => [WriteBegin; WriteEnd data; RenameTmp]
  | WriteFail => [WriteBegin]
  | RenameFail => [WriteBegin; WriteEnd data; RemoveTmp]
  end.

Module Manager.

(** [save]: marshal every record, write [<path>.tmp], rename it over
    [<path>]; on a failed rename the temp file is removed. *)
Definition save : M unit := fun w =>
  let data := records_of w in
  let '(f, rest) := match w.(faults) with
                    | [] => (SaveOK, [])
                    | f :: r => (f, r)
                    end in
  let acts := save_actions f data in
  let w' := with_fslog (w.(fslog) ++ acts)
              (with_disk (apply_all w.(disk) acts) (with_faults rest w)) in
  (match f with
   | SaveOK => ROk tt
   | WriteFail => RErr "failed to write temp state file"
   | RenameFail => RErr "failed to rename state file"
   end, w').

Definition save_or_fail : M unit :=
  r <- try save ;;
  match r with inl _ => ret tt | inr _ => throw "failed to save state" end.

Definition lookup_id (id : string) : M nat := fun w =>
  match w.(states) !! id with
  | Some p => (ROk p, w)
  | None => (RErr ErrStateNotFound, w)
  end.

Definition new_uuid : M string := fun w =>
  match w.(uuids) with
  | [] => (ROk "", w)
  | u :: us => (ROk u, with_uuids us w)
  end.

Definition Create (domain : string) : M nat :=
  id <- new_uuid ;;
  t <- gets now ;;
  p <- alloc (mkPS id domain StatusPending StepNone 0 0 "" "" 0 t t) ;;
  modify (fun w => with_domainIndex (<[domain := id]> w.(domainIndex))
                     (with_states (<[id := p]> w.(states)) w)) ;;;
  _ <- try save ;;          (* a failed save is only logged *)
  ret p.

(** [Get] and [GetByDomain] return a pointer to a fresh copy. *)
Definition Get (id : string) : M nat :=
  p <- lookup_id id ;; r <- deref p ;; alloc r.

Definition GetByDomain (domain : string) : M nat :=
  id <- (fun w => match w.(domainIndex) !! domain with
                  | Some id => (ROk id, w)
                  | None => (RErr ErrStateNotFound, w)
                  end) ;;
  Get id.

(** [Update] keeps [CreatedAt], stamps [UpdatedAt] (both written into the
    caller's struct) and then stores the caller's pointer in the map. *)
Definition Update (p : nat) : M unit :=
  r <- deref p ;;
  e <- lookup_id r.(ID) ;;
  er <- deref e ;;
  t <- gets now ;;
  store p (set_UpdatedAt t (set_CreatedAt er.(CreatedAt) r)) ;;;
  modify (fun w => with_domainIndex (<[r.(Domain) := r.(ID)]> w.(domainIndex))
                     (with_states (<[r.(ID) := p]> w.(states)) w)) ;;;
  save_or_fail.

Definition Delete (id : string) : M unit :=
  p <- lookup_id id ;;
  r <- deref p ;;
  modify (fun w => with_domainIndex (delete r.(Domain) w.(domainIndex))
                     (with_states (delete id w.(states)) w)) ;;;
  save_or_fail.

Definition recover_pred (r : ProvisionState) : bool :=
  String.eqb r.(Status) StatusPending
  || (String.eqb r.(Status) StatusFailed && (Z.ltb r.(Retries) 5)).

(** [Recover]: copies of the pending records and of the failed records
    with fewer than 5 retries. *)
Definition Recover : M (list ProvisionState) :=
  gets (fun w => filter (fun r => recover_pred r = true) (records_of w)).

Definition ListPending : M (list ProvisionState) :=
  gets (fun w => filter (fun r => String.eqb r.(Status) StatusPending = true
                                  \/ String.eqb r.(Status) StatusProvisioning = true)
                   (records_of w)).

Definition mutate (id : string) (f : Z -> ProvisionState -> ProvisionState) : M unit :=
  p <- lookup_id id ;;
  t <- gets now ;;
  assign p (f t) ;;;
  save_or_fail.

Definition IncrementStep (id : string) : M unit :=
  mutate id (fun t r => set_UpdatedAt t (set_CurrentStep (r.(CurrentStep) + 1) r)).

Definition SetError (id msg : string) : M unit :=
  mutate id (fun t r => set_UpdatedAt t (set_Retries (r.(Retries) + 1)
                          (set_Error msg (set_Status StatusFailed r)))).

Definition MarkSuccess (id : string) : M unit :=
  mutate id (fun t r => set_UpdatedAt t (set_Error ""
                          (set_CurrentStep StepCNAMESync (set_Status StatusSuccess r)))).

Definition MarkProvisioning (id : string) : M unit :=
  mutate id (fun t r => set_UpdatedAt t (set_Status StatusProvisioning r)).

Definition Clear : M unit :=
  modify (fun w => with_domainIndex ∅ (with_states ∅ w)) ;;;
  save_or_fail.

Definition ListFailed : M (list ProvisionState) :=
  gets (fun w => filter (fun r => String.eqb r.(Status) StatusFailed = true) (records_of w)).

Definition ListAll : M (list ProvisionState) := gets records_of.

Definition GetCount : M nat := gets (fun w => size w.(states)).

End Manager.

(** [NewManager] after a restart: the state file is read back and every
    record gets a fresh heap cell ([load]).  A torn file fails to
    unmarshal; an absent file is an empty store. *)
Fixpoint load_records (l : list ProvisionState) (w : World) : World :=
  match l with
  | [] => w
  | r :: rs =>
      let p := w.(nextLoc) in
      let w1 := with_nextLoc (S p) (with_heap (<[p := r]> w.(heap)) w) in
      let w2 := with_domainIndex (<[r.(Domain) := r.(ID)]> w1.(domainIndex))
                  (with_states (<[r.(ID) := p]> w1.(states)) w1) in
      load_records rs w2
  end.

Definition restart (d : Disk) (pv : Provider) (us : list string) (t : Z) : option World :=
  let w0 := mkW ∅ 0 ∅ ∅ d [] [] us t pv [] [] in
  match d.(real) with
  | None => Some w0
  | Some Torn => None
  | Some (Full l) => Some (load_records l w0)
  end.

(* ------------------------------------------------------------------ *)
(** ** Bandwidth snapshots (package state, SnapshotStore) *)

Module Snapshots.

(** [time.Time] as nanoseconds; [t.After(u)] is [u < t]. *)
Record BandwidthSnapshot := mkSnap {
  Timestamp : Z; ZoneID : Z; ZoneName : string; Bandwidth : Z;
  Requests : Z; CacheHits : Z; CacheMisses : Z
}.

Definition After (t u : Z) : bool := Z.ltb u t.

(** The list in memory and the contents of the snapshot file ([None]
    while it does not exist). *)
Record SnapshotStore := mkStore {
  snapshots : list BandwidthSnapshot;
  file : option (list BandwidthSnapshot)
}.

(** [save]: write [<path>.tmp] and rename it over [<path>]; [f] is the
    outcome of the file-system calls.  Only the rename touches [<path>]. *)
Definition save (f : SaveFault) (s : SnapshotStore) : option string * SnapshotStore :=
  match f with
  | SaveOK => (None, mkStore s.(snapshots) (Some s.(snapshots)))
  | WriteFail => (Some "failed to write temp snapshot file", s)
  | RenameFail => (Some "failed to rename snapshot file", s)
  end.

(** The filtering loop of [AddSnapshot] and [Cleanup]. *)
Definition keep_after (cutoff : Z) (l : list BandwidthSnapshot) : list BandwidthSnapshot :=
  List.filter (fun snap => After snap.(Timestamp) cutoff) l.

(** [AddSnapshot]; [cutoff] is [time.Now().AddDate(0, 0, -30)]. *)
Definition AddSnapshot (f : SaveFault) (cutoff : Z) (snapshot : BandwidthSnapshot)
    (s : SnapshotStore) : option string * SnapshotStore :=
  let s1 := mkStore (keep_after cutoff (s.(snapshots) ++ [snapshot])) s.(file) in
  match save f s1 with
  | (Some e, s2) => (Some ("failed to save snapshots: " ++ e), s2)
  | (None, s2) => (None, s2)
  end.

Definition GetSnapshotsByZone (zoneID since : Z) (s : SnapshotStore) : list BandwidthSnapshot :=
  List.filter (fun snap => Z.eqb snap.(ZoneID) zoneID && After snap.(Timestamp) since)
    s.(snapshots).

Definition GetAllSnapshots (since : Z) (s : SnapshotStore) : list BandwidthSnapshot :=
  List.filter (fun snap => After snap.(Timestamp) since) s.(snapshots).

Definition GetLatestSnapshotByZone (zoneID : Z) (s : SnapshotStore) : option BandwidthSnapshot :=
  fold_left (fun latest snap =>
               if Z.eqb snap.(ZoneID) zoneID then
                 match latest with
                 | None => Some snap
                 | Some l => if After snap.(Timestamp) l.(Timestamp) then Some snap else latest
                 end
               else latest)
            s.(snapshots) None.

(** Go's unary minus on an int64 such as [time.Duration]: it wraps
    around, so [-math.MinInt64] is [math.MinInt64]. *)
Definition neg_int64 (d : Z) : Z := (- d + 2 ^ 63) mod 2 ^ 64 - 2 ^ 63.

(** [time.Now().Add(-olderThan)] with [now] the current time.
    [Time.Add] adds the duration; it saturates only about 2^63 seconds
    away from year 1, far from any clock reading. *)
Definition cleanup_cutoff (now olderThan : Z) : Z := now + neg_int64 olderThan.

(** [Cleanup(olderThan)] at time [now]. *)
Definition Cleanup (f : SaveFault) (now olderThan : Z) (s : SnapshotStore)
    : option string * SnapshotStore :=
  let cutoff := cleanup_cutoff now olderThan in
  let s1 := mkStore (keep_after cutoff s.(snapshots)) s.(file) in
  match save f s1 with
  | (Some e, s2) => (Some ("failed to save snapshots after cleanup: " ++ e), s2)
  | (None, s2) => (None, s2)
  end.

End Snapshots.
(* ------------------------------------------------------------------ *)
(** ** String helpers (Go's strings, unicode and unicode/utf8 packages) *)

(** The ASCII step of [strings.ToLower]: a byte in 'A'..'Z' is raised by
    'a' - 'A'. *)
Definition lower_ascii (c : ascii) : ascii :=
  let n := nat_of_ascii c in
  if (65 <=? n)%nat && (n <=? 90)%nat then ascii_of_nat (n + 32)%nat else c.

(** [strings.ReplaceAll(s, ".", "-")]. *)
Fixpoint replace_dots (s : string) : string :=
  match s with
  | EmptyString => EmptyString
  | String c s' => String (if Ascii.eqb c "."%char then "-"%char else c) (replace_dots s')
  end.

(** *** Package unicode/utf8 *)

Module utf8.
Local Open Scope Z_scope.

Definition RuneError : Z := 0xFFFD.
Definition RuneSelf : Z := 0x80.
Definition MaxRune : Z := 0x10FFFF.

Definition surrogateMin : Z := 0xD800.
Definition surrogateMax : Z := 0xDFFF.

Definition t1 : Z := 0x00.
Definition tx : Z := 0x80.
Definition t2 : Z := 0xC0.
Definition t3 : Z := 0xE0.
Definition t4 : Z := 0xF0.

Definition maskx : Z := 0x3F.
Definition mask2 : Z := 0x1F.
Definition mask3 : Z := 0x0F.
Definition mask4 : Z := 0x07.

Definition rune1Max : Z := 0x7F.
Definition rune2Max : Z := 0x7FF.
Definition rune3Max : Z := 0xFFFF.

Definition locb : Z := 0x80.
Definition hicb : Z := 0xBF.

(** The entries of the table [first]: [xx] (invalid), [as_] (ASCII, [as]
    in the source) and [s1] .. [s7], whose high nibble indexes
    [acceptRanges] and whose low three bits give the sequence length. *)
Definition xx : Z := 0xF1.
Definition as_ : Z := 0xF0.
Definition s1 : Z := 0x02.
Definition s2 : Z := 0x13.
Definition s3 : Z := 0x03.
Definition s4 : Z := 0x23.
Definition s5 : Z := 0x34.
Definition s6 : Z := 0x04.
Definition s7 : Z := 0x44.

(** [first[b]], the 256-entry table written as its runs. *)
Definition first (b : Z) : Z :=
  if b <? 0x80 then as_
  else if b <? 0xC2 then xx
  else if b <? 0xE0 then s1
  else if b =? 0xE0 then s2
  else if b <? 0xED then s3
  else if b =? 0xED then s4
  else if b <? 0xF0 then s3
  else if b =? 0xF0 then s5
  else if b <? 0xF4 then s6
  else if b =? 0xF4 then s7
  else xx.

(** [acceptRanges[i]] as (lo, hi); the unset entries are zero. *)
Definition acceptRanges (i : Z) : Z * Z :=
  if i =? 0 then (locb, hicb)
  else if i =? 1 then (0xA0, hicb)
  else if i =? 2 then (locb, 0x9F)
  else if i =? 3 then (0x90, hicb)
  else if i =? 4 then (locb, 0x8F)
  else (0, 0).

(** A byte of a Go string, and [s[i]] (the index is in range wherever
    the source reads it). *)
Definition byte (c : ascii) : Z := Z.of_N (N_of_ascii c).
Definition byte_at (s : string) (i : nat) : Z :=
  match String.get i s with Some c => byte c | None => 0 end.

(** Go's [byte(x)] conversion, and a byte value back to a character. *)
Definition to_byte (x : Z) : Z := Z.land x 0xFF.
Definition of_byte (b : Z) : ascii := ascii_of_N (Z.to_N b).

Definition DecodeRuneInString (s : string) : Z * nat :=
  let n := String.length s in
  if (n <? 1)%nat then (RuneError, 0%nat) else
  let s0 := byte_at s 0 in
  let x := first s0 in
  if as_ <=? x then
    (* mask := rune(x) << 31 >> 31: all ones for xx, zero for as *)
    ((if Z.odd x then RuneError else s0), 1%nat)
  else
  let sz := Z.to_nat (Z.land x 7) in
  let accept := acceptRanges (Z.shiftr x 4) in
  if (n <? sz)%nat then (RuneError, 1%nat) else
  let b1 := byte_at s 1 in
  if (b1 <? fst accept) || (snd accept <? b1) then (RuneError, 1%nat) else
  if (sz <=? 2)%nat then
    (Z.lor (Z.shiftl (Z.land s0 mask2) 6) (Z.land b1 maskx), 2%nat) else
  let b2 := byte_at s 2 in
  if (b2 <? locb) || (hicb <? b2) then (RuneError, 1%nat) else
  if (sz <=? 3)%nat then
    (Z.lor (Z.lor (Z.shiftl (Z.land s0 mask3) 12) (Z.shiftl (Z.land b1 maskx) 6))
           (Z.land b2 maskx), 3%nat) else
  let b3 := byte_at s 3 in
  if (b3 <? locb) || (hicb <? b3) then (RuneError, 1%nat) else
  (Z.lor (Z.lor (Z.lor (Z.shiftl (Z.land s0 mask4) 18) (Z.shiftl (Z.land b1 maskx) 12))
                (Z.shiftl (Z.land b2 maskx) 6)) (Z.land b3 maskx), 4%nat).

(** [uint32(r)] *)
Definition uint32 (r : Z) : Z := Z.land r 0xFFFFFFFF.

(** [AppendRune(nil, r)] with [appendRuneNonASCII] inlined. *)
Definition AppendRune (r : Z) : string :=
  if uint32 r <=? rune1Max then String (of_byte (to_byte r)) EmptyString
  else if uint32 r <=? rune2Max then
    String (of_byte (Z.lor t2 (to_byte (Z.shiftr r 6))))
   (String (of_byte (Z.lor tx (Z.land (to_byte r) maskx))) EmptyString)
  else
  let bad := (MaxRune <? uint32 r) || ((surrogateMin <=? uint32 r) && (uint32 r <=? surrogateMax)) in
  let r := if bad then RuneError else r in
  if bad || (uint32 r <=? rune3Max) then
    String (of_byte (Z.lor t3 (to_byte (Z.shiftr r 12))))
   (String (of_byte (Z.lor tx (Z.land (to_byte (Z.shiftr r 6)) maskx)))
   (String (of_byte (Z.lor tx (Z.land (to_byte r) maskx))) EmptyString))
  else
    String (of_byte (Z.lor t4 (to_byte (Z.shiftr r 18))))
   (String (of_byte (Z.lor tx (Z.land (to_byte (Z.shiftr r 12)) maskx)))
   (String (of_byte (Z.lor tx (Z.land (to_byte (Z.shiftr r 6)) maskx)))
   (String (of_byte (Z.lor tx (Z.land (to_byte r) maskx))) EmptyString))).

End utf8.

(** *** Package unicode *)

Module unicode.
Local Open Scope Z_scope.

Definition MaxASCII : Z := 0x7F.
Definition UpperLower : Z := utf8.MaxRune + 1.

(** The [LowerCase] column of [CaseRanges]: every range of code points
    whose simple lowercase mapping (UnicodeData.txt, Unicode 14.0; 15.0,
    the version of Go 1.21 and later, adds no case pair) differs from
    the code point, with its delta, or [UpperLower] for the alternating
    upper/lower runs. The ranges are sorted and disjoint; the entries of
    Go's table whose lowercase delta is 0 map a rune to itself and are
    left out, and runs Go splits differently are merged. *)
Record CaseRange := CR { Lo : Z; Hi : Z; Delta : Z }.

Definition LowerCaseRanges : list CaseRange := [
    CR 0x0041 0x005A 32; CR 0x00C0 0x00D6 32; CR 0x00D8 0x00DE 32;
    CR 0x0100 0x012F UpperLower; CR 0x0130 0x0130 (-199); CR 0x0132 0x0137 UpperLower;
    CR 0x0139 0x0148 UpperLower; CR 0x014A 0x0177 UpperLower; CR 0x0178 0x0178 (-121);
    CR 0x0179 0x017E UpperLower; CR 0x0181 0x0181 210; CR 0x0182 0x0185 UpperLower;
    CR 0x0186 0x0186 206; CR 0x0187 0x0187 1; CR 0x0189 0x018A 205;
    CR 0x018B 0x018B 1; CR 0x018E 0x018E 79; CR 0x018F 0x018F 202;
    CR 0x0190 0x0190 203; CR 0x0191 0x0191 1; CR 0x0193 0x0193 205;
    CR 0x0194 0x0194 207; CR 0x0196 0x0196 211; CR 0x0197 0x0197 209;
    CR 0x0198 0x0198 1; CR 0x019C 0x019C 211; CR 0x019D 0x019D 213;
    CR 0x019F 0x019F 214; CR 0x01A0 0x01A5 UpperLower; CR 0x01A6 0x01A6 218;
    CR 0x01A7 0x01A7 1; CR 0x01A9 0x01A9 218; CR 0x01AC 0x01AC 1;
    CR 0x01AE 0x01AE 218; CR 0x01AF 0x01AF 1; CR 0x01B1 0x01B2 217;
    CR 0x01B3 0x01B6 UpperLower; CR 0x01B7 0x01B7 219; CR 0x01B8 0x01B8 1;
    CR 0x01BC 0x01BC 1; CR 0x01C4 0x01C4 2; CR 0x01C5 0x01C5 1;
    CR 0x01C7 0x01C7 2; CR 0x01C8 0x01C8 1; CR 0x01CA 0x01CA 2;
    CR 0x01CB 0x01DC UpperLower; CR 0x01DE 0x01EF UpperLower; CR 0x01F1 0x01F1 2;
    CR 0x01F2 0x01F5 UpperLower; CR 0x01F6 0x01F6 (-97); CR 0x01F7 0x01F7 (-56);
    CR 0x01F8 0x021F UpperLower; CR 0x0220 0x0220 (-130); CR 0x0222 0x0233 UpperLower;
    CR 0x023A 0x023A 10795; CR 0x023B 0x023B 1; CR 0x023D 0x023D (-163);
    CR 0x023E 0x023E 10792; CR 0x0241 0x0241 1; CR 0x0243 0x0243 (-195);
    CR 0x0244 0x0244 69; CR 0x0245 0x0245 71; CR 0x0246 0x024F UpperLower;
    CR 0x0370 0x0373 UpperLower; CR 0x0376 0x0376 1; CR 0x037F 0x037F 116;
    CR 0x0386 0x0386 38; CR 0x0388 0x038A 37; CR 0x038C 0x038C 64;
    CR 0x038E 0x038F 63; CR 0x0391 0x03A1 32; CR 0x03A3 0x03AB 32;
    CR 0x03CF 0x03CF 8; CR 0x03D8 0x03EF UpperLower; CR 0x03F4 0x03F4 (-60);
    CR 0x03F7 0x03F7 1; CR 0x03F9 0x03F9 (-7); CR 0x03FA 0x03FA 1;
    CR 0x03FD 0x03FF (-130); CR 0x0400 0x040F 80; CR 0x0410 0x042F 32;
    CR 0x0460 0x0481 UpperLower; CR 0x048A 0x04BF UpperLower; CR 0x04C0 0x04C0 15;
    CR 0x04C1 0x04CE UpperLower; CR 0x04D0 0x052F UpperLower; CR 0x0531 0x0556 48;
    CR 0x10A0 0x10C5 7264; CR 0x10C7 0x10C7 7264; CR 0x10CD 0x10CD 7264;
    CR 0x13A0 0x13EF 38864; CR 0x13F0 0x13F5 8; CR 0x1C90 0x1CBA (-3008);
    CR 0x1CBD 0x1CBF (-3008); CR 0x1E00 0x1E95 UpperLower; CR 0x1E9E 0x1E9E (-7615);
    CR 0x1EA0 0x1EFF UpperLower; CR 0x1F08 0x1F0F (-8); CR 0x1F18 0x1F1D (-8);
    CR 0x1F28 0x1F2F (-8); CR 0x1F38 0x1F3F (-8); CR 0x1F48 0x1F4D (-8);
    CR 0x1F59 0x1F59 (-8); CR 0x1F5B 0x1F5B (-8); CR 0x1F5D 0x1F5D (-8);
    CR 0x1F5F 0x1F5F (-8); CR 0x1F68 0x1F6F (-8); CR 0x1F88 0x1F8F (-8);
    CR 0x1F98 0x1F9F (-8); CR 0x1FA8 0x1FAF (-8); CR 0x1FB8 0x1FB9 (-8);
    CR 0x1FBA 0x1FBB (-74); CR 0x1FBC 0x1FBC (-9); CR 0x1FC8 0x1FCB (-86);
    CR 0x1FCC 0x1FCC (-9); CR 0x1FD8 0x1FD9 (-8); CR 0x1FDA 0x1FDB (-100);
    CR 0x1FE8 0x1FE9 (-8); CR 0x1FEA 0x1FEB (-112); CR 0x1FEC 0x1FEC (-7);
    CR 0x1FF8 0x1FF9 (-128); CR 0x1FFA 0x1FFB (-126); CR 0x1FFC 0x1FFC (-9);
    CR 0x2126 0x2126 (-7517); CR 0x212A 0x212A (-8383); CR 0x212B 0x212B (-8262);
    CR 0x2132 0x2132 28; CR 0x2160 0x216F 16; CR 0x2183 0x2183 1;
    CR 0x24B6 0x24CF 26; CR 0x2C00 0x2C2F 48; CR 0x2C60 0x2C60 1;
    CR 0x2C62 0x2C62 (-10743); CR 0x2C63 0x2C63 (-3814); CR 0x2C64 0x2C64 (-10727);
    CR 0x2C67 0x2C6C UpperLower; CR 0x2C6D 0x2C6D (-10780); CR 0x2C6E 0x2C6E (-10749);
    CR 0x2C6F 0x2C6F (-10783); CR 0x2C70 0x2C70 (-10782); CR 0x2C72 0x2C72 1;
    CR 0x2C75 0x2C75 1; CR 0x2C7E 0x2C7F (-10815); CR 0x2C80 0x2CE3 UpperLower;
    CR 0x2CEB 0x2CEE UpperLower; CR 0x2CF2 0x2CF2 1; CR 0xA640 0xA66D UpperLower;
    CR 0xA680 0xA69B UpperLower; CR 0xA722 0xA72F UpperLower; CR 0xA732 0xA76F UpperLower;
    CR 0xA779 0xA77C UpperLower; CR 0xA77D 0xA77D (-35332); CR 0xA77E 0xA787 UpperLower;
    CR 0xA78B 0xA78B 1; CR 0xA78D 0xA78D (-42280); CR 0xA790 0xA793 UpperLower;
    CR 0xA796 0xA7A9 UpperLower; CR 0xA7AA 0xA7AA (-42308); CR 0xA7AB 0xA7AB (-42319);
    CR 0xA7AC 0xA7AC (-42315); CR 0xA7AD 0xA7AD (-42305); CR 0xA7AE 0xA7AE (-42308);
    CR 0xA7B0 0xA7B0 (-42258); CR 0xA7B1 0xA7B1 (-42282); CR 0xA7B2 0xA7B2 (-42261);
    CR 0xA7B3 0xA7B3 928; CR 0xA7B4 0xA7C3 UpperLower; CR 0xA7C4 0xA7C4 (-48);
    CR 0xA7C5 0xA7C5 (-42307); CR 0xA7C6 0xA7C6 (-35384); CR 0xA7C7 0xA7CA UpperLower;
    CR 0xA7D0 0xA7D0 1; CR 0xA7D6 0xA7D9 UpperLower; CR 0xA7F5 0xA7F5 1;
    CR 0xFF21 0xFF3A 32; CR 0x10400 0x10427 40; CR 0x104B0 0x104D3 40;
    CR 0x10570 0x1057A 39; CR 0x1057C 0x1058A 39; CR 0x1058C 0x10592 39;
    CR 0x10594 0x10595 39; CR 0x10C80 0x10CB2 64; CR 0x118A0 0x118BF 32;
    CR 0x16E40 0x16E5F 32; CR 0x1E900 0x1E921 34
  ].

(** [to(LowerCase, r, caseRange)]; the binary search of the source finds
    the same range as this linear one, the ranges being sorted and
    disjoint. *)
Fixpoint to (caseRange : list CaseRange) (r : Z) : Z :=
  match caseRange with
  | [] => r
  | cr :: rest =>
      if (Lo cr <=? r) && (r <=? Hi cr) then
        if utf8.MaxRune <? Delta cr then
          Lo cr + Z.lor (Z.land (r - Lo cr) (Z.lnot 1)) 1
        else r + Delta cr
      else to rest r
  end.

Definition ToLower (r : Z) : Z :=
  if r <=? MaxASCII then
    if (0x41 <=? r) && (r <=? 0x5A) then r + (0x61 - 0x41) else r
  else to LowerCaseRanges r.

End unicode.

(** *** Package strings *)

(** [s[n:]] *)
Fixpoint str_drop (n : nat) (s : string) : string :=
  match n, s with
  | O, _ => s
  | S n', EmptyString => EmptyString
  | S n', String _ s' => str_drop n' s'
  end.

(** [strings.Map]: every rune [c] of [s] (an invalid byte read as
    [RuneError]) is replaced by the UTF-8 encoding of [mapping(c)], or
    dropped when that is negative. The source copies the prefix it leaves
    unchanged instead of re-encoding it; valid UTF-8 being the encoding of
    its runes, the result is the same. *)
Fixpoint map_runes (fuel : nat) (mapping : Z -> Z) (s : string) : string :=
  match fuel with
  | O => EmptyString
  | S fuel' =>
      match s with
      | EmptyString => EmptyString
      | String _ _ =>
          let '(c, width) := utf8.DecodeRuneInString s in
          let r := mapping c in
          (if (0 <=? r)%Z then utf8.AppendRune r else EmptyString)
            ++ map_runes fuel' mapping (str_drop width s)
      end
  end.

Definition Map (mapping : Z -> Z) (s : string) : string :=
  map_runes (String.length s) mapping s.

(** The first loop of [strings.ToLower]: [(isASCII, hasUpper)]. *)
Fixpoint scan_ascii (s : string) (hasUpper : bool) : bool * bool :=
  match s with
  | EmptyString => (true, hasUpper)
  | String c s' =>
      let b := utf8.byte c in
      if (utf8.RuneSelf <=? b)%Z then (false, hasUpper)
      else scan_ascii s' (hasUpper || ((0x41 <=? b) && (b <=? 0x5A))%Z)
  end.

(** The ASCII loop of [strings.ToLower]: each byte in 'A'..'Z' is lowered. *)
Fixpoint lower_ascii_bytes (s : string) : string :=
  match s with
  | EmptyString => EmptyString
  | String c s' => String (lower_ascii c) (lower_ascii_bytes s')
  end.

Definition ToLower (s : string) : string :=
  let '(isASCII, hasUpper) := scan_ascii s false in
  if isASCII then
    if negb hasUpper then s else lower_ascii_bytes s
  else Map unicode.ToLower s.

(** Executable checks the proofs about [ToLower] evaluate: a test over
    consecutive integers, dots turned to dashes on a byte, valid Unicode
    scalar values, and the table facts checked rune by rune. *)
Fixpoint all_from (f : Z -> bool) (n : nat) (r : Z) : bool :=
  match n with
  | O => true
  | S n' => if f r then all_from f n' (r + 1) else false
  end.

Definition rdb (b : Z) : Z := if (b =? 46)%Z then 45%Z else b.

Definition valid_rune (r : Z) : bool :=
  (0 <=? r)%Z && (r <=? utf8.MaxRune)%Z
  && negb ((utf8.surrogateMin <=? r)%Z && (r <=? utf8.surrogateMax)%Z).

Definition lower_ok (r : Z) : bool :=
  let l := unicode.ToLower r in
  valid_rune l && (unicode.ToLower l =? l)%Z && (negb (l =? 46)%Z || (r =? 46)%Z).

Definition ascii_ok (b : Z) : bool :=
  String.eqb (utf8.AppendRune (unicode.ToLower b))
             (String (lower_ascii (utf8.of_byte b)) EmptyString).

Definition Contains (s sub : string) : bool :=
  match String.index 0 sub s with Some _ => true | None => false end.

(** [generatePullZoneName] (identical in provision.go and cdn.go). *)
Definition generatePullZoneName (domain : string) : string :=
  "morden-" ++ replace_dots (ToLower domain).

Definition generateSubdomainPullZoneName (subdomain parentDomain : string) : string :=
  generatePullZoneName (subdomain ++ "." ++ parentDomain).

(* ------------------------------------------------------------------ *)
(** ** Provider client (package bunny, Client) *)

Module Bunny.

Definition not_found {A} (what : string) : M A := throw ("API error (status 404): " ++ what).

Definition upd_prov (f : Provider -> Provider) : M unit :=
  modify (fun w => with_prov (f w.(prov)) w).

Definition fresh_id : M Z := fun w =>
  let pv := w.(prov) in
  (ROk pv.(nextID),
   with_prov (mkProv pv.(dnsZones) pv.(dnsRecords) pv.(pullZones) (pv.(nextID) + 1)) w).

Definition zone_exists (pv : Provider) (z : Z) : bool :=
  existsb (fun zn => Z.eqb zn.(zone_ID) z) pv.(dnsZones).

Definition GetDNSZone (domain : string) : M DNSZone :=
  if String.eqb domain "" then throw "domain is required" else
  record_call CListDNSZones ;;;
  zs <- gets (fun w => w.(prov).(dnsZones)) ;;
  match List.find (fun z => String.eqb z.(zone_Domain) domain) zs with
  | Some z => ret z
  | None => not_found "DNS zone not found"
  end.

Definition CreateDNSZone (domain soaEmail : string) : M DNSZone :=
  if String.eqb domain "" then throw "domain is required" else
  record_call (CCreateDNSZone domain soaEmail) ;;;
  zs <- gets (fun w => w.(prov).(dnsZones)) ;;
  if existsb (fun z => String.eqb z.(zone_Domain) domain) zs
  then throw "API error (status 400): zone exists" else
  id <- fresh_id ;;
  let z := mkZone id domain in
  upd_prov (fun pv => mkProv (pv.(dnsZones) ++ [z]) pv.(dnsRecords) pv.(pullZones) pv.(nextID)) ;;;
  ret z.

Definition GetDNSRecords (zoneID : Z) : M (list DNSRecord) :=
  if Z.leb zoneID 0 then throw "zone ID must be positive" else
  record_call (CGetDNSRecords zoneID) ;;;
  pv <- gets prov ;;
  if zone_exists pv zoneID
  then ret (map snd (filter (fun zr => zr.1 = zoneID) pv.(dnsRecords)))
  else not_found "zone".

Definition AddDNSRecord (zoneID : Z) (req : DNSRecordRequest) : M DNSRecord :=
  if Z.leb zoneID 0 then throw "zone ID must be positive" else
  if String.eqb req.(req_Name) "" then throw "record name is required" else
  if String.eqb req.(req_Value) "" then throw "record value is required" else
  record_call (CAddDNSRecord zoneID req) ;;;
  pv <- gets prov ;;
  if negb (zone_exists pv zoneID) then not_found "zone" else
  id <- fresh_id ;;
  let r := mkRec id req.(req_Type) req.(req_Name) req.(req_Value) req.(req_TTL) req.(req_Priority) in
  upd_prov (fun pv => mkProv pv.(dnsZones) (pv.(dnsRecords) ++ [(zoneID, r)]) pv.(pullZones) pv.(nextID)) ;;;
  ret r.

Definition UpdateDNSRecord (zoneID recordID : Z) (req : DNSRecordRequest) : M unit :=
  if Z.leb zoneID 0 then throw "zone ID must be positive" else
  if Z.leb recordID 0 then throw "record ID must be positive" else
  record_call (CUpdateDNSRecord zoneID recordID req) ;;;
  pv <- gets prov ;;
  if existsb (fun zr => Z.eqb zr.1 zoneID && Z.eqb zr.2.(rec_ID) recordID) pv.(dnsRecords)
  then upd_prov (fun pv => mkProv pv.(dnsZones)
          (map (fun zr => if Z.eqb zr.1 zoneID && Z.eqb zr.2.(rec_ID) recordID
                          then (zoneID, mkRec recordID req.(req_Type) req.(req_Name)
                                           req.(req_Value) req.(req_TTL) req.(req_Priority))
                          else zr) pv.(dnsRecords))
          pv.(pullZones) pv.(nextID))
  else not_found "record".

Definition ListPullZones : M (list PullZone) :=
  record_call CListPullZones ;;; gets (fun w => w.(prov).(pullZones)).

Definition GetPullZoneByName (name : string) : M PullZone :=
  if String.eqb name "" then throw "name is required" else
  zs <- ListPullZones ;;
  match List.find (fun z => String.eqb z.(pz_Name) name) zs with
  | Some z => ret z
  | None => not_found "pull zone not found"
  end.

(** The request body [CreatePullZone] sends (cdn.go, lines 122-136). *)
Definition createPullZoneRequest (domain originIP : string) : CreatePullZoneRequest :=
  mkPZReq (generatePullZoneName domain) ("http://" ++ originIP) domain
          true false false false false
          true "SG" true true 1440.

(** The provider names a new pull zone's system hostname after it. *)
Definition CreatePullZone (domain originIP : string) : M PullZone :=
  if String.eqb domain "" then throw "domain is required" else
  if String.eqb originIP "" then throw "origin IP is required" else
  let req := createPullZoneRequest domain originIP in
  record_call (CCreatePullZone req) ;;;
  id <- fresh_id ;;
  let z := mkPZ id req.(Name) [req.(Name) ++ ".b-cdn.net"] in
  upd_prov (fun pv => mkProv pv.(dnsZones) pv.(dnsRecords) (pv.(pullZones) ++ [z]) pv.(nextID)) ;;;
  ret z.

Definition AddPullZoneHostname (zoneID : Z) (hostname : string) : M unit :=
  if Z.leb zoneID 0 then throw "zone ID must be positive" else
  if String.eqb hostname "" then throw "hostname is required" else
  record_call (CAddPullZoneHostname zoneID hostname) ;;;
  pv <- gets prov ;;
  if existsb (fun z => Z.eqb z.(pz_ID) zoneID) pv.(pullZones)
  then upd_prov (fun pv => mkProv pv.(dnsZones) pv.(dnsRecords)
         (map (fun z => if Z.eqb z.(pz_ID) zoneID
                        then mkPZ z.(pz_ID) z.(pz_Name) (z.(pz_Hostnames) ++ [hostname]) else z)
              pv.(pullZones)) pv.(nextID))
  else not_found "pull zone".

Definition GetPullZone (zoneID : Z) : M PullZone :=
  if Z.leb zoneID 0 then throw "zone ID must be positive" else
  record_call (CGetPullZone zoneID) ;;;
  zs <- gets (fun w => w.(prov).(pullZones)) ;;
  match List.find (fun z => Z.eqb z.(pz_ID) zoneID) zs with
  | Some z => ret z
  | None => not_found "pull zone"
  end.

Definition DeleteDNSZone (zoneID : Z) : M unit :=
  if Z.leb zoneID 0 then throw "zone ID must be positive" else
  record_call (CDeleteDNSZone zoneID) ;;;
  pv <- gets prov ;;
  if zone_exists pv zoneID
  then upd_prov (fun pv => mkProv (filter (fun z => z.(zone_ID) <> zoneID) pv.(dnsZones))
                                 (filter (fun zr => zr.1 <> zoneID) pv.(dnsRecords))
                                 pv.(pullZones) pv.(nextID))
  else not_found "zone".

Definition DeletePullZone (zoneID : Z) : M unit :=
  if Z.leb zoneID 0 then throw "zone ID must be positive" else
  record_call (CDeletePullZone zoneID) ;;;
  pv <- gets prov ;;
  if existsb (fun z => Z.eqb z.(pz_ID) zoneID) pv.(pullZones)
  then upd_prov (fun pv => mkProv pv.(dnsZones) pv.(dnsRecords)
                                 (filter (fun z => z.(pz_ID) <> zoneID) pv.(pullZones)) pv.(nextID))
  else not_found "pull zone".

Definition DeleteDNSRecord (zoneID recordID : Z) : M unit :=
  if Z.leb zoneID 0 then throw "zone ID must be positive" else
  if Z.leb recordID 0 then throw "record ID must be positive" else
  record_call (CDeleteDNSRecord zoneID recordID) ;;;
  pv <- gets prov ;;
  if existsb (fun zr => Z.eqb zr.1 zoneID && Z.eqb zr.2.(rec_ID) recordID) pv.(dnsRecords)
  then upd_prov (fun pv => mkProv pv.(dnsZones)
          (List.filter (fun zr => negb (Z.eqb zr.1 zoneID && Z.eqb zr.2.(rec_ID) recordID))
             pv.(dnsRecords))
          pv.(pullZones) pv.(nextID))
  else not_found "record".

End Bunny.

(* ------------------------------------------------------------------ *)
(** ** Provisioning pipeline (package provisioner) *)

Definition defaultDNSRecordTTL : Z := 3600.

(** [fmt.Errorf(prefix + "%w", err)] around a fallible call. *)
Definition wrap {A} (prefix : string) (m : M A) : M A :=
  fun w => match m w with
           | (RErr e, w') => (RErr (prefix ++ e), w')
           | r => r
           end.

(** [extractCDNHostname] (identical in domain.go and subdomain.go). *)
Definition extractCDNHostname (pz : PullZone) : string :=
  let from_list :=
    match pz.(pz_Hostnames) with
    | [] => None
    | h0 :: _ =>
        match List.find (fun h => Contains h ".bunnycdn.com") pz.(pz_Hostnames) with
        | Some h => Some h
        | None => if String.eqb h0 "" then None else Some h0
        end
    end in
  match from_list with
  | Some h => h
  | None => if Z.ltb 0 pz.(pz_ID) then pretty pz.(pz_ID) ++ ".bunnycdn.com" else ""
  end.

Definition StepName (step : Z) : string :=
  if Z.eqb step StepNone then "none"
  else if Z.eqb step StepDNSZone then "dns_zone"
  else if Z.eqb step StepDNSRecords then "dns_records"
  else if Z.eqb step StepPullZone then "pull_zone"
  else if Z.eqb step StepCNAMESync then "cname_sync"
  else "unknown".

(** The id of the record behind a pointer ([provState.ID]). *)
Definition id_of (p : nat) : M string := r <- deref p ;; ret r.(ID).

Definition records_or_empty (r : list DNSRecord + string) : list DNSRecord :=
  match r with inl l => l | inr _ => [] end.

Definition recordExists (existing : list DNSRecord) (name : string) (ty : Z) : bool :=
  existsb (fun r => String.eqb r.(rec_Name) name && Z.eqb r.(rec_Type) ty) existing.

Module DomainProvisioner.

(** Step 1. *)
Definition createDNSZone (cfg : Config) (domain : string) (p : nat) : M unit :=
  ex <- try (Bunny.GetDNSZone domain) ;;
  match ex with
  | inl z =>
      assign p (set_ZoneID z.(zone_ID)) ;;;
      Manager.Update p ;;;
      id <- id_of p ;; Manager.IncrementStep id
  | inr _ =>
      zone <- Bunny.CreateDNSZone domain cfg.(SOAEmail) ;;
      assign p (set_ZoneID zone.(zone_ID)) ;;;
      Manager.Update p ;;;
      id <- id_of p ;; Manager.IncrementStep id
  end.

Definition add_if_missing (existing : list DNSRecord) (zoneID : Z) (req : DNSRecordRequest)
    (what : string) : M unit :=
  if recordExists existing req.(req_Name) req.(req_Type) then ret tt
  else _ <- wrap ("failed to add " ++ what ++ ": ") (Bunny.AddDNSRecord zoneID req) ;; ret tt.

(** Step 2. *)
Definition addDNSRecords (cfg : Config) (zoneID : Z) (domain : string) (p : nat) : M unit :=
  let ip := cfg.(ReverseProxyIP) in
  ex <- try (Bunny.GetDNSRecords zoneID) ;;
  let existing := records_or_empty ex in
  add_if_missing existing zoneID
    (mkRecReq DNSRecordTypeA "@" ip defaultDNSRecordTTL 0) "A record" ;;;
  add_if_missing existing zoneID
    (mkRecReq DNSRecordTypeCNAME "www" (domain ++ ".") defaultDNSRecordTTL 0) "www CNAME record" ;;;
  add_if_missing existing zoneID
    (mkRecReq DNSRecordTypeMX "@" ("mail." ++ domain ++ ".") defaultDNSRecordTTL 10) "MX record" ;;;
  add_if_missing existing zoneID
    (mkRecReq DNSRecordTypeTXT "@" "v=spf1 a mx -all" defaultDNSRecordTTL 0) "SPF TXT record" ;;;
  (if recordExists existing "_dmarc" DNSRecordTypeTXT then ret tt
   else _ <- try (Bunny.AddDNSRecord zoneID
                    (mkRecReq DNSRecordTypeTXT "_dmarc"
                       ("v=DMARC1; p=none; rua=mailto:dmarc@" ++ domain) defaultDNSRecordTTL 0)) ;;
        ret tt) ;;;
  id <- id_of p ;; Manager.IncrementStep id.

(** Step 3. *)
Definition createPullZone (cfg : Config) (domain : string) (p : nat) : M unit :=
  let zoneName := generatePullZoneName domain in
  ex <- try (Bunny.GetPullZoneByName zoneName) ;;
  match ex with
  | inl z =>
      assign p (set_PullZoneID z.(pz_ID)) ;;;
      assign p (set_CDNHostname (extractCDNHostname z)) ;;;
      Manager.Update p ;;;
      id <- id_of p ;; Manager.IncrementStep id
  | inr _ =>
      pz <- Bunny.CreatePullZone domain cfg.(ReverseProxyIP) ;;
      _ <- try (Bunny.AddPullZoneHostname pz.(pz_ID) domain) ;;
      let cdnHostname := extractCDNHostname pz in
      assign p (set_PullZoneID pz.(pz_ID)) ;;;
      assign p (set_CDNHostname cdnHostname) ;;;
      Manager.Update p ;;;
      id <- id_of p ;; Manager.IncrementStep id
  end.

(** Step 4. *)
Definition syncCDNCNAME (zoneID pullZoneID : Z) (p : nat) : M unit :=
  pz <- wrap "failed to get pull zone: " (Bunny.GetPullZone pullZoneID) ;;
  let cdnHostname := extractCDNHostname pz in
  if String.eqb cdnHostname "" then throw "could not extract CDN hostname from pull zone" else
  ex <- try (Bunny.GetDNSRecords zoneID) ;;
  let req := mkRecReq DNSRecordTypeCNAME "cdn" cdnHostname defaultDNSRecordTTL 0 in
  match List.find (fun r => String.eqb r.(rec_Name) "cdn" && Z.eqb r.(rec_Type) DNSRecordTypeCNAME)
                  (records_or_empty ex) with
  | Some r => wrap "failed to update cdn CNAME record: " (Bunny.UpdateDNSRecord zoneID r.(rec_ID) req)
  | None => _ <- wrap "failed to add cdn CNAME record: " (Bunny.AddDNSRecord zoneID req) ;; ret tt
  end ;;;
  assign p (set_CDNHostname cdnHostname) ;;;
  Manager.Update p ;;;
  id <- id_of p ;; Manager.IncrementStep id.

Definition step1 cfg domain p := wrap "failed to create DNS zone: " (createDNSZone cfg domain p).
Definition step2 cfg domain p :=
  r <- deref p ;; wrap "failed to add DNS records: " (addDNSRecords cfg r.(ZoneID) domain p).
Definition step3 cfg domain p := wrap "failed to create pull zone: " (createPullZone cfg domain p).
Definition step4 (p : nat) :=
  r <- deref p ;; wrap "failed to sync CDN CNAME: " (syncCDNCNAME r.(ZoneID) r.(PullZoneID) p).

(** [Provision]: the [switch provState.CurrentStep] with [fallthrough]. *)
Definition Provision (cfg : Config) (domain : string) : M unit :=
  p <- wrap "failed to get state: " (Manager.GetByDomain domain) ;;
  r <- deref p ;;
  let s := r.(CurrentStep) in
  if Z.eqb s StepNone || Z.eqb s StepDNSZone then
    step1 cfg domain p ;;; step2 cfg domain p ;;; step3 cfg domain p ;;; step4 p
  else if Z.eqb s StepDNSRecords then
    step2 cfg domain p ;;; step3 cfg domain p ;;; step4 p
  else if Z.eqb s StepPullZone then
    step3 cfg domain p ;;; step4 p
  else if Z.eqb s StepCNAMESync then
    step4 p
  else ret tt.

End DomainProvisioner.

Module SubdomainProvisioner.

Definition findParentAndCreatePullZone (cfg : Config) (subdomain parentDomain : string)
    (p : nat) : M unit :=
  let fullDomain := subdomain ++ "." ++ parentDomain in
  parentZone <- wrap ("parent DNS zone not found for " ++ parentDomain ++ ": ")
                  (Bunny.GetDNSZone parentDomain) ;;
  assign p (set_ZoneID parentZone.(zone_ID)) ;;;
  Manager.Update p ;;;
  let pullZoneName := generateSubdomainPullZoneName subdomain parentDomain in
  ex <- try (Bunny.GetPullZoneByName pullZoneName) ;;
  match ex with
  | inl z =>
      assign p (set_PullZoneID z.(pz_ID)) ;;;
      assign p (set_CDNHostname (extractCDNHostname z)) ;;;
      Manager.Update p ;;;
      Manager.Update p ;;;
      assign p (set_CurrentStep StepPullZone)
  | inr _ =>
      pz <- Bunny.CreatePullZone fullDomain cfg.(ReverseProxyIP) ;;
      _ <- try (Bunny.AddPullZoneHostname pz.(pz_ID) fullDomain) ;;
      let cdnHostname := extractCDNHostname pz in
      assign p (set_PullZoneID pz.(pz_ID)) ;;;
      assign p (set_CDNHostname cdnHostname) ;;;
      assign p (set_CurrentStep StepPullZone) ;;;
      Manager.Update p
  end.

Definition addSubdomainCNAME (subdomain parentDomain : string) (p : nat) : M unit :=
  r <- deref p ;;
  pz <- wrap "failed to get pull zone: " (Bunny.GetPullZone r.(PullZoneID)) ;;
  let cdnHostname := extractCDNHostname pz in
  if String.eqb cdnHostname "" then throw "could not extract CDN hostname from pull zone" else
  ex <- try (Bunny.GetDNSRecords r.(ZoneID)) ;;
  let req := mkRecReq DNSRecordTypeCNAME subdomain cdnHostname defaultDNSRecordTTL 0 in
  match List.find (fun x => String.eqb x.(rec_Name) subdomain && Z.eqb x.(rec_Type) DNSRecordTypeCNAME)
                  (records_or_empty ex) with
  | Some x => wrap "failed to update subdomain CNAME: " (Bunny.UpdateDNSRecord r.(ZoneID) x.(rec_ID) req)
  | None => _ <- wrap "failed to add subdomain CNAME: " (Bunny.AddDNSRecord r.(ZoneID) req) ;; ret tt
  end ;;;
  assign p (set_CurrentStep StepCNAMESync) ;;;
  Manager.Update p.

Definition Provision (cfg : Config) (subdomain parentDomain : string) : M unit :=
  let fullDomain := subdomain ++ "." ++ parentDomain in
  p <- wrap "failed to get state: " (Manager.GetByDomain fullDomain) ;;
  r <- deref p ;;
  let s := r.(CurrentStep) in
  if Z.eqb s StepNone || Z.eqb s StepDNSZone then
    wrap "failed to find parent zone and create pull zone: "
      (findParentAndCreatePullZone cfg subdomain parentDomain p) ;;;
    wrap "failed to add subdomain CNAME: " (addSubdomainCNAME subdomain parentDomain p)
  else if Z.eqb s StepDNSRecords || Z.eqb s StepPullZone then
    wrap "failed to add subdomain CNAME: " (addSubdomainCNAME subdomain parentDomain p)
  else ret tt.

(** [RemoveSubdomain]. *)
Definition RemoveSubdomain (subdomain parentDomain : string) : M unit :=
  let fullDomain := subdomain ++ "." ++ parentDomain in
  provState <- wrap "subdomain state not found: " (Manager.GetByDomain fullDomain) ;;
  r <- deref provState ;;
  (if Z.ltb 0 r.(ZoneID) then
     ex <- try (Bunny.GetDNSRecords r.(ZoneID)) ;;
     match ex with
     | inl existingRecords =>
         match List.find (fun c => String.eqb c.(rec_Name) subdomain
                                   && Z.eqb c.(rec_Type) DNSRecordTypeCNAME) existingRecords with
         | Some c => _ <- try (Bunny.DeleteDNSRecord r.(ZoneID) c.(rec_ID)) ;; ret tt
         | None => ret tt
         end
     | inr _ => ret tt
     end
   else ret tt) ;;;
  (if Z.ltb 0 r.(PullZoneID)
   then _ <- try (Bunny.DeletePullZone r.(PullZoneID)) ;; ret tt else ret tt) ;;;
  _ <- try (Manager.Delete r.(ID)) ;;
  ret tt.

End SubdomainProvisioner.

Module Deprovisioner.

Definition deleteDNSZone (zoneID : Z) : M unit :=
  if Z.leb zoneID 0 then ret tt else
  _ <- try (Bunny.GetDNSRecords zoneID) ;;       (* audit log only *)
  wrap "failed to delete DNS zone: " (Bunny.DeleteDNSZone zoneID).

Definition deletePullZone (pullZoneID : Z) : M unit :=
  if Z.leb pullZoneID 0 then ret tt else
  _ <- try (Bunny.GetPullZone pullZoneID) ;;     (* audit log only *)
  wrap "failed to delete pull zone: " (Bunny.DeletePullZone pullZoneID).

Definition deleteState (stateID : string) : M unit :=
  wrap "failed to delete state: " (Manager.Delete stateID).

Definition deprovisionByName (domain : string) : M unit :=
  zr <- try (Bunny.GetDNSZone domain) ;;
  let zoneID := match zr with inl z => z.(zone_ID) | inr _ => 0 end in
  pr <- try (Bunny.GetPullZoneByName (generatePullZoneName domain)) ;;
  let pullZoneID := match pr with inl z => z.(pz_ID) | inr _ => 0 end in
  (if Z.ltb 0 zoneID then _ <- try (deleteDNSZone zoneID) ;; ret tt else ret tt) ;;;
  (if Z.ltb 0 pullZoneID then _ <- try (deletePullZone pullZoneID) ;; ret tt else ret tt) ;;;
  ret tt.

Definition Deprovision (domain : string) : M unit :=
  st <- try (Manager.GetByDomain domain) ;;
  match st with
  | inr _ => deprovisionByName domain
  | inl p =>
      r <- deref p ;;
      _ <- try (deleteDNSZone r.(ZoneID)) ;;
      _ <- try (deletePullZone r.(PullZoneID)) ;;
      deleteState r.(ID)
  end.

(** [deleteSubdomainCNAME]: the loop stops at the first CNAME record of
    the parent zone named after the subdomain. *)
Definition deleteSubdomainCNAME (parentZoneID : Z) (subdomain fullDomain : string) : M unit :=
  records <- wrap "failed to get parent zone records: " (Bunny.GetDNSRecords parentZoneID) ;;
  match List.find (fun r => String.eqb r.(rec_Name) subdomain
                            && Z.eqb r.(rec_Type) DNSRecordTypeCNAME) records with
  | Some r => wrap "failed to delete CNAME record: " (Bunny.DeleteDNSRecord parentZoneID r.(rec_ID))
  | None => ret tt
  end.

Definition deprovisionSubdomainByName (subdomain parentDomain : string) : M unit :=
  let fullDomain := subdomain ++ "." ++ parentDomain in
  zr <- try (Bunny.GetDNSZone parentDomain) ;;
  (match zr with
   | inl parentZone => _ <- try (deleteSubdomainCNAME parentZone.(zone_ID) subdomain fullDomain) ;; ret tt
   | inr _ => ret tt
   end) ;;;
  pr <- try (Bunny.GetPullZoneByName (generateSubdomainPullZoneName subdomain parentDomain)) ;;
  match pr with
  | inl pullZone => deletePullZone pullZone.(pz_ID)
  | inr _ => ret tt
  end.

Definition DeprovisionSubdomain (subdomain parentDomain : string) : M unit :=
  let fullDomain := subdomain ++ "." ++ parentDomain in
  st <- try (Manager.GetByDomain fullDomain) ;;
  match st with
  | inr _ => deprovisionSubdomainByName subdomain parentDomain
  | inl p =>
      r <- deref p ;;
      (if Z.ltb 0 r.(ZoneID)
       then _ <- try (deleteSubdomainCNAME r.(ZoneID) subdomain fullDomain) ;; ret tt
       else ret tt) ;;;
      (if Z.ltb 0 r.(PullZoneID)
       then _ <- try (deletePullZone r.(PullZoneID)) ;; ret tt
       else ret tt) ;;;
      _ <- try (Manager.Delete r.(ID)) ;;
      ret tt
  end.

End Deprovisioner.

Module Provisioner.

(** Lines 132-167 of provision.go: after a successful pipeline. *)
Definition success_tail (domain : string) (provState : nat) : M unit :=
  id <- id_of provState ;;
  _ <- try (Manager.MarkSuccess id) ;;
  fs <- try (Manager.Get id) ;;
  cdnHostname <- match fs with
                 | inl q => r <- deref q ;; ret r.(CDNHostname)
                 | inr _ => ret ""
                 end ;;
  (* notifier.NotifySuccess(ctx, domain, finalState.ZoneID, ...) *)
  zoneID <- match fs with
            | inl q => r <- deref q ;; ret r.(ZoneID)
            | inr _ => panic            (* finalState is nil *)
            end ;;
  notify (NSuccess domain zoneID cdnHostname).

Definition Provision (cfg : Config) (domain user : string) : M unit :=
  ex <- try (Manager.GetByDomain domain) ;;
  skip <- match ex with
          | inl q => r <- deref q ;; ret (String.eqb r.(Status) StatusSuccess)
          | inr _ => ret false
          end ;;
  if skip then ret tt else
  provState <- match ex with inl q => ret q | inr _ => Manager.Create domain end ;;
  id <- id_of provState ;;
  wrap "failed to mark state as provisioning: " (Manager.MarkProvisioning id) ;;;
  res <- try (DomainProvisioner.Provision cfg domain) ;;
  match res with
  | inr msg =>
      _ <- try (Manager.SetError id msg) ;;
      ps <- deref provState ;;
      notify (NFailed domain (StepName ps.(CurrentStep)) msg) ;;;
      throw ("provisioning failed for domain " ++ domain ++ ": " ++ msg)
  | inl _ => success_tail domain provState
  end.

Definition ProvisionSubdomain (cfg : Config) (subdomain parentDomain user : string) : M unit :=
  let fullDomain := subdomain ++ "." ++ parentDomain in
  ex <- try (Manager.GetByDomain fullDomain) ;;
  skip <- match ex with
          | inl q => r <- deref q ;; ret (String.eqb r.(Status) StatusSuccess)
          | inr _ => ret false
          end ;;
  if skip then ret tt else
  provState <- match ex with inl q => ret q | inr _ => Manager.Create fullDomain end ;;
  id <- id_of provState ;;
  wrap "failed to mark state as provisioning: " (Manager.MarkProvisioning id) ;;;
  res <- try (SubdomainProvisioner.Provision cfg subdomain parentDomain) ;;
  match res with
  | inr msg =>
      _ <- try (Manager.SetError id msg) ;;
      notify (NFailed fullDomain "subdomain_provisioning" msg) ;;;
      throw ("subdomain provisioning failed: " ++ msg)
  | inl _ =>
      _ <- try (Manager.MarkSuccess id) ;;
      fs <- try (Manager.Get id) ;;
      cdnHostname <- match fs with
                     | inl q => r <- deref q ;; ret r.(CDNHostname)
                     | inr _ => ret ""
                     end ;;
      notify (NSubdomain fullDomain parentDomain cdnHostname)
  end.

Definition Deprovision (domain : string) : M unit :=
  wrap ("deprovisioning failed for domain " ++ domain ++ ": ") (Deprovisioner.Deprovision domain) ;;;
  ex <- try (Manager.GetByDomain domain) ;;
  (match ex with
   | inl q => r <- deref q ;; _ <- try (Manager.Delete r.(ID)) ;; ret tt
   | inr _ => ret tt
   end) ;;;
  notify (NDeprovisioned domain).

(** [Recover]: re-provision every record [Manager.Recover] returns,
    skipping those with 5 or more retries; failures are only logged. *)
Fixpoint recover_loop (cfg : Config) (sts : list ProvisionState) : M unit :=
  match sts with
  | [] => ret tt
  | st :: rest =>
      (if Z.leb 5 st.(Retries) then ret tt
       else _ <- try (Provision cfg st.(Domain) "") ;; ret tt) ;;;
      recover_loop cfg rest
  end.

Definition Recover (cfg : Config) : M unit :=
  sts <- Manager.Recover ;; recover_loop cfg sts.

End Provisioner.

(** [recoverPendingProvisions] of the serve command (after its 5 s sleep). *)
Definition recoverPendingProvisions (cfg : Config) : M unit :=
  l <- Manager.Recover ;;
  match l with
  | [] => ret tt
  | _ => Provisioner.Recover cfg
  end.

(* ------------------------------------------------------------------ *)
(** ** Webhook handler (package webhook) *)

Module Webhook.

Definition signatureHeader := "X-Whm2bunny-Signature".
Definition eventAccountCreated := "account_created".
Definition eventAddonCreated := "addon_created".
Definition eventSubdomainCreated := "subdomain_created".
Definition eventAccountDeleted := "account_deleted".

Record WebhookPayload := mkPayload {
  Event : string; Domain : string; Subdomain : string;
  ParentDomain : string; User : string
}.

(** The parts of [*http.Request] the handler reads: the method, the body
    ([None] when [io.ReadAll] fails) and [r.Header.Get(signatureHeader)]
    (the empty string when the header is missing). *)
Record Request := mkReq {
  Method : string;
  Body : option (list Byte.byte);
  SignatureHdr : string
}.

(** What [ServeHTTP] does: the status it writes and the goroutine it
    starts, if any. *)
Inductive Job :=
  | JProvision (p : WebhookPayload)
  | JSubdomain (p : WebhookPayload)
  | JDeprovision (p : WebhookPayload).

Record Response := mkResp { StatusCode : Z; Spawned : option Job }.

(** [hex.EncodeToString]: two lowercase hex digits per byte. *)
Definition hextable := "0123456789abcdef".
Definition hex_digit (n : nat) : ascii :=
  match String.get n hextable with Some c => c | None => "0"%char end.
Fixpoint EncodeToString (src : list Byte.byte) : string :=
  match src with
  | [] => EmptyString
  | b :: rest =>
      let v := Byte.to_nat b in
      String (hex_digit (v / 16)) (String (hex_digit (v mod 16)) (EncodeToString rest))
  end.

(** [[]byte(s)] for a Go string. *)
Fixpoint bytes_of_string (s : string) : list Byte.byte :=
  match s with
  | EmptyString => []
  | String c rest => Ascii.byte_of_ascii c :: bytes_of_string rest
  end.

(** [subtle.ConstantTimeCompare(x, y) == 1], which [hmac.Equal] is:
    different lengths give 0 at once, otherwise the XOR of every byte
    pair is OR-ed into an accumulator and compared with 0. *)
Fixpoint xor_acc (x y : list Byte.byte) (acc : N) : N :=
  match x, y with
  | a :: x', b :: y' =>
      xor_acc x' y' (N.lor acc (N.lxor (Byte.to_N a) (Byte.to_N b)))
  | _, _ => acc
  end.
Definition Equal (x y : list Byte.byte) : bool :=
  Nat.eqb (length x) (length y) && N.eqb (xor_acc x y 0) 0.

Definition validatePayload (p : WebhookPayload) : option string :=
  if String.eqb p.(User) "" then Some "user is required" else
  if String.eqb p.(Event) eventAccountCreated || String.eqb p.(Event) eventAddonCreated
     || String.eqb p.(Event) eventAccountDeleted then
    (if String.eqb p.(Domain) "" then Some "domain is required" else None)
  else if String.eqb p.(Event) eventSubdomainCreated then
    (if String.eqb p.(Subdomain) "" then Some "subdomain is required"
     else if String.eqb p.(ParentDomain) "" then Some "parent_domain is required"
     else None)
  else Some "unknown event type".

Section Handler.
(** HMAC-SHA256 under a key ([hmac.New(sha256.New, key)], [Write],
    [Sum(nil)]) and [json.Unmarshal] into a [WebhookPayload] are
    library code; the handler only relies on the digest being
    32 bytes. *)
Variable hmac_sha256 : list Byte.byte -> list Byte.byte -> list Byte.byte.
Variable json_unmarshal : list Byte.byte -> option WebhookPayload.

Definition verifySignature (secret : string) (payload : list Byte.byte)
    (signature : string) : bool :=
  if String.eqb signature "" then false else
  let expectedSig := EncodeToString (hmac_sha256 (bytes_of_string secret) payload) in
  Equal (bytes_of_string signature) (bytes_of_string expectedSig).

Definition ServeHTTP (secret : string) (r : Request) : Response :=
  if negb (String.eqb r.(Method) "POST") then mkResp 405 None else
  match r.(Body) with
  | None => mkResp 400 None
  | Some body =>
      let signature := r.(SignatureHdr) in
      if negb (verifySignature secret body signature) then mkResp 401 None else
      match json_unmarshal body with
      | None => mkResp 400 None
      | Some payload =>
          match validatePayload payload with
          | Some _ => mkResp 400 None
          | None =>
              let ev := payload.(Event) in
              if String.eqb ev eventAccountCreated || String.eqb ev eventAddonCreated
              then mkResp 202 (Some (JProvision payload))
              else if String.eqb ev eventSubdomainCreated
              then mkResp 202 (Some (JSubdomain payload))
              else if String.eqb ev eventAccountDeleted
              then mkResp 202 (Some (JDeprovision payload))
              else mkResp 400 None
          end
      end
  end.
End Handler.

End Webhook.

(* ------------------------------------------------------------------ *)
(** ** Provider client retries (packages retry and bunny) *)

Module Retry.

(** [retry.Config]; durations in seconds. *)
Record Config := mkRetryCfg {
  MaxRetries : Z; InitialBackoff : Z; MaxBackoff : Z
}.

Definition DefaultConfig := mkRetryCfg 5 1 60.

(** The state of the backoff [WithBackoff] builds:
    [WithCappedDuration(MaxBackoff, WithMaxRetries(MaxRetries,
    NewExponential(InitialBackoff)))].  Each layer of go-retry keeps its
    own attempt counter. *)
Record Backoff := mkBackoff { exp_attempt : Z; max_attempt : Z }.

Definition WithBackoff (cfg : Config) : Backoff := mkBackoff 0 0.

(** [Next()] of the composed backoff: the capped layer asks the
    max-retries layer, which stops once it has granted [MaxRetries]
    delays and otherwise asks the exponential layer for
    [base << attempt]. *)
Definition Next (cfg : Config) (b : Backoff) : option Z * Backoff :=
  if Z.leb cfg.(MaxRetries) b.(max_attempt) then (None, b) else
  let val := Z.shiftl cfg.(InitialBackoff) b.(exp_attempt) in
  let val := if Z.leb val 0 || Z.ltb cfg.(MaxBackoff) val then cfg.(MaxBackoff) else val in
  (Some val, mkBackoff (b.(exp_attempt) + 1) (b.(max_attempt) + 1)).

(** What one HTTP attempt of [doRequest]'s [retryFunc] sees. *)
Inductive Attempt :=
  | NetworkError                      (* httpClient.Do fails *)
  | ReadError                         (* io.ReadAll(resp.Body) fails *)
  | Reply (status : Z) (decodes : bool). (* a response; does its body unmarshal *)

(** What [retryFunc] returns: nil, a plain error (go-retry stops), or an
    error wrapped by [goRetry.RetryableError]. *)
Inductive Verdict := Done | Terminal (status : Z) | Retryable (status : Z).

Definition retryFunc (a : Attempt) : Verdict :=
  match a with
  | NetworkError => Terminal 0         (* return err *)
  | ReadError => Terminal 0
  | Reply code decodes =>
      if Z.leb 400 code then
        if Z.leb 400 code && Z.ltb code 500 && negb (Z.eqb code 429)
        then Terminal code
        else Retryable code
      else if decodes then Done else Terminal 0
  end.

(** The outcome of [goRetry.Do]: the final verdict, the number of
    attempts made, the delays waited between them and the backoff state
    left behind (the client keeps it in [c.backoff]). *)
Record Outcome := mkOutcome {
  final : Verdict; attempts : nat; waits : list Z; backoff_after : Backoff
}.

(** [goRetry.Do(ctx, b, f)] with the server's reply to the [n]-th
    attempt given by [server n]. *)
Fixpoint do_loop (fuel : nat) (cfg : Config) (b : Backoff) (n : nat)
    (server : nat -> Attempt) : Outcome :=
  match fuel with
  | O => mkOutcome (Terminal 0) n [] b
  | S fuel' =>
      match retryFunc (server n) with
      | Done => mkOutcome Done (S n) [] b
      | Terminal c => mkOutcome (Terminal c) (S n) [] b
      | Retryable c =>
          match Next cfg b with
          | (None, b') => mkOutcome (Retryable c) (S n) [] b'
          | (Some d, b') =>
              let o := do_loop fuel' cfg b' (S n) server in
              mkOutcome o.(final) o.(attempts) (d :: o.(waits)) o.(backoff_after)
          end
      end
  end.

(** The loop ends after at most [MaxRetries - max_attempt] delays, so
    that many iterations plus one suffice. *)
Definition Do (cfg : Config) (b : Backoff) (server : nat -> Attempt) : Outcome :=
  do_loop (S (Z.to_nat (cfg.(MaxRetries) - b.(max_attempt)))) cfg b O server.

(** [Client.doRequest] on a client whose [c.backoff] is [b]. *)
Definition doRequest (b : Backoff) (server : nat -> Attempt) : Outcome :=
  Do DefaultConfig b server.

(** The errors [retry.Do]'s [fn] returns: nil, an [*HTTPError] (direct or
    wrapped) with its status code, or any other error. *)
Inductive Err := ErrNil | HTTPError (code : Z) | OtherError.

(** [DefaultConfig().RetryableErrors]. *)
Definition DefaultRetryableErrors : list Z := [408; 429; 500; 502; 503; 504].

(** [Config.IsRetryable] with [cfg.RetryableErrors = retryableErrors]. *)
Definition IsRetryable (retryableErrors : list Z) (err : Err) : bool :=
  match err with
  | ErrNil => false
  | HTTPError code => existsb (fun c => Z.eqb code c) retryableErrors
  | OtherError => true
  end.

Definition IsRetryableStatusCode (code : Z) : bool :=
  existsb (fun c => Z.eqb code c) [408; 429; 500; 502; 503; 504].

(** The [retryFunc] of [retry.Do]: nil, the error wrapped by
    [retry.RetryableError], or the error as it is. *)
Definition classify (retryableErrors : list Z) (err : Err) : Verdict :=
  let code := match err with HTTPError c => c | _ => 0 end in
  match err with
  | ErrNil => Done
  | _ => if IsRetryable retryableErrors err then Retryable code else Terminal code
  end.

(** [goRetry.Do(ctx, b, f)] for any retry function; [f n] is the verdict
    of the [n]-th call. *)
Fixpoint run (fuel : nat) (cfg : Config) (b : Backoff) (n : nat) (f : nat -> Verdict)
    : Outcome :=
  match fuel with
  | O => mkOutcome (Terminal 0) n [] b
  | S fuel' =>
      match f n with
      | Done => mkOutcome Done (S n) [] b
      | Terminal c => mkOutcome (Terminal c) (S n) [] b
      | Retryable c =>
          match Next cfg b with
          | (None, b') => mkOutcome (Retryable c) (S n) [] b'
          | (Some d, b') =>
              let o := run fuel' cfg b' (S n) f in
              mkOutcome o.(final) o.(attempts) (d :: o.(waits)) o.(backoff_after)
          end
      end
  end.

(** [retry.Do(ctx, cfg, fn)]: every call builds a fresh backoff. *)
Definition RetryDo (cfg : Config) (retryableErrors : list Z) (fn : nat -> Err) : Outcome :=
  run (S (Z.to_nat cfg.(MaxRetries))) cfg (WithBackoff cfg) O
      (fun n => classify retryableErrors (fn n)).

(** Requests made one after another through one [Client]: each
    [doRequest] starts from the backoff the previous one left in
    [c.backoff]. *)
Fixpoint doRequests (b : Backoff) (servers : list (nat -> Attempt)) : list Outcome :=
  match servers with
  | [] => []
  | server :: rest =>
      let o := doRequest b server in o :: doRequests o.(backoff_after) rest
  end.

End Retry.

(* ------------------------------------------------------------------ *)
(** ** Observations used by the specifications *)

(** The record the manager holds for an id. *)
Definition stored (id : string) (w : World) : option ProvisionState :=
  p ← w.(states) !! id; w.(heap) !! p.

Definition stored_step (id : string) (w : World) : option Z :=
  r ← stored id w; Some r.(CurrentStep).

(** The mutations of the state store. *)
Inductive MgrOp :=
  | OCreate (domain : string)
  | OUpdate (p : nat)
  | ODelete (id : string)
  | OIncrementStep (id : string)
  | OSetError (id msg : string)
  | OMarkSuccess (id : string)
  | OMarkProvisioning (id : string)
  | OClear.

Definition run_op (o : MgrOp) : M unit :=
  match o with
  | OCreate d => _ <- Manager.Create d ;; ret tt
  | OUpdate p => Manager.Update p
  | ODelete id => Manager.Delete id
  | OIncrementStep id => Manager.IncrementStep id
  | OSetError id msg => Manager.SetError id msg
  | OMarkSuccess id => Manager.MarkSuccess id
  | OMarkProvisioning id => Manager.MarkProvisioning id
  | OClear => Manager.Clear
  end.

(** The disk as a crash after the first [k] file-system actions of [acts]
    leaves it. *)
Definition crash_after (d : Disk) (acts : list FsAction) (k : nat) : Disk :=
  apply_all d (firstn k acts).

(** Two worlds that agree on everything a provider call cannot touch. *)
Definition same_store (w w' : World) : Prop :=
  w'.(heap) = w.(heap) /\ w'.(nextLoc) = w.(nextLoc) /\ w'.(states) = w.(states)
  /\ w'.(domainIndex) = w.(domainIndex) /\ w'.(disk) = w.(disk)
  /\ w'.(faults) = w.(faults) /\ w'.(fslog) = w.(fslog) /\ w'.(uuids) = w.(uuids)
  /\ w'.(now) = w.(now) /\ w'.(notes) = w.(notes).

(** A save touches only the disk, the fault oracle and the file-system log. *)
Definition same_mem (w w' : World) : Prop :=
  w'.(heap) = w.(heap) /\ w'.(nextLoc) = w.(nextLoc) /\ w'.(states) = w.(states)
  /\ w'.(domainIndex) = w.(domainIndex) /\ w'.(uuids) = w.(uuids) /\ w'.(now) = w.(now)
  /\ w'.(prov) = w.(prov) /\ w'.(calls) = w.(calls) /\ w'.(notes) = w.(notes).

(** Every call appended to the log satisfies [P], nothing else changes
    in the provider log. *)
Definition calls_grow (P : Call -> Prop) (w w' : World) : Prop :=
  exists l, w'.(calls) = (w.(calls) ++ l)%list /\ Forall P l.

(** Two worlds with the same state file and file-system log. *)
Definition same_disk (w w' : World) : Prop :=
  w'.(disk) = w.(disk) /\ w'.(fslog) = w.(fslog).

(** From [w] to [w'] the state file was either left alone or replaced by
    one [save] of the records [w'] holds. *)
Definition saves_once (w w' : World) : Prop :=
  same_disk w w'
  \/ exists f, w'.(fslog) = (w.(fslog) ++ save_actions f (records_of w'))%list
               /\ w'.(disk) = apply_all w.(disk) (save_actions f (records_of w')).

Definition saves_at_end {A} (m : M A) : Prop := forall w, saves_once w (snd (m w)).

(** [m] always completes with a value, whatever the world. *)
Definition total {A} (m : M A) : Prop :=
  forall w, exists a, fst (m w) = ROk a.

(** [m] only moves the world along [R], whatever its outcome. *)
Definition preserves (R : World -> World -> Prop) {A} (m : M A) : Prop :=
  forall w, R w (snd (m w)).

(** [m] never panics. *)
Definition no_panic {A} (m : M A) : Prop :=
  forall w, fst (m w) <> RPanic.

(* ------------------------------------------------------------------ *)
(** ** Concrete worlds for the examples *)

Definition demo_cfg := mkCfg "admin@example.com" "203.0.113.10" "LA".

(** An empty store and an empty provider account. *)
Definition demo_world : World :=
  mkW ∅ 0 ∅ ∅ (mkDisk None None) [] [] ["id1"; "id2"] 100 (mkProv [] [] [] 1) [] [].

(** The provider already hosts the zone of example.com (id 1). *)
Definition demo_parent_world : World :=
  mkW ∅ 0 ∅ ∅ (mkDisk None None) [] [] ["id1"; "id2"] 100
      (mkProv [mkZone 1 "example.com"] [] [] 2) [] [].

(** A pipeline's view of a freshly created record: [Create] stores the
    record at location 0, [GetByDomain] hands out a copy at location 1. *)
Definition fresh_copy (domain : string) (w : World) : World :=
  snd (Manager.GetByDomain domain (snd (Manager.Create domain w))).

Definition demo_rec (domain : string) : ProvisionState :=
  mkPS "id1" domain StatusPending StepNone 0 0 "" "" 0 100 100.

(** The state file left by a crash between step 2 and step 3: the
    pipeline marked the record provisioning before its first step and
    checkpointed [CurrentStep = 2]. *)
Definition crashed_rec : ProvisionState :=
  mkPS "id1" "example.com" StatusProvisioning StepDNSRecords 1 0 "" "" 0 100 120.

Definition crashed_disk : Disk := mkDisk (Some (Full [crashed_rec])) None.

(** A provider account that hosts the zone of example.com. *)
Definition crashed_prov : Provider :=
  mkProv [mkZone 1 "example.com"] [] [] 2.

(** The store after example.com was provisioned: its record (location 0)
    has status success. *)
Definition done_world : World :=
  snd (Manager.MarkSuccess "id1" (snd (Manager.Create "example.com" demo_world))).

(** A stand-in digest for the examples: 32 zero bytes whatever the key
    and message; the handler only relies on the length. *)
Definition zero_mac (key msg : list Byte.byte) : list Byte.byte := repeat Byte.x00 32.

Definition no_json (body : list Byte.byte) : option Webhook.WebhookPayload := None.

(** The pipeline still holds its record (location 0), but the store no
    longer has it: a concurrent account_deleted for the same domain removed
    it. *)
Definition orphan_world : World :=
  with_heap (<[0%nat := demo_rec "example.com"]> ∅) demo_world.

(* ------------------------------------------------------------------ *)
(** ** Observations used by the further properties *)

(** Every id the manager holds points to a live heap cell below the
    allocation frontier. *)
Definition wf_store (w : World) : Prop :=
  map_Forall (fun _ p => (p < w.(nextLoc))%nat /\ is_Some (w.(heap) !! p)) w.(states).

(** Every stored record carries the id it is stored under. *)
Definition ids_match (w : World) : Prop :=
  map_Forall (fun k p => ID <$> w.(heap) !! p = Some k) w.(states).

(** Programs that, when they succeed, end with a successful save. *)
Definition ends_with_save (m : M unit) : Prop :=
  forall w w', m w = (ROk tt, w') -> w'.(disk).(real) = Some (Full (records_of w')).

(** The store after [Create "example.com"] on the empty world. *)
Definition demo_store : World := snd (Manager.Create "example.com" demo_world).

(** The number of delays waited over a sequence of requests. *)
Definition total_waits (os : list Retry.Outcome) : nat :=
  list_sum (map (fun o => length (Retry.waits o)) os).

Definition job_payload (j : Webhook.Job) : Webhook.WebhookPayload :=
  match j with
  | Webhook.JProvision p | Webhook.JSubdomain p | Webhook.JDeprovision p => p
  end.

(** What a job needs of its payload: a user, and the fields of its event. *)
Definition job_ready (j : Webhook.Job) : Prop :=
  match j with
  | Webhook.JProvision p =>
      (p.(Webhook.Event) = Webhook.eventAccountCreated
       \/ p.(Webhook.Event) = Webhook.eventAddonCreated)
      /\ p.(Webhook.Domain) <> "" /\ p.(Webhook.User) <> ""
  | Webhook.JSubdomain p =>
      p.(Webhook.Event) = Webhook.eventSubdomainCreated
      /\ p.(Webhook.Subdomain) <> "" /\ p.(Webhook.ParentDomain) <> ""
      /\ p.(Webhook.User) <> ""
  | Webhook.JDeprovision p =>
      p.(Webhook.Event) = Webhook.eventAccountDeleted
      /\ p.(Webhook.Domain) <> "" /\ p.(Webhook.User) <> ""
  end.

(** A stand-in JSON decoder for the examples: every body decodes to one
    valid account_created payload. *)
Definition demo_json (body : list Byte.byte) : option Webhook.WebhookPayload :=
  Some (Webhook.mkPayload "account_created" "example.com" "" "" "user1").

(** From [w] to [w'] the provider kept all its DNS zones and no request
    to delete a DNS zone was sent. *)
Definition keeps_zones (w w' : World) : Prop :=
  w'.(prov).(dnsZones) = w.(prov).(dnsZones)
  /\ calls_grow (fun c => forall z, c <> CDeleteDNSZone z) w w'.


(* ================================================================== *)
(** * Proofs *)

(** ** Reasoning about the monad *)

Section Preservation.
Context (R : World -> World -> Prop) `{!PreOrder R}.

Lemma preserves_ret {A} (a : A) : preserves R (ret a).
Proof. intros w. simpl. reflexivity. Qed.

Lemma preserves_throw {A} e : preserves R (@throw A e).
Proof. intros w. simpl. reflexivity. Qed.

Lemma preserves_panic {A} : preserves R (@panic A).
Proof. intros w. simpl. reflexivity. Qed.

Lemma preserves_bind {A B} (m : M A) (k : A -> M B) :
  preserves R m -> (forall a, preserves R (k a)) -> preserves R (bind m k).
Proof.
  intros Hm Hk w. specialize (Hm w). unfold bind.
  destruct (m w) as [[a|e|] w1]; simpl in *; try exact Hm.
  etransitivity; [exact Hm | apply Hk].
Qed.

Lemma preserves_try {A} (m : M A) : preserves R m -> preserves R (try m).
Proof.
  intros Hm w. specialize (Hm w). unfold try.
  destruct (m w) as [[a|e|] w1]; exact Hm.
Qed.

Lemma preserves_wrap {A} s (m : M A) : preserves R m -> preserves R (wrap s m).
Proof.
  intros Hm w. specialize (Hm w). unfold wrap.
  destruct (m w) as [[a|e|] w1]; exact Hm.
Qed.

Lemma preserves_gets {A} (f : World -> A) : preserves R (gets f).
Proof. intros w. simpl. reflexivity. Qed.
End Preservation.

Lemma no_panic_ret {A} (a : A) : no_panic (ret a).
Proof. intros w. simpl. discriminate. Qed.

Lemma no_panic_throw {A} e : no_panic (@throw A e).
Proof. intros w. simpl. discriminate. Qed.

Lemma no_panic_gets {A} (f : World -> A) : no_panic (gets f).
Proof. intros w. simpl. discriminate. Qed.

Lemma no_panic_modify f : no_panic (modify f).
Proof. intros w. simpl. discriminate. Qed.

Lemma no_panic_bind {A B} (m : M A) (k : A -> M B) :
  no_panic m -> (forall a, no_panic (k a)) -> no_panic (bind m k).
Proof.
  intros Hm Hk w. specialize (Hm w). unfold bind.
  destruct (m w) as [[a|e|] w1]; simpl in *; [apply Hk | discriminate | now destruct Hm].
Qed.

Lemma no_panic_try {A} (m : M A) : no_panic m -> no_panic (try m).
Proof.
  intros Hm w. specialize (Hm w). unfold try.
  destruct (m w) as [[a|e|] w1]; simpl in *; [discriminate | discriminate | now destruct Hm].
Qed.

Lemma no_panic_wrap {A} s (m : M A) : no_panic m -> no_panic (wrap s m).
Proof.
  intros Hm w. specialize (Hm w). unfold wrap.
  destruct (m w) as [[a|e|] w1]; simpl in *; [discriminate | discriminate | now destruct Hm].
Qed.

#[global] Instance same_store_preorder : PreOrder same_store.
Proof.
  split.
  - intros w. repeat split.
  - intros w1 w2 w3 H12 H23. unfold same_store in *.
    destruct H12 as (?&?&?&?&?&?&?&?&?&?), H23 as (?&?&?&?&?&?&?&?&?&?).
    repeat split; congruence.
Qed.

#[global] Instance calls_grow_preorder P : PreOrder (calls_grow P).
Proof.
  split.
  - intros w. exists []. rewrite app_nil_r. split; [reflexivity | constructor].
  - intros w1 w2 w3 [l1 [E1 F1]] [l2 [E2 F2]]. exists (l1 ++ l2)%list.
    split; [rewrite E2, E1, app_assoc; reflexivity | apply Forall_app; split; assumption].
Qed.

Create HintDb frame.
#[global] Hint Resolve preserves_ret preserves_throw preserves_panic preserves_gets : frame.
#[global] Hint Resolve no_panic_ret no_panic_throw no_panic_gets no_panic_modify : frame.

(** Walk through a monadic program, splitting on every test. *)
Ltac frame_walk :=
  repeat (cbv zeta;
    match goal with
    | |- PreOrder _ => exact _
    | |- preserves _ (bind _ _) => apply preserves_bind; [ .. | intros ? ]
    | |- preserves _ (try _) => apply preserves_try
    | |- preserves _ (wrap _ _) => apply preserves_wrap
    | |- no_panic (bind _ _) => apply no_panic_bind; [ .. | intros ? ]
    | |- no_panic (try _) => apply no_panic_try
    | |- no_panic (wrap _ _) => apply no_panic_wrap
    | |- preserves _ (if ?b then _ else _) => destruct b
    | |- no_panic (if ?b then _ else _) => destruct b
    | |- preserves _ (match ?x with _ => _ end) => destruct x
    | |- no_panic (match ?x with _ => _ end) => destruct x
    | |- _ => solve [eauto with frame typeclass_instances]
    end).

(** ** Provider calls touch only the provider and the call log *)

Lemma record_call_store c : preserves same_store (record_call c).
Proof. intros w. repeat split. Qed.

Lemma upd_prov_store f : preserves same_store (Bunny.upd_prov f).
Proof. intros w. repeat split. Qed.

Lemma fresh_id_store : preserves same_store Bunny.fresh_id.
Proof. intros w. repeat split. Qed.

Lemma record_call_no_panic c : no_panic (record_call c).
Proof. intros w. discriminate. Qed.

Lemma upd_prov_no_panic f : no_panic (Bunny.upd_prov f).
Proof. intros w. discriminate. Qed.

Lemma fresh_id_no_panic : no_panic Bunny.fresh_id.
Proof. intros w. discriminate. Qed.

#[global] Hint Resolve record_call_store upd_prov_store fresh_id_store
  record_call_no_panic upd_prov_no_panic fresh_id_no_panic : frame.

Ltac bunny_frame := intros; unfold Bunny.not_found in *; frame_walk.

Lemma GetDNSZone_store d : preserves same_store (Bunny.GetDNSZone d).
Proof. unfold Bunny.GetDNSZone. bunny_frame. Qed.
Lemma CreateDNSZone_store d e : preserves same_store (Bunny.CreateDNSZone d e).
Proof. unfold Bunny.CreateDNSZone. bunny_frame. Qed.
Lemma GetDNSRecords_store z : preserves same_store (Bunny.GetDNSRecords z).
Proof. unfold Bunny.GetDNSRecords. bunny_frame. Qed.
Lemma AddDNSRecord_store z r : preserves same_store (Bunny.AddDNSRecord z r).
Proof. unfold Bunny.AddDNSRecord. bunny_frame. Qed.
Lemma UpdateDNSRecord_store z i r : preserves same_store (Bunny.UpdateDNSRecord z i r).
Proof. unfold Bunny.UpdateDNSRecord. bunny_frame. Qed.
Lemma ListPullZones_store : preserves same_store Bunny.ListPullZones.
Proof. unfold Bunny.ListPullZones. bunny_frame. Qed.
#[global] Hint Resolve ListPullZones_store : frame.
Lemma GetPullZoneByName_store n : preserves same_store (Bunny.GetPullZoneByName n).
Proof. unfold Bunny.GetPullZoneByName. bunny_frame. Qed.
Lemma CreatePullZone_store d o : preserves same_store (Bunny.CreatePullZone d o).
Proof. unfold Bunny.CreatePullZone. bunny_frame. Qed.
Lemma AddPullZoneHostname_store z h : preserves same_store (Bunny.AddPullZoneHostname z h).
Proof. unfold Bunny.AddPullZoneHostname. bunny_frame. Qed.
Lemma GetPullZone_store z : preserves same_store (Bunny.GetPullZone z).
Proof. unfold Bunny.GetPullZone. bunny_frame. Qed.
Lemma DeleteDNSZone_store z : preserves same_store (Bunny.DeleteDNSZone z).
Proof. unfold Bunny.DeleteDNSZone. bunny_frame. Qed.
Lemma DeletePullZone_store z : preserves same_store (Bunny.DeletePullZone z).
Proof. unfold Bunny.DeletePullZone. bunny_frame. Qed.

#[global] Hint Resolve GetDNSZone_store CreateDNSZone_store GetDNSRecords_store
  AddDNSRecord_store UpdateDNSRecord_store GetPullZoneByName_store
  CreatePullZone_store AddPullZoneHostname_store GetPullZone_store
  DeleteDNSZone_store DeletePullZone_store : frame.

Lemma GetDNSZone_no_panic d : no_panic (Bunny.GetDNSZone d).
Proof. unfold Bunny.GetDNSZone. bunny_frame. Qed.
Lemma GetDNSRecords_no_panic z : no_panic (Bunny.GetDNSRecords z).
Proof. unfold Bunny.GetDNSRecords. bunny_frame. Qed.
Lemma ListPullZones_no_panic : no_panic Bunny.ListPullZones.
Proof. unfold Bunny.ListPullZones. bunny_frame. Qed.
#[global] Hint Resolve ListPullZones_no_panic : frame.
Lemma GetPullZoneByName_no_panic n : no_panic (Bunny.GetPullZoneByName n).
Proof. unfold Bunny.GetPullZoneByName. bunny_frame. Qed.
Lemma GetPullZone_no_panic z : no_panic (Bunny.GetPullZone z).
Proof. unfold Bunny.GetPullZone. bunny_frame. Qed.
Lemma DeleteDNSZone_no_panic z : no_panic (Bunny.DeleteDNSZone z).
Proof. unfold Bunny.DeleteDNSZone. bunny_frame. Qed.
Lemma DeletePullZone_no_panic z : no_panic (Bunny.DeletePullZone z).
Proof. unfold Bunny.DeletePullZone. bunny_frame. Qed.

#[global] Hint Resolve GetDNSZone_no_panic GetDNSRecords_no_panic GetPullZoneByName_no_panic
  GetPullZone_no_panic DeleteDNSZone_no_panic DeletePullZone_no_panic : frame.

(** ** Inverting a successful run *)

Lemma bind_ok {A B} (m : M A) (k : A -> M B) w b w'' :
  bind m k w = (ROk b, w'') -> exists a w', m w = (ROk a, w') /\ k a w' = (ROk b, w'').
Proof.
  unfold bind. destruct (m w) as [[a|e|] w1]; intros H; try discriminate.
  eauto.
Qed.

Lemma bind_store_ok {A B} (m : M A) (k : A -> M B) w b w'' :
  preserves same_store m ->
  bind m k w = (ROk b, w'') -> exists a w', same_store w w' /\ k a w' = (ROk b, w'').
Proof.
  intros Hp H. apply bind_ok in H as (a & w1 & Hm & Hk).
  exists a, w1. split; [ | exact Hk]. specialize (Hp w). rewrite Hm in Hp. exact Hp.
Qed.

Lemma try_ok {A} (m : M A) w x w' :
  try m w = (ROk x, w') ->
  (exists a, x = inl a /\ m w = (ROk a, w')) \/ (exists e, x = inr e /\ m w = (RErr e, w')).
Proof.
  unfold try. destruct (m w) as [[a|e|] w1]; intros H; inversion H; subst; eauto.
Qed.

Lemma wrap_ok {A} s (m : M A) w a w' : wrap s m w = (ROk a, w') -> m w = (ROk a, w').
Proof. unfold wrap. destruct (m w) as [[b|e|] w1]; intros H; inversion H; reflexivity. Qed.

Lemma deref_ok p w r w' : deref p w = (ROk r, w') -> w.(heap) !! p = Some r /\ w' = w.
Proof. unfold deref. destruct (heap w !! p); intros H; inversion H; auto. Qed.

Lemma id_of_ok p w i w' :
  id_of p w = (ROk i, w') -> exists r, w.(heap) !! p = Some r /\ i = r.(ID) /\ w' = w.
Proof.
  unfold id_of. intros H. apply bind_ok in H as (r & w1 & Hd & Hr).
  apply deref_ok in Hd as [Hp ->]. inversion Hr; subst. eauto.
Qed.

Lemma assign_ok p f w w' :
  assign p f w = (ROk tt, w') ->
  exists r, w.(heap) !! p = Some r /\ w' = with_heap (<[p := f r]> w.(heap)) w.
Proof.
  unfold assign. intros H. apply bind_ok in H as (r & w1 & Hd & Hs).
  apply deref_ok in Hd as [Hp ->]. inversion Hs; subst. eauto.
Qed.

Lemma lookup_id_ok i w p w' :
  Manager.lookup_id i w = (ROk p, w') -> w.(states) !! i = Some p /\ w' = w.
Proof. unfold Manager.lookup_id. destruct (states w !! i); intros H; inversion H; auto. Qed.

Lemma save_spec w :
  exists f, same_mem w (snd (Manager.save w))
    /\ (snd (Manager.save w)).(fslog) = (w.(fslog) ++ save_actions f (records_of w))%list
    /\ (snd (Manager.save w)).(disk) = apply_all w.(disk) (save_actions f (records_of w))
    /\ (fst (Manager.save w) = ROk tt <-> f = SaveOK)
    /\ (f = SaveOK -> (snd (Manager.save w)).(faults) = tail w.(faults)
                      /\ (w.(faults) = [] \/ head w.(faults) = Some SaveOK))
    /\ (head w.(faults) = Some SaveOK \/ w.(faults) = [] -> f = SaveOK).
Proof.
  unfold Manager.save. destruct (faults w) as [|f fs] eqn:Ef; simpl.
  - exists SaveOK. split; [repeat split | ]. split; [reflexivity | ].
    split; [reflexivity | ]. split; [tauto | ]. split; auto.
  - exists f. split; [repeat split | ]. split; [reflexivity | ].
    split; [reflexivity | ].
    destruct f;
      (split; [split; intros H; try discriminate; reflexivity | ]);
      (split; [intros H; try discriminate; auto | ]);
      intros [H|H]; try discriminate; reflexivity.
Qed.

Lemma save_or_fail_mem w r w' :
  Manager.save_or_fail w = (r, w') -> same_mem w w'.
Proof.
  unfold Manager.save_or_fail, bind, try.
  destruct (save_spec w) as (f & Hm & _).
  destruct (Manager.save w) as [[[]|e|] w1]; simpl in *; intros H; inversion H; subst; exact Hm.
Qed.

Lemma mutate_ok i f w w' :
  Manager.mutate i f w = (ROk tt, w') ->
  exists p r, w.(states) !! i = Some p /\ w.(heap) !! p = Some r
    /\ w'.(heap) = <[p := f w.(now) r]> w.(heap) /\ w'.(states) = w.(states)
    /\ w'.(domainIndex) = w.(domainIndex) /\ w'.(now) = w.(now).
Proof.
  unfold Manager.mutate. intros H.
  apply bind_ok in H as (p & w1 & Hl & H). apply lookup_id_ok in Hl as [Hs ->].
  apply bind_ok in H as (t & w2 & Ht & H). inversion Ht; subst.
  apply bind_ok in H as ([] & w3 & Ha & H). apply assign_ok in Ha as (r & Hr & ->).
  apply save_or_fail_mem in H as (Hh & _ & Hst & Hd & _ & Hn & _).
  exists p, r. simpl in *. repeat split; auto.
Qed.

Lemma Update_ok p w w' :
  Manager.Update p w = (ROk tt, w') ->
  exists r e er, w.(heap) !! p = Some r /\ w.(states) !! r.(ID) = Some e
    /\ w.(heap) !! e = Some er
    /\ w'.(heap) = <[p := set_UpdatedAt w.(now) (set_CreatedAt er.(CreatedAt) r)]> w.(heap)
    /\ w'.(states) = <[r.(ID) := p]> w.(states)
    /\ w'.(now) = w.(now).
Proof.
  unfold Manager.Update. intros H.
  apply bind_ok in H as (r & w1 & Hd & H). apply deref_ok in Hd as [Hr ->].
  apply bind_ok in H as (e & w2 & Hl & H). apply lookup_id_ok in Hl as [He ->].
  apply bind_ok in H as (er & w3 & Hd & H). apply deref_ok in Hd as [Her ->].
  apply bind_ok in H as (t & w4 & Ht & H). inversion Ht; subst.
  apply bind_ok in H as ([] & w5 & Hs & H). inversion Hs; subst.
  apply bind_ok in H as ([] & w6 & Hm & H). inversion Hm; subst.
  apply save_or_fail_mem in H as (Hh & _ & Hst & _ & _ & Hn & _).
  exists r, e, er. simpl in *. repeat split; auto.
Qed.

Lemma IncrementStep_ok i w w' :
  Manager.IncrementStep i w = (ROk tt, w') ->
  exists p r, w.(states) !! i = Some p /\ w.(heap) !! p = Some r
    /\ w'.(heap) = <[p := set_UpdatedAt w.(now) (set_CurrentStep (r.(CurrentStep) + 1) r)]> w.(heap)
    /\ w'.(states) = w.(states).
Proof.
  unfold Manager.IncrementStep. intros H.
  apply mutate_ok in H as (p & r & Hs & Hr & Hh & Hst & _). eauto 6.
Qed.

Lemma stored_same_store i w w' : same_store w w' -> stored i w' = stored i w.
Proof. intros (Hh & _ & Hs & _). unfold stored. rewrite Hh, Hs. reflexivity. Qed.

(** The tail every domain step ends with: store the pipeline's record,
    then bump the step of the stored one. *)
Lemma update_then_increment p w w' r :
  w.(heap) !! p = Some r ->
  (Manager.Update p ;;; i <- id_of p ;; Manager.IncrementStep i) w = (ROk tt, w') ->
  stored_step r.(ID) w' = Some (r.(CurrentStep) + 1) /\ w'.(states) !! r.(ID) = Some p.
Proof.
  intros Hp H.
  apply bind_ok in H as ([] & w1 & Hu & H).
  apply Update_ok in Hu as (r0 & e & er & Hp0 & He & Her & Hh1 & Hs1 & Hn1).
  rewrite Hp in Hp0. injection Hp0 as <-.
  apply bind_ok in H as (i & w2 & Hi & H). apply id_of_ok in Hi as (r1 & Hr1 & -> & ->).
  rewrite Hh1, lookup_insert_eq in Hr1. injection Hr1 as <-.
  apply IncrementStep_ok in H as (q & rq & Hq & Hrq & Hh2 & Hs2).
  rewrite Hs1 in Hq. cbn [ID set_UpdatedAt set_CreatedAt] in Hq.
  rewrite lookup_insert_eq in Hq. injection Hq as <-.
  rewrite Hh1, lookup_insert_eq in Hrq. injection Hrq as <-.
  unfold stored_step, stored. rewrite Hs2, Hs1, lookup_insert_eq. simpl.
  rewrite Hh2, lookup_insert_eq. simpl. split; reflexivity.
Qed.

(** Transport facts about the manager across provider calls. *)
Ltac store_transport Hs :=
  let Hh := fresh "Hh" in let Hst := fresh "Hst" in
  pose proof Hs as (Hh & _ & Hst & _);
  lazymatch type of Hh with
  | heap ?w1 = heap ?w0 =>
      repeat match goal with
             | H : stored ?i w0 = _ |- _ => rewrite <- (stored_same_store i w0 w1 Hs) in H
             | H : context [heap w0] |- _ =>
                 tryif constr_eq H Hh then fail else rewrite <- Hh in H
             | H : context [states w0] |- _ =>
                 tryif constr_eq H Hst then fail else rewrite <- Hst in H
             end
  end; clear Hh Hst Hs.

Lemma assign_then {B} p f (k : M B) w r b w' :
  w.(heap) !! p = Some r ->
  (assign p f ;;; k) w = (ROk b, w') ->
  k (with_heap (<[p := f r]> w.(heap)) w) = (ROk b, w')
  /\ (with_heap (<[p := f r]> w.(heap)) w).(heap) !! p = Some (f r).
Proof.
  intros Hp H. apply bind_ok in H as ([] & w1 & Ha & H).
  apply assign_ok in Ha as (r0 & Hr0 & ->). rewrite Hp in Hr0. injection Hr0 as <-.
  split; [exact H | apply lookup_insert_eq].
Qed.

Lemma add_if_missing_store ex z req what :
  preserves same_store (DomainProvisioner.add_if_missing ex z req what).
Proof. unfold DomainProvisioner.add_if_missing. frame_walk. Qed.
#[global] Hint Resolve add_if_missing_store : frame.

(** Peel off the provider calls at the head of a successful run. *)
Ltac strip H :=
  repeat (cbv beta zeta in H;
    first
      [ let Hs := fresh "Hs" in
        apply bind_store_ok in H as (? & ? & Hs & H); [ store_transport Hs | solve [frame_walk] ]
      | match type of H with
        | (if ?b then throw _ else _) _ = _ => destruct b; [ discriminate H | ]
        end ]).

Ltac tail_of H Hp :=
  cbv beta in H;
  apply (update_then_increment _ _ _ _ Hp) in H;
  cbn [ID CurrentStep set_ZoneID set_PullZoneID set_CDNHostname] in H.

Lemma step1_advances cfg domain p w w' r :
  w.(heap) !! p = Some r ->
  DomainProvisioner.step1 cfg domain p w = (ROk tt, w') ->
  stored_step r.(ID) w' = Some (r.(CurrentStep) + 1) /\ w'.(states) !! r.(ID) = Some p.
Proof.
  intros Hp H. unfold DomainProvisioner.step1 in H. apply wrap_ok in H.
  unfold DomainProvisioner.createDNSZone in H. strip H.
  match goal with x : (DNSZone + string)%type |- _ => destruct x end.
  - apply assign_then with (r := r) in H as [H Hp1]; [ | exact Hp].
    tail_of H Hp1. exact H.
  - strip H. apply assign_then with (r := r) in H as [H Hp1]; [ | exact Hp].
    tail_of H Hp1. exact H.
Qed.

Lemma Update_then {B} p (k : M B) w r b w' :
  w.(heap) !! p = Some r ->
  (Manager.Update p ;;; k) w = (ROk b, w') ->
  exists w1 r1, k w1 = (ROk b, w') /\ w1.(heap) !! p = Some r1
    /\ r1.(ID) = r.(ID) /\ r1.(CurrentStep) = r.(CurrentStep)
    /\ w1.(states) !! r.(ID) = Some p.
Proof.
  intros Hp H. apply bind_ok in H as ([] & w1 & Hu & H).
  apply Update_ok in Hu as (r0 & e & er & Hp0 & _ & _ & Hh & Hs & _).
  rewrite Hp in Hp0. injection Hp0 as <-.
  exists w1, (set_UpdatedAt (now w) (set_CreatedAt (CreatedAt er) r)).
  rewrite Hh, Hs, !lookup_insert_eq. auto.
Qed.

Lemma Update_last p w r w' :
  w.(heap) !! p = Some r ->
  Manager.Update p w = (ROk tt, w') ->
  stored_step r.(ID) w' = Some r.(CurrentStep).
Proof.
  intros Hp Hu.
  apply Update_ok in Hu as (r0 & e & er & Hp0 & _ & _ & Hh & Hs & _).
  rewrite Hp in Hp0. injection Hp0 as <-.
  unfold stored_step, stored. rewrite Hs, lookup_insert_eq. simpl.
  rewrite Hh, lookup_insert_eq. reflexivity.
Qed.

Lemma step2_advances cfg domain p w w' r rs :
  w.(heap) !! p = Some r -> stored r.(ID) w = Some rs -> rs.(CurrentStep) = r.(CurrentStep) ->
  DomainProvisioner.step2 cfg domain p w = (ROk tt, w') ->
  stored_step r.(ID) w' = Some (r.(CurrentStep) + 1).
Proof.
  intros Hp Hst Heq H. unfold DomainProvisioner.step2 in H.
  apply bind_ok in H as (r0 & w1 & Hd & H). apply deref_ok in Hd as [Hr0 ->].
  rewrite Hp in Hr0. injection Hr0 as <-.
  apply wrap_ok in H. unfold DomainProvisioner.addDNSRecords in H. strip H.
  apply bind_ok in H as (i & w2 & Hi & H). apply id_of_ok in Hi as (r1 & Hr1 & -> & ->).
  rewrite Hp in Hr1. injection Hr1 as <-.
  apply IncrementStep_ok in H as (q & rq & Hq & Hrq & Hh & Hs).
  unfold stored in Hst. rewrite Hq in Hst. simpl in Hst. rewrite Hrq in Hst.
  injection Hst as <-.
  unfold stored_step, stored. rewrite Hs, Hq. simpl. rewrite Hh, lookup_insert_eq. simpl.
  rewrite Heq. reflexivity.
Qed.

Lemma step3_advances cfg domain p w w' r :
  w.(heap) !! p = Some r ->
  DomainProvisioner.step3 cfg domain p w = (ROk tt, w') ->
  stored_step r.(ID) w' = Some (r.(CurrentStep) + 1).
Proof.
  intros Hp H. unfold DomainProvisioner.step3 in H. apply wrap_ok in H.
  unfold DomainProvisioner.createPullZone in H. strip H.
  match goal with x : (PullZone + string)%type |- _ => destruct x end.
  - apply (assign_then _ _ _ _ _ _ _ Hp) in H as [H Hp1].
    apply (assign_then _ _ _ _ _ _ _ Hp1) in H as [H Hp2].
    tail_of H Hp2. apply H.
  - strip H.
    apply (assign_then _ _ _ _ _ _ _ Hp) in H as [H Hp1].
    apply (assign_then _ _ _ _ _ _ _ Hp1) in H as [H Hp2].
    tail_of H Hp2. apply H.
Qed.

Lemma step4_advances p w w' r :
  w.(heap) !! p = Some r ->
  DomainProvisioner.step4 p w = (ROk tt, w') ->
  stored_step r.(ID) w' = Some (r.(CurrentStep) + 1).
Proof.
  intros Hp H. unfold DomainProvisioner.step4 in H.
  apply bind_ok in H as (r0 & w1 & Hd & H). apply deref_ok in Hd as [Hr0 ->].
  rewrite Hp in Hr0. injection Hr0 as <-.
  apply wrap_ok in H. unfold DomainProvisioner.syncCDNCNAME in H. strip H.
  apply (assign_then _ _ _ _ _ _ _ Hp) in H as [H Hp1].
  tail_of H Hp1. apply H.
Qed.

Lemma findParent_sets_pull_zone cfg sub parent p w w' r :
  w.(heap) !! p = Some r ->
  SubdomainProvisioner.findParentAndCreatePullZone cfg sub parent p w = (ROk tt, w') ->
  stored_step r.(ID) w' = Some StepPullZone.
Proof.
  intros Hp H. unfold SubdomainProvisioner.findParentAndCreatePullZone in H. strip H.
  apply (assign_then _ _ _ _ _ _ _ Hp) in H as [H Hp1].
  apply (Update_then _ _ _ _ _ _ Hp1) in H as (w2 & r2 & H & Hp2 & Hid2 & _ & _).
  cbn [ID set_ZoneID] in Hid2.
  strip H.
  match goal with x : (PullZone + string)%type |- _ => destruct x end.
  - apply (assign_then _ _ _ _ _ _ _ Hp2) in H as [H Hp3].
    apply (assign_then _ _ _ _ _ _ _ Hp3) in H as [H Hp4].
    apply (Update_then _ _ _ _ _ _ Hp4) in H as (w5 & r5 & H & Hp5 & Hid5 & _ & _).
    apply (Update_then _ _ _ _ _ _ Hp5) in H as (w6 & r6 & H & Hp6 & Hid6 & _ & Hs6).
    apply assign_ok in H as (r7 & Hr7 & ->). rewrite Hp6 in Hr7. injection Hr7 as <-.
    cbn [ID set_PullZoneID set_CDNHostname] in Hid5.
    rewrite Hid5, Hid2 in Hs6.
    unfold stored_step, stored. cbn [states heap with_heap]. rewrite Hs6. simpl.
    rewrite lookup_insert_eq. reflexivity.
  - strip H.
    apply (assign_then _ _ _ _ _ _ _ Hp2) in H as [H Hp3].
    apply (assign_then _ _ _ _ _ _ _ Hp3) in H as [H Hp4].
    apply (assign_then _ _ _ _ _ _ _ Hp4) in H as [H Hp5].
    apply (Update_last _ _ _ _ Hp5) in H.
    cbn [ID CurrentStep set_PullZoneID set_CDNHostname set_CurrentStep] in H.
    rewrite Hid2 in H. exact H.
Qed.

Lemma addSubdomainCNAME_sets_cname_sync sub parent p w w' r :
  w.(heap) !! p = Some r ->
  SubdomainProvisioner.addSubdomainCNAME sub parent p w = (ROk tt, w') ->
  stored_step r.(ID) w' = Some StepCNAMESync.
Proof.
  intros Hp H. unfold SubdomainProvisioner.addSubdomainCNAME in H.
  apply bind_ok in H as (r0 & w1 & Hd & H). apply deref_ok in Hd as [Hr0 ->].
  rewrite Hp in Hr0. injection Hr0 as <-.
  strip H.
  apply (assign_then _ _ _ _ _ _ _ Hp) in H as [H Hp1].
  apply (Update_last _ _ _ _ Hp1) in H. exact H.
Qed.

(** ** C1: how the pipeline moves [CurrentStep] *)

(** C1 (amended).  Every step of the domain pipeline that succeeds moves
    the stored record's [CurrentStep] to its previous value plus one: step 1
    from any copy of the record, steps 2 to 4 when the pipeline's copy and
    the stored record agree on the step, as they do on a fresh run.  The
    subdomain variant assigns the step instead of incrementing it: after
    [findParentAndCreatePullZone] the stored step is 3 and after
    [addSubdomainCNAME] it is 4, whatever it was before. *)
Theorem pipeline_step_moves :
  (forall cfg domain p w w' r rs,
     w.(heap) !! p = Some r -> stored r.(ID) w = Some rs ->
     rs.(CurrentStep) = r.(CurrentStep) ->
     (DomainProvisioner.step1 cfg domain p w = (ROk tt, w')
      \/ DomainProvisioner.step2 cfg domain p w = (ROk tt, w')
      \/ DomainProvisioner.step3 cfg domain p w = (ROk tt, w')
      \/ DomainProvisioner.step4 p w = (ROk tt, w')) ->
     stored_step r.(ID) w' = Some (rs.(CurrentStep) + 1))
  /\ (forall cfg sub parent p w w' r,
        w.(heap) !! p = Some r ->
        SubdomainProvisioner.findParentAndCreatePullZone cfg sub parent p w = (ROk tt, w') ->
        stored_step r.(ID) w' = Some StepPullZone)
  /\ (forall sub parent p w w' r,
        w.(heap) !! p = Some r ->
        SubdomainProvisioner.addSubdomainCNAME sub parent p w = (ROk tt, w') ->
        stored_step r.(ID) w' = Some StepCNAMESync).
Proof.
  split; [ | split].
  - intros cfg domain p w w' r rs Hp Hst Heq [H | [H | [H | H]]]; rewrite Heq.
    + exact (proj1 (step1_advances _ _ _ _ _ _ Hp H)).
    + exact (step2_advances _ _ _ _ _ _ _ Hp Hst Heq H).
    + exact (step3_advances _ _ _ _ _ _ Hp H).
    + exact (step4_advances _ _ _ _ Hp H).
  - exact findParent_sets_pull_zone.
  - exact addSubdomainCNAME_sets_cname_sync.
Qed.

Lemma pipeline_step_moves_witness :
  stored_step "id1" (snd (DomainProvisioner.step1 demo_cfg "example.com" 1%nat
                            (fresh_copy "example.com" demo_world))) = Some 1
  /\ stored_step "id1" (snd (SubdomainProvisioner.findParentAndCreatePullZone demo_cfg
                            "blog" "example.com" 1%nat (fresh_copy "blog.example.com" demo_parent_world)))
     = Some 3.
Proof.
  destruct pipeline_step_moves as (Hd & Hs & _). split.
  - apply (Hd demo_cfg "example.com" 1%nat (fresh_copy "example.com" demo_world) _
              (demo_rec "example.com") (demo_rec "example.com")).
    + vm_compute. reflexivity.
    + vm_compute. reflexivity.
    + reflexivity.
    + left. vm_compute. reflexivity.
  - apply (Hs demo_cfg "blog" "example.com" 1%nat (fresh_copy "blog.example.com" demo_parent_world) _
              (demo_rec "blog.example.com")).
    + vm_compute. reflexivity.
    + vm_compute. reflexivity.
Defined.

(** C1 counterexample: on a fresh subdomain record (stored step 0) one
    successful call of [findParentAndCreatePullZone] leaves the stored
    step at 3. *)
Lemma subdomain_step_jumps_to_pull_zone :
  stored_step "id1" (fresh_copy "blog.example.com" demo_parent_world) = Some 0
  /\ fst (SubdomainProvisioner.findParentAndCreatePullZone demo_cfg "blog" "example.com" 1%nat
            (fresh_copy "blog.example.com" demo_parent_world)) = ROk tt
  /\ stored_step "id1" (snd (SubdomainProvisioner.findParentAndCreatePullZone demo_cfg
            "blog" "example.com" 1%nat (fresh_copy "blog.example.com" demo_parent_world))) = Some 3.
Proof. vm_compute. repeat split. Qed.

(** ** C2: saves replace the state file in one rename *)

#[global] Instance same_disk_preorder : PreOrder same_disk.
Proof.
  split.
  - intros w. split; reflexivity.
  - intros w1 w2 w3 [D1 L1] [D2 L2]. split; congruence.
Qed.

Lemma deref_disk p : preserves same_disk (deref p).
Proof. intros w. unfold deref. destruct (heap w !! p); split; reflexivity. Qed.
Lemma store_disk p r : preserves same_disk (store p r).
Proof. intros w. split; reflexivity. Qed.
Lemma alloc_disk r : preserves same_disk (alloc r).
Proof. intros w. split; reflexivity. Qed.
Lemma assign_disk p f : preserves same_disk (assign p f).
Proof. unfold assign. apply preserves_bind; [exact _ | apply deref_disk | intros; apply store_disk]. Qed.
Lemma lookup_id_disk i : preserves same_disk (Manager.lookup_id i).
Proof. intros w. unfold Manager.lookup_id. destruct (states w !! i); split; reflexivity. Qed.
Lemma new_uuid_disk : preserves same_disk Manager.new_uuid.
Proof. intros w. unfold Manager.new_uuid. destruct (uuids w); split; reflexivity. Qed.

#[global] Hint Resolve deref_disk store_disk alloc_disk assign_disk lookup_id_disk
  new_uuid_disk : frame.
#[global] Hint Extern 1 (preserves same_disk (modify _)) =>
  let w := fresh "w" in intros w; split; reflexivity : frame.
#[global] Hint Extern 1 (preserves same_disk (fun _ => _)) =>
  let w := fresh "w" in intros w; cbv beta; repeat case_match; split; reflexivity : frame.

Lemma saves_once_refl w : saves_once w w.
Proof. left. split; reflexivity. Qed.

Lemma saves_at_end_bind {A B} (m : M A) (k : A -> M B) :
  preserves same_disk m -> (forall a, saves_at_end (k a)) -> saves_at_end (bind m k).
Proof.
  intros Hm Hk w. specialize (Hm w). unfold bind.
  destruct (m w) as [[a|e|] w1]; simpl in *; [ | left; exact Hm | left; exact Hm].
  destruct (Hk a w1) as [[D L] | (f & L & D)]; destruct Hm as [D0 L0].
  - left. split; congruence.
  - right. exists f. rewrite L, D, D0, L0. split; reflexivity.
Qed.

Lemma saves_at_end_then_ret {A B} (m : M A) (f : A -> B) :
  saves_at_end m -> saves_at_end (bind m (fun a => ret (f a))).
Proof.
  intros Hm w. specialize (Hm w). unfold bind.
  destruct (m w) as [[a|e|] w1]; exact Hm.
Qed.

Lemma saves_at_end_save : saves_at_end Manager.save.
Proof.
  intros w. right. destruct (save_spec w) as (f & Hm & L & D & _).
  assert (records_of (snd (Manager.save w)) = records_of w) as ->.
  { destruct Hm as (Hh & _ & Hs & _). unfold records_of. rewrite Hh, Hs. reflexivity. }
  exists f. split; assumption.
Qed.

Lemma saves_at_end_try_save : saves_at_end (try Manager.save).
Proof.
  intros w. pose proof (saves_at_end_save w) as H. unfold try.
  destruct (Manager.save w) as [[a|e|] w1]; exact H.
Qed.

Lemma saves_at_end_save_or_fail : saves_at_end Manager.save_or_fail.
Proof.
  intros w. pose proof (saves_at_end_try_save w) as H. unfold Manager.save_or_fail, bind.
  destruct (try Manager.save w) as [[[a|e]|e|] w1]; exact H.
Qed.

Ltac saves_walk :=
  repeat (cbv beta zeta;
    match goal with
    | |- saves_at_end Manager.save_or_fail => apply saves_at_end_save_or_fail
    | |- saves_at_end (bind (try Manager.save) (fun _ => ret _)) =>
        apply (saves_at_end_then_ret _ (fun _ => _)), saves_at_end_try_save
    | |- saves_at_end (bind _ _) => apply saves_at_end_bind; [ solve [frame_walk] | intros ? ]
    | |- saves_at_end (match ?x with _ => _ end) => destruct x
    end).

Lemma run_op_saves_at_end o : saves_at_end (run_op o).
Proof.
  destruct o; cbn [run_op].
  - apply (saves_at_end_then_ret _ (fun _ => tt)). unfold Manager.Create. saves_walk.
  - unfold Manager.Update. saves_walk.
  - unfold Manager.Delete. saves_walk.
  - unfold Manager.IncrementStep, Manager.mutate. saves_walk.
  - unfold Manager.SetError, Manager.mutate. saves_walk.
  - unfold Manager.MarkSuccess, Manager.mutate. saves_walk.
  - unfold Manager.MarkProvisioning, Manager.mutate. saves_walk.
  - unfold Manager.Clear. saves_walk.
Qed.

(** A crash in the middle of a save leaves [<path>] as it was or as the
    save meant it: the rename is the only action that touches it. *)
Lemma crash_during_save d f data k :
  (crash_after d (save_actions f data) k).(real) = d.(real)
  \/ (crash_after d (save_actions f data) k).(real) = Some (Full data).
Proof.
  unfold crash_after.
  destruct f; destruct k as [|[|[|k]]]; simpl; rewrite ?firstn_nil; simpl; auto.
Qed.

(** C2. Every mutation of the store (Create, Update, Delete,
    IncrementStep, SetError, MarkSuccess, MarkProvisioning, Clear) changes
    the state file only through one [save]: the file-system actions it
    performs are either none or [save_actions f] of the full record set the
    store holds afterwards (write [<path>.tmp], then rename it over
    [<path>]). A process crash after any prefix of those actions leaves
    [<path>] holding either what it held before the mutation or the
    complete post-mutation record set, never a torn file; when the file was
    in sync before, reopening it reads the pre- or the post-mutation record
    set. The model is a process crash: os.WriteFile does no fsync, and
    durability across power loss is outside the model. *)
Theorem run_op_atomic_save (o : MgrOp) (w : World) :
  let w' := snd (run_op o w) in
  exists acts,
    w'.(fslog) = (w.(fslog) ++ acts)%list
    /\ w'.(disk) = apply_all w.(disk) acts
    /\ (acts = [] \/ exists f, acts = save_actions f (records_of w'))
    /\ forall k,
         (crash_after w.(disk) acts k).(real) = w.(disk).(real)
         \/ (crash_after w.(disk) acts k).(real) = Some (Full (records_of w')).
Proof.
  intros w'. destruct (run_op_saves_at_end o w) as [[D L] | (f & L & D)].
  - exists []. rewrite app_nil_r. split; [exact L | split; [exact D | split]].
    + left. reflexivity.
    + intros k. left. unfold crash_after. rewrite firstn_nil. reflexivity.
  - exists (save_actions f (records_of w')).
    split; [exact L | split; [exact D | split]].
    + right. exists f. reflexivity.
    + intros k. apply crash_during_save.
Qed.

(** ** C3: restart after a crash in the middle of the pipeline *)

Lemma load_records_heap (P : ProvisionState -> Prop) l w :
  (forall p r, w.(heap) !! p = Some r -> P r) -> Forall P l ->
  forall p r, (load_records l w).(heap) !! p = Some r -> P r.
Proof.
  revert w. induction l as [|r0 l IH]; intros w Hw Hl; simpl; [exact Hw | ].
  inversion Hl as [|? ? Hr0 Hrest]; subst.
  apply IH; [ | exact Hrest]. cbn. intros p r Hp.
  destruct (decide (p = nextLoc w)) as [->|Hne].
  - rewrite lookup_insert_eq in Hp. injection Hp as <-. exact Hr0.
  - rewrite lookup_insert_ne in Hp by congruence. eapply Hw; eauto.
Qed.

Lemma records_of_heap (P : ProvisionState -> Prop) w :
  (forall p r, w.(heap) !! p = Some r -> P r) -> Forall P (records_of w).
Proof.
  intros Hw. apply Forall_forall. intros x Hx.
  unfold records_of in Hx. apply list_elem_of_omap in Hx as ([i p] & _ & Hp).
  eapply Hw; exact Hp.
Qed.

Lemma filter_none {A} (P : A -> Prop) `{!forall x, Decision (P x)} (l : list A) :
  Forall (fun x => ~ P x) l -> filter P l = [].
Proof.
  induction 1 as [|x l Hx _ IH]; [reflexivity | ].
  rewrite filter_cons. case_decide; [contradiction | exact IH].
Qed.

(** C3 (code bug). After a restart whose state file holds only records in
    status provisioning, which is the status [Provisioner.Provision] gives
    a record (MarkProvisioning) before its first step and keeps through
    every checkpoint, [recoverPendingProvisions] does nothing: it returns
    with the world unchanged, so no provider call is made (in particular no
    getPullZoneByName) and the record never reaches success. The reason is
    that [Manager.Recover] selects only pending records and failed records
    with fewer than 5 retries. *)
Theorem recovery_skips_checkpointed_record cfg d pv us t l w :
  restart d pv us t = Some w ->
  d.(real) = Some (Full l) ->
  Forall (fun r => r.(Status) = StatusProvisioning) l ->
  recoverPendingProvisions cfg w = (ROk tt, w).
Proof.
  intros Hw Hd Hl. unfold restart in Hw. rewrite Hd in Hw. injection Hw as <-.
  set (w := load_records l _).
  assert (Hrec : Forall (fun r => r.(Status) = StatusProvisioning) (records_of w)).
  { apply records_of_heap. eapply load_records_heap; [ | exact Hl].
    intros p r Hp. cbn in Hp. rewrite lookup_empty in Hp. discriminate. }
  unfold recoverPendingProvisions, Manager.Recover, bind, gets. cbn.
  rewrite filter_none; [reflexivity | ].
  eapply Forall_impl; [exact Hrec | ]. intros r Hr. unfold Manager.recover_pred.
  rewrite Hr. cbn. discriminate.
Qed.

Lemma recovery_skips_checkpointed_record_witness :
  exists w, restart crashed_disk crashed_prov [] 200 = Some w
            /\ recoverPendingProvisions demo_cfg w = (ROk tt, w).
Proof.
  eexists. split; [reflexivity | ].
  apply (recovery_skips_checkpointed_record demo_cfg crashed_disk crashed_prov [] 200
           [crashed_rec]); [reflexivity | reflexivity | repeat constructor].
Defined.

(** ** C4: short-circuit on an already provisioned domain *)

(** C4. If [GetByDomain domain] finds a record whose status is success,
    [Provisioner.Provision] returns nil at once, and the only effect is
    the fresh copy [GetByDomain] allocates. No provider request is made and
    no notification is sent. The states map, the domain index, the state
    file and the provider account are left as they were. So replaying the
    webhook creates no second state record and no second provider
    resource. *)
Theorem provision_skips_success cfg domain user w id q r :
  w.(domainIndex) !! domain = Some id ->
  w.(states) !! id = Some q ->
  w.(heap) !! q = Some r ->
  r.(Status) = StatusSuccess ->
  Provisioner.Provision cfg domain user w
  = (ROk tt, with_nextLoc (S w.(nextLoc)) (with_heap (<[w.(nextLoc) := r]> w.(heap)) w)).
Proof.
  intros Hd Hs Hh Hst.
  unfold Provisioner.Provision, Manager.GetByDomain, Manager.Get, Manager.lookup_id,
    bind, try, deref, alloc, ret.
  rewrite Hd. cbn. rewrite Hs, Hh. cbn. rewrite lookup_insert_eq, Hst. reflexivity.
Qed.

Lemma provision_skips_success_witness :
  Provisioner.Provision demo_cfg "example.com" "bob" done_world
  = (ROk tt, with_nextLoc (S done_world.(nextLoc))
               (with_heap (<[done_world.(nextLoc) := set_UpdatedAt 100 (set_Error ""
                              (set_CurrentStep StepCNAMESync
                                 (set_Status StatusSuccess (demo_rec "example.com"))))]>
                  done_world.(heap)) done_world)).
Proof.
  apply (provision_skips_success demo_cfg "example.com" "bob" done_world "id1" 0%nat);
    reflexivity.
Defined.

(** ** C5: which records recovery picks up *)

(** C5. [Manager.Recover] returns (copies of) exactly the stored records
    whose status is pending or whose status is failed with fewer than 5
    retries, and changes nothing. The recovery loop of
    [Provisioner.Recover] behaves, on any list and in any world, exactly as
    it would on the sub-list of records with fewer than 5 retries, and on
    that sub-list it runs [Provision] once per record. So a record with 5
    or more retries is never re-provisioned automatically. *)
Theorem recover_selection cfg w :
  Manager.Recover w
  = (ROk (filter (fun r => r.(Status) = StatusPending
                           \/ (r.(Status) = StatusFailed /\ r.(Retries) < 5))
            (records_of w)), w)
  /\ (forall sts w0, Provisioner.recover_loop cfg sts w0
                     = Provisioner.recover_loop cfg (filter (fun r => r.(Retries) < 5) sts) w0)
  /\ (forall st rest w0, st.(Retries) < 5 ->
        Provisioner.recover_loop cfg (st :: rest) w0
        = (_ <- try (Provisioner.Provision cfg st.(Domain) "") ;;
           Provisioner.recover_loop cfg rest) w0).
Proof.
  split; [ | split].
  - unfold Manager.Recover, gets. f_equal. f_equal.
    apply list_filter_iff. intros r. unfold Manager.recover_pred.
    rewrite orb_true_iff, andb_true_iff, !String.eqb_eq, Z.ltb_lt. reflexivity.
  - intros sts. induction sts as [|st rest IH]; intros w0; [reflexivity | ].
    rewrite filter_cons. cbn [Provisioner.recover_loop].
    destruct (Z.leb_spec 5 st.(Retries)) as [Hge|Hlt].
    + rewrite decide_False by lia. unfold bind, ret. apply IH.
    + rewrite decide_True by lia. cbn [Provisioner.recover_loop].
      rewrite (proj2 (Z.leb_gt 5 _) Hlt). unfold bind.
      destruct (try _ w0) as [[a|e|] w1]; [apply IH | reflexivity | reflexivity].
  - intros st rest w0 Hlt. cbn [Provisioner.recover_loop].
    rewrite (proj2 (Z.leb_gt 5 _) Hlt). unfold bind, ret.
    destruct (try _ w0) as [[a|e|] w1]; reflexivity.
Qed.

(** ** C6: the webhook signature check *)

Lemma xor_acc_zero x y acc :
  length x = length y ->
  Webhook.xor_acc x y acc = 0%N <-> acc = 0%N /\ x = y.
Proof.
  revert y acc. induction x as [|a x IH]; intros [|b y] acc Hl; try discriminate; cbn.
  - split; [intros ->; split; reflexivity | intros [-> _]; reflexivity].
  - injection Hl as Hl. rewrite IH by exact Hl.
    rewrite N.lor_eq_0_iff, N.lxor_eq_0_iff. split.
    + intros [[-> Hab] ->]. split; [reflexivity | ].
      f_equal. apply (f_equal Byte.of_N) in Hab. rewrite !Byte.of_to_N in Hab.
      congruence.
    + intros [-> Hab]. injection Hab as -> ->. repeat split.
Qed.

Lemma Equal_iff x y : Webhook.Equal x y = true <-> x = y.
Proof.
  unfold Webhook.Equal. rewrite andb_true_iff, Nat.eqb_eq, N.eqb_eq. split.
  - intros [Hl Hx]. apply (xor_acc_zero x y 0%N Hl) in Hx. apply Hx.
  - intros ->. split; [reflexivity | ]. apply xor_acc_zero; auto.
Qed.

Lemma bytes_of_string_inj s t :
  Webhook.bytes_of_string s = Webhook.bytes_of_string t -> s = t.
Proof.
  revert t. induction s as [|c s IH]; intros [|d t]; cbn; try discriminate; [reflexivity | ].
  intros H. injection H as Hcd Hst. f_equal; [ | apply IH, Hst].
  rewrite <- (ascii_of_byte_of_ascii c), <- (ascii_of_byte_of_ascii d), Hcd. reflexivity.
Qed.

Lemma EncodeToString_nonempty b bs : Webhook.EncodeToString (b :: bs) <> "".
Proof. cbn. discriminate. Qed.

(** C6. Take HMAC-SHA256 to be any function whose digests are 32 bytes.
    A signature [s] passes [verifySignature] on the exact body bytes iff
    [s] is the lowercase hex encoding of the digest of the body under the
    configured secret. The comparison is [hmac.Equal] on the two strings'
    bytes, and an empty (missing) header always fails. For a POST request
    whose body was read, the handler answers 401 exactly when the header
    is not that hex string. It then starts no goroutine, so no pipeline
    runs and no state record is created. *)
Theorem signature_gate hmac json secret body s :
  length (hmac (Webhook.bytes_of_string secret) body) = 32%nat ->
  (Webhook.verifySignature hmac secret body s = true
   <-> s = Webhook.EncodeToString (hmac (Webhook.bytes_of_string secret) body))
  /\ (forall r, r.(Webhook.Method) = "POST" -> r.(Webhook.Body) = Some body ->
        r.(Webhook.SignatureHdr) = s ->
        (Webhook.StatusCode (Webhook.ServeHTTP hmac json secret r) = 401
         <-> s <> Webhook.EncodeToString (hmac (Webhook.bytes_of_string secret) body))
        /\ (s <> Webhook.EncodeToString (hmac (Webhook.bytes_of_string secret) body) ->
            Webhook.ServeHTTP hmac json secret r = Webhook.mkResp 401 None)).
Proof.
  intros Hlen.
  set (mac := hmac (Webhook.bytes_of_string secret) body) in *.
  assert (Hne : Webhook.EncodeToString mac <> "").
  { destruct mac as [|b bs]; [discriminate | apply EncodeToString_nonempty]. }
  assert (Hv : Webhook.verifySignature hmac secret body s = true <-> s = Webhook.EncodeToString mac).
  { unfold Webhook.verifySignature. fold mac.
    destruct (String.eqb_spec s "") as [->|Hs].
    - split; [discriminate | intros H; exfalso; apply Hne; symmetry; exact H].
    - rewrite Equal_iff. split; [apply bytes_of_string_inj | intros ->; reflexivity]. }
  split; [exact Hv | ].
  intros r HM HB HS.
  unfold Webhook.ServeHTTP. rewrite HM, HB, HS. cbn.
  destruct (Webhook.verifySignature hmac secret body s) eqn:Ev; cbn.
  - assert (Hs : s = Webhook.EncodeToString mac) by (apply Hv; reflexivity).
    split; [ | intros Hn; contradiction].
    split; [ | intros Hn; contradiction].
    repeat case_match; cbn; discriminate.
  - split; [split; [intros _ | intros _; reflexivity] | intros _; reflexivity].
    intros Hs. apply Hv in Hs. congruence.
Qed.

Lemma signature_gate_witness :
  (Webhook.verifySignature zero_mac "k" [] "00" = true
   <-> "00" = Webhook.EncodeToString (zero_mac (Webhook.bytes_of_string "k") []))
  /\ (forall r, r.(Webhook.Method) = "POST" -> r.(Webhook.Body) = Some [] ->
        r.(Webhook.SignatureHdr) = "00" ->
        (Webhook.StatusCode (Webhook.ServeHTTP zero_mac no_json "k" r) = 401
         <-> "00" <> Webhook.EncodeToString (zero_mac (Webhook.bytes_of_string "k") []))
        /\ ("00" <> Webhook.EncodeToString (zero_mac (Webhook.bytes_of_string "k") []) ->
            Webhook.ServeHTTP zero_mac no_json "k" r = Webhook.mkResp 401 None)).
Proof.
  apply (signature_gate zero_mac no_json "k" [] "00"). reflexivity.
Defined.

(** ** C7: the retry policy of the provider client *)

Lemma do_loop_attempts_le fuel cfg b n server :
  (Retry.attempts (Retry.do_loop fuel cfg b n server) <= n + fuel)%nat.
Proof.
  revert b n. induction fuel as [|fuel IH]; intros b n; cbn; [lia | ].
  destruct (Retry.retryFunc (server n)); cbn; try lia.
  destruct (Retry.Next cfg b) as [[d|] b']; cbn; [ | lia].
  specialize (IH b' (S n)). lia.
Qed.

Lemma Next_capped cfg b d b' :
  Retry.Next cfg b = (Some d, b') -> d <= cfg.(Retry.MaxBackoff).
Proof.
  unfold Retry.Next. destruct (Z.leb _ _); [discriminate | ].
  intros H. injection H as <- _.
  destruct (Z.leb_spec (Z.shiftl (Retry.InitialBackoff cfg) (Retry.exp_attempt b)) 0);
    destruct (Z.ltb_spec (Retry.MaxBackoff cfg)
                (Z.shiftl (Retry.InitialBackoff cfg) (Retry.exp_attempt b))); cbn; lia.
Qed.

Lemma do_loop_waits_capped fuel cfg b n server :
  Forall (fun d => d <= cfg.(Retry.MaxBackoff)) (Retry.waits (Retry.do_loop fuel cfg b n server)).
Proof.
  revert b n. induction fuel as [|fuel IH]; intros b n; cbn; [constructor | ].
  destruct (Retry.retryFunc (server n)); cbn; try constructor.
  destruct (Retry.Next cfg b) as [[d|] b'] eqn:En; cbn; [ | constructor].
  constructor; [eapply Next_capped; exact En | apply IH].
Qed.

(** C7 (by design). On a fresh backoff the client makes 6 attempts, not
    at most 5, against a server that always answers 503: MaxRetries = 5
    counts retries, that is delays granted after the first attempt. A 408
    answer is terminal after one attempt, since [doRequest] retries only
    429 among the 4xx statuses. *)
Lemma retry_six_attempts_408_terminal :
  Retry.attempts (Retry.doRequest (Retry.WithBackoff Retry.DefaultConfig)
                    (fun _ => Retry.Reply 503 false)) = 6%nat
  /\ Retry.final (Retry.doRequest (Retry.WithBackoff Retry.DefaultConfig)
                    (fun _ => Retry.Reply 408 false)) = Retry.Terminal 408
  /\ Retry.attempts (Retry.doRequest (Retry.WithBackoff Retry.DefaultConfig)
                    (fun _ => Retry.Reply 408 false)) = 1%nat.
Proof. vm_compute. repeat split. Qed.

Lemma retryFunc_error_reply c d :
  400 <= c ->
  Retry.retryFunc (Retry.Reply c d)
  = if Z.eqb c 429 || Z.leb 500 c then Retry.Retryable c else Retry.Terminal c.
Proof.
  intros Hc. cbn. rewrite (proj2 (Z.leb_le 400 c) Hc). cbn.
  destruct (Z.eqb_spec c 429) as [->|Hne]; [reflexivity | ].
  destruct (Z.ltb_spec c 500); destruct (Z.leb_spec 500 c); cbn; try lia; reflexivity.
Qed.

Lemma Next_fresh (j : nat) : (j < 5)%nat ->
  Retry.Next Retry.DefaultConfig (Retry.mkBackoff (Z.of_nat j) (Z.of_nat j))
  = (Some (2 ^ Z.of_nat j), Retry.mkBackoff (Z.of_nat (S j)) (Z.of_nat (S j))).
Proof. intros Hj. do 5 (destruct j as [|j]; [reflexivity | ]). lia. Qed.

Lemma do_loop_fresh k j server :
  (j + k <= 5)%nat ->
  (forall i, (i < k)%nat -> exists c, Retry.retryFunc (server (j + i)%nat) = Retry.Retryable c) ->
  (forall c, Retry.retryFunc (server (j + k)%nat) <> Retry.Retryable c) ->
  Retry.do_loop (6 - j) Retry.DefaultConfig (Retry.mkBackoff (Z.of_nat j) (Z.of_nat j)) j server
  = Retry.mkOutcome (Retry.retryFunc (server (j + k)%nat)) (S (j + k))
      (map (fun i => 2 ^ Z.of_nat i) (seq j k))
      (Retry.mkBackoff (Z.of_nat (j + k)) (Z.of_nat (j + k))).
Proof.
  revert j. induction k as [|k IH]; intros j Hjk Hpre Hstop.
  - rewrite Nat.add_0_r in *. replace (6 - j)%nat with (S (5 - j)) by lia. cbn [Retry.do_loop].
    destruct (Retry.retryFunc (server j)) as [|t|r] eqn:E; [reflexivity | reflexivity | ].
    exfalso. exact (Hstop r eq_refl).
  - replace (6 - j)%nat with (S (5 - j)) by lia. cbn [Retry.do_loop].
    destruct (Hpre O ltac:(lia)) as [c Hc]. rewrite Nat.add_0_r in Hc. rewrite Hc.
    rewrite Next_fresh by lia.
    replace (5 - j)%nat with (6 - S j)%nat by lia.
    rewrite (IH (S j)).
    + cbn [Retry.final Retry.attempts Retry.waits Retry.backoff_after seq map].
      replace (S j + k)%nat with (j + S k)%nat by lia. reflexivity.
    + lia.
    + intros i Hi. replace (S j + i)%nat with (j + S i)%nat by lia. apply Hpre. lia.
    + replace (S j + k)%nat with (j + S k)%nat by lia. exact Hstop.
Qed.

(** C7 (amended). For a request of the provider client made on a fresh
    backoff ([WithBackoff DefaultConfig], as for the first request of a
    new client):
    - an error status is retried exactly when it is 429 or 5xx: while
      attempts answered with such a status leave retries, another attempt
      follows, and the first answer of another kind ends the call, after
      as many delays as attempts before it (1, 2, 4, 8, 16 s);
    - any other 4xx status, 408 included, ends the call after one attempt
      and is returned to the caller (on any backoff);
    - at most 6 attempts are made (the first one and at most 5 retries),
      also on any backoff whose retry counter is not negative;
    - every delay is capped at 60 s;
    - a server that keeps answering with a retryable status sees 6
      attempts, separated by delays of 1, 2, 4, 8 and 16 s. *)
Theorem retry_policy :
  (forall c d, 400 <= c ->
     (Retry.retryFunc (Retry.Reply c d) = Retry.Retryable c <-> c = 429 \/ 500 <= c)
     /\ (c < 500 -> c <> 429 -> Retry.retryFunc (Retry.Reply c d) = Retry.Terminal c))
  /\ (forall server k, (k < 6)%nat ->
        (forall i, (i < k)%nat -> exists c, Retry.retryFunc (server i) = Retry.Retryable c) ->
        (forall c, Retry.retryFunc (server k) <> Retry.Retryable c) ->
        Retry.attempts (Retry.doRequest (Retry.WithBackoff Retry.DefaultConfig) server) = S k
        /\ Retry.final (Retry.doRequest (Retry.WithBackoff Retry.DefaultConfig) server)
           = Retry.retryFunc (server k)
        /\ Retry.waits (Retry.doRequest (Retry.WithBackoff Retry.DefaultConfig) server)
           = firstn k [1; 2; 4; 8; 16])
  /\ (forall b server c d, server O = Retry.Reply c d -> 400 <= c < 500 -> c <> 429 ->
        Retry.final (Retry.doRequest b server) = Retry.Terminal c
        /\ Retry.attempts (Retry.doRequest b server) = 1%nat)
  /\ (forall b server, 0 <= b.(Retry.max_attempt) ->
        (Retry.attempts (Retry.doRequest b server) <= 6)%nat)
  /\ (forall b server, Forall (fun d => d <= 60) (Retry.waits (Retry.doRequest b server)))
  /\ (forall server, (forall n, exists c, Retry.retryFunc (server n) = Retry.Retryable c) ->
        Retry.attempts (Retry.doRequest (Retry.WithBackoff Retry.DefaultConfig) server) = 6%nat
        /\ Retry.waits (Retry.doRequest (Retry.WithBackoff Retry.DefaultConfig) server)
           = [1; 2; 4; 8; 16]).
Proof.
  assert (Hterm : forall c d, 400 <= c < 500 -> c <> 429 ->
                   Retry.retryFunc (Retry.Reply c d) = Retry.Terminal c).
  { intros c d Hc Hne. rewrite retryFunc_error_reply by lia.
    destruct (Z.eqb_spec c 429); [contradiction | ].
    destruct (Z.leb_spec 500 c); [lia | reflexivity]. }
  split; [ | split; [ | split; [ | split; [ | split]]]].
  - intros c d Hc. split.
    + rewrite retryFunc_error_reply by exact Hc.
      destruct (Z.eqb_spec c 429), (Z.leb_spec 500 c); cbn; split; intros Hr;
        try discriminate; try lia; reflexivity.
    + intros Hlt Hne. apply Hterm; [lia | exact Hne].
  - intros server k Hk Hpre Hstop.
    change (Retry.doRequest (Retry.WithBackoff Retry.DefaultConfig) server)
      with (Retry.do_loop (6 - 0) Retry.DefaultConfig
              (Retry.mkBackoff (Z.of_nat 0) (Z.of_nat 0)) 0 server).
    rewrite (do_loop_fresh k 0 server); [ | lia | exact Hpre | exact Hstop].
    cbn [Retry.final Retry.attempts Retry.waits Nat.add].
    split; [reflexivity | split; [reflexivity | ]].
    do 6 (destruct k as [|k]; [reflexivity | ]). lia.
  - intros b server c d Hs Hc Hne. unfold Retry.doRequest, Retry.Do.
    cbn [Retry.do_loop]. rewrite Hs, Hterm by assumption. split; reflexivity.
  - intros b server Hb. unfold Retry.doRequest, Retry.Do.
    etransitivity; [apply do_loop_attempts_le | ]. cbn [Retry.MaxRetries Retry.DefaultConfig]. lia.
  - intros b server. apply (do_loop_waits_capped _ Retry.DefaultConfig).
  - intros server H. unfold Retry.doRequest, Retry.Do. cbv -[Retry.retryFunc].
    repeat (match goal with
            | |- context [Retry.retryFunc (server ?n)] =>
                let c := fresh "c" in let Hc := fresh "Hc" in
                destruct (H n) as [c Hc]; rewrite Hc
            end; cbv -[Retry.retryFunc]).
    split; reflexivity.
Qed.

(** ** C8: the pull zone creation request *)

(** C8 (code bug). Whatever origin-shield region is configured
    ([cfg.CDN.OriginShieldRegion], ORIGIN_SHIELD_REGION), step 3 on a
    domain with no pull zone of its canonical name sends a creation request
    whose shield zone code is "SG". [Client.CreatePullZone] hard-codes it
    and is never given the configured region. The other fields are as
    specified: origin http://originIP, host header the domain, only the
    Asia region enabled, origin shield on, auto-SSL, Brotli, and a cache
    time of 1440 minutes. *)
Theorem create_pull_zone_request_fixed_shield region :
  (snd (DomainProvisioner.createPullZone
          (mkCfg "admin@example.com" "203.0.113.10" region) "example.com" 1%nat
          (fresh_copy "example.com" demo_world))).(calls)
  = [CListPullZones;
     CCreatePullZone (mkPZReq "morden-example-com" "http://203.0.113.10" "example.com"
                        true false false false false true "SG" true true 1440);
     CAddPullZoneHostname 1 "example.com"].
Proof. vm_compute. reflexivity. Qed.

(** ** C9: teardown *)

Lemma total_ret {A} (a : A) : total (ret a).
Proof. intros w. exists a. reflexivity. Qed.

Lemma total_modify f : total (modify f).
Proof. intros w. exists tt. reflexivity. Qed.

Lemma total_try {A} (m : M A) : no_panic m -> total (try m).
Proof.
  intros Hm w. specialize (Hm w). unfold try.
  destruct (m w) as [[a|e|] w1]; simpl in *; eauto. now destruct Hm.
Qed.

Lemma total_bind {A B} (m : M A) (k : A -> M B) :
  total m -> (forall a, total (k a)) -> total (bind m k).
Proof.
  intros Hm Hk w. destruct (Hm w) as [a Ha]. unfold bind.
  destruct (m w) as [[a'|e|] w1]; simpl in *; try discriminate.
  apply Hk.
Qed.

Ltac total_walk :=
  repeat (cbv zeta;
    match goal with
    | |- total (bind _ _) => apply total_bind; [ | intros ? ]
    | |- total (try _) => apply total_try; solve [frame_walk]
    | |- total (ret _) => apply total_ret
    | |- total (modify _) => apply total_modify
    | |- total (if ?b then _ else _) => destruct b
    | |- total (match ?x with _ => _ end) => destruct x
    end).

Lemma total_unit (m : M unit) w : total m -> fst (m w) = ROk tt.
Proof. intros Hm. destruct (Hm w) as [[] Ha]. exact Ha. Qed.

Lemma bind_run {A B} (m : M A) (k : A -> M B) w a w1 :
  m w = (ROk a, w1) -> bind m k w = k a w1.
Proof. intros H. unfold bind. rewrite H. reflexivity. Qed.

Lemma try_run {A} (m : M A) w :
  no_panic m -> exists x, try m w = (ROk x, snd (m w)).
Proof.
  intros Hm. specialize (Hm w). unfold try.
  destruct (m w) as [[a|e|] w1]; simpl in *; eauto. now destruct Hm.
Qed.

Lemma deleteDNSZone_store z : preserves same_store (Deprovisioner.deleteDNSZone z).
Proof. unfold Deprovisioner.deleteDNSZone. frame_walk. Qed.
Lemma deleteDNSZone_no_panic z : no_panic (Deprovisioner.deleteDNSZone z).
Proof. unfold Deprovisioner.deleteDNSZone. frame_walk. Qed.
Lemma deletePullZone_store z : preserves same_store (Deprovisioner.deletePullZone z).
Proof. unfold Deprovisioner.deletePullZone. frame_walk. Qed.
Lemma deletePullZone_no_panic z : no_panic (Deprovisioner.deletePullZone z).
Proof. unfold Deprovisioner.deletePullZone. frame_walk. Qed.
#[global] Hint Resolve deleteDNSZone_store deleteDNSZone_no_panic
  deletePullZone_store deletePullZone_no_panic : frame.

Lemma deprovisionByName_store d : preserves same_store (Deprovisioner.deprovisionByName d).
Proof. unfold Deprovisioner.deprovisionByName. frame_walk. Qed.
Lemma deprovisionByName_total d : total (Deprovisioner.deprovisionByName d).
Proof. unfold Deprovisioner.deprovisionByName. total_walk. Qed.

Lemma GetByDomain_missing domain w :
  w.(domainIndex) !! domain = None ->
  Manager.GetByDomain domain w = (RErr ErrStateNotFound, w).
Proof. intros H. unfold Manager.GetByDomain, bind. rewrite H. reflexivity. Qed.

Lemma find_none {A} (f : A -> bool) l :
  Forall (fun x => f x = false) l -> List.find f l = None.
Proof. induction 1 as [|x l Hx _ IH]; cbn; [reflexivity | rewrite Hx; exact IH]. Qed.

Lemma try_err {A} (m : M A) w e w1 :
  m w = (RErr e, w1) -> try m w = (ROk (inr e), w1).
Proof. intros H. unfold try. rewrite H. reflexivity. Qed.

Lemma GetDNSZone_absent domain w :
  domain <> "" ->
  List.find (fun z => String.eqb z.(zone_Domain) domain) w.(prov).(dnsZones) = None ->
  Bunny.GetDNSZone domain w
  = (RErr ("API error (status 404): " ++ "DNS zone not found"),
     with_calls (w.(calls) ++ [CListDNSZones]) w).
Proof.
  intros Hd Hf. unfold Bunny.GetDNSZone, Bunny.not_found.
  rewrite (proj2 (String.eqb_neq _ _) Hd). cbn. rewrite Hf. reflexivity.
Qed.

Lemma GetPullZoneByName_absent name w :
  name <> "" ->
  List.find (fun z => String.eqb z.(pz_Name) name) w.(prov).(pullZones) = None ->
  Bunny.GetPullZoneByName name w
  = (RErr ("API error (status 404): " ++ "pull zone not found"),
     with_calls (w.(calls) ++ [CListPullZones]) w).
Proof.
  intros Hd Hf. unfold Bunny.GetPullZoneByName, Bunny.ListPullZones, Bunny.not_found.
  rewrite (proj2 (String.eqb_neq _ _) Hd). cbn. rewrite Hf. reflexivity.
Qed.

Lemma generatePullZoneName_nonempty d : generatePullZoneName d <> "".
Proof. unfold generatePullZoneName. cbn. discriminate. Qed.

Lemma Deprovisioner_absent domain w :
  domain <> "" -> w.(domainIndex) !! domain = None ->
  List.find (fun z => String.eqb z.(zone_Domain) domain) w.(prov).(dnsZones) = None ->
  List.find (fun z => String.eqb z.(pz_Name) (generatePullZoneName domain)) w.(prov).(pullZones) = None ->
  Deprovisioner.Deprovision domain w
  = (ROk tt, with_calls (w.(calls) ++ [CListDNSZones; CListPullZones]) w).
Proof.
  intros Hd Hi Hz Hp. unfold Deprovisioner.Deprovision.
  rewrite (bind_run _ _ _ _ _ (try_err _ _ _ _ (GetByDomain_missing _ _ Hi))).
  cbv beta iota. unfold Deprovisioner.deprovisionByName.
  rewrite (bind_run _ _ _ _ _ (try_err _ _ _ _ (GetDNSZone_absent _ _ Hd Hz))).
  cbv beta iota.
  rewrite (bind_run _ _ _ _ _ (try_err _ _ _ _
            (GetPullZoneByName_absent _ (with_calls (w.(calls) ++ [CListDNSZones]) w)
               (generatePullZoneName_nonempty domain) Hp))).
  cbv beta iota. cbn. rewrite <- app_assoc. reflexivity.
Qed.

Lemma save_or_fail_ok w :
  w.(faults) = [] \/ head w.(faults) = Some SaveOK ->
  exists w', Manager.save_or_fail w = (ROk tt, w') /\ same_mem w w'.
Proof.
  intros Hf. destruct (save_spec w) as (f & Hm & _ & _ & Hok & _ & Hsave).
  assert (Hf' : f = SaveOK) by (apply Hsave; tauto). subst f.
  destruct (Manager.save w) as [r w1] eqn:Es. cbn in Hm, Hok.
  destruct Hok as [_ Hok]. specialize (Hok eq_refl). subst r.
  exists w1. split; [ | exact Hm].
  unfold Manager.save_or_fail, bind, try. rewrite Es. reflexivity.
Qed.

Lemma Deprovisioner_present domain w id q r :
  w.(domainIndex) !! domain = Some id -> w.(states) !! id = Some q ->
  w.(heap) !! q = Some r -> r.(ID) = id -> r.(Domain) = domain ->
  w.(faults) = [] \/ head w.(faults) = Some SaveOK ->
  exists w', Deprovisioner.Deprovision domain w = (ROk tt, w')
             /\ w'.(domainIndex) !! domain = None /\ w'.(states) !! id = None.
Proof.
  intros Hi Hs Hh Hid Hdom Hf. unfold Deprovisioner.Deprovision.
  set (p := nextLoc w).
  set (w1 := with_nextLoc (S p) (with_heap (<[p := r]> w.(heap)) w)).
  assert (Hg : try (Manager.GetByDomain domain) w = (ROk (inl p), w1)).
  { unfold try, Manager.GetByDomain, Manager.Get, Manager.lookup_id, bind, deref, alloc.
    rewrite Hi. cbn. rewrite Hs, Hh. reflexivity. }
  rewrite (bind_run _ _ _ _ _ Hg). cbv beta iota.
  assert (Hd1 : deref p w1 = (ROk r, w1)).
  { unfold deref. cbn. rewrite lookup_insert_eq. reflexivity. }
  rewrite (bind_run _ _ _ _ _ Hd1). cbv beta.
  destruct (try_run (Deprovisioner.deleteDNSZone (ZoneID r)) w1) as [x1 E1];
    [auto with frame | ].
  rewrite (bind_run _ _ _ _ _ E1).
  pose proof (deleteDNSZone_store (ZoneID r) w1) as S1.
  set (w2 := snd (Deprovisioner.deleteDNSZone (ZoneID r) w1)) in *.
  destruct (try_run (Deprovisioner.deletePullZone (PullZoneID r)) w2) as [x2 E2];
    [auto with frame | ].
  rewrite (bind_run _ _ _ _ _ E2).
  pose proof (deletePullZone_store (PullZoneID r) w2) as S2.
  set (w3 := snd (Deprovisioner.deletePullZone (PullZoneID r) w2)) in *.
  assert (S13 : same_store w1 w3) by (etransitivity; eassumption).
  destruct S13 as (Hh3 & _ & Hs3 & Hi3 & _ & Hf3 & _).
  unfold Deprovisioner.deleteState, wrap, Manager.Delete.
  assert (Hl : Manager.lookup_id (ID r) w3 = (ROk q, w3)).
  { unfold Manager.lookup_id. rewrite Hs3. cbn. rewrite Hid, Hs. reflexivity. }
  rewrite (bind_run _ _ _ _ _ Hl).
  assert (Hq : deref q w3 = (ROk r, w3)).
  { unfold deref. rewrite Hh3. cbn.
    destruct (decide (q = p)) as [->|Hne].
    - rewrite lookup_insert_eq. reflexivity.
    - rewrite lookup_insert_ne by congruence. rewrite Hh. reflexivity. }
  rewrite (bind_run _ _ _ _ _ Hq).
  set (w4 := with_domainIndex (delete (Domain r) (domainIndex w3))
               (with_states (delete (ID r) (states w3)) w3)).
  assert (Hf4 : w4.(faults) = [] \/ head w4.(faults) = Some SaveOK).
  { cbn. rewrite Hf3. exact Hf. }
  destruct (save_or_fail_ok w4 Hf4) as (w5 & E5 & (_ & _ & Hs5 & Hi5 & _)).
  rewrite (bind_run _ _ _ tt w4) by reflexivity.
  rewrite E5. exists w5. split; [reflexivity | ].
  rewrite Hs5, Hi5. cbn. rewrite Hdom, Hid. split; apply lookup_delete_eq.
Qed.

(** After the teardown proper has removed the record (or found none),
    [Provisioner.Deprovision] only sends its notification. *)
Lemma Deprovision_tail domain w w1 :
  Deprovisioner.Deprovision domain w = (ROk tt, w1) ->
  w1.(domainIndex) !! domain = None ->
  Provisioner.Deprovision domain w
  = (ROk tt, with_notes (w1.(notes) ++ [NDeprovisioned domain]) w1).
Proof.
  intros Hd Hi. unfold Provisioner.Deprovision.
  rewrite (bind_run _ _ _ tt w1) by (unfold wrap; rewrite Hd; reflexivity).
  rewrite (bind_run _ _ _ _ _ (try_err _ _ _ _ (GetByDomain_missing _ _ Hi))).
  reflexivity.
Qed.

(** C9. Teardown is idempotent and succeeds whenever nothing is left to
    delete or everything was deleted:
    - (a) for a domain with no state record, no DNS zone of that name and
      no pull zone of its canonical name, [Provisioner.Deprovision]
      returns nil after two lookups (list DNS zones, list pull zones) and
      the deprovision notification. It deletes nothing, and the store, the
      state file and the provider account are unchanged;
    - (b) for a domain with no state record it always returns nil; the
      provider deletions it attempts are best-effort;
    - (c) for a domain whose record is stored consistently (indexed under
      its id and its domain), it returns nil and the record is gone
      whenever the save that persists the record's removal succeeds. *)
Theorem teardown_idempotent domain w :
  (domain <> "" -> w.(domainIndex) !! domain = None ->
   Forall (fun z => z.(zone_Domain) <> domain) w.(prov).(dnsZones) ->
   Forall (fun z => z.(pz_Name) <> generatePullZoneName domain) w.(prov).(pullZones) ->
   Provisioner.Deprovision domain w
   = (ROk tt, with_notes (w.(notes) ++ [NDeprovisioned domain])
                (with_calls (w.(calls) ++ [CListDNSZones; CListPullZones]) w)))
  /\ (w.(domainIndex) !! domain = None -> fst (Provisioner.Deprovision domain w) = ROk tt)
  /\ (forall id q r,
        w.(domainIndex) !! domain = Some id -> w.(states) !! id = Some q ->
        w.(heap) !! q = Some r -> r.(ID) = id -> r.(Domain) = domain ->
        w.(faults) = [] \/ head w.(faults) = Some SaveOK ->
        exists w', Provisioner.Deprovision domain w = (ROk tt, w')
                   /\ w'.(domainIndex) !! domain = None /\ w'.(states) !! id = None).
Proof.
  split; [ | split].
  - intros Hd Hi Hz Hp.
    assert (Hz' : List.find (fun z => String.eqb z.(zone_Domain) domain) w.(prov).(dnsZones) = None).
    { apply find_none. eapply Forall_impl; [exact Hz | ]. intros z Hne. apply String.eqb_neq, Hne. }
    assert (Hp' : List.find (fun z => String.eqb z.(pz_Name) (generatePullZoneName domain))
                    w.(prov).(pullZones) = None).
    { apply find_none. eapply Forall_impl; [exact Hp | ]. intros z Hne. apply String.eqb_neq, Hne. }
    rewrite (Deprovision_tail _ _ _ (Deprovisioner_absent _ _ Hd Hi Hz' Hp') Hi).
    reflexivity.
  - intros Hi.
    assert (Hd : Deprovisioner.Deprovision domain w
                 = Deprovisioner.deprovisionByName domain w).
    { unfold Deprovisioner.Deprovision.
      rewrite (bind_run _ _ _ _ _ (try_err _ _ _ _ (GetByDomain_missing _ _ Hi))). reflexivity. }
    pose proof (total_unit _ w (deprovisionByName_total domain)) as Hok.
    pose proof (deprovisionByName_store domain w) as (_ & _ & _ & Hi1 & _).
    destruct (Deprovisioner.deprovisionByName domain w) as [r1 w1] eqn:E.
    cbn in Hok, Hi1. subst r1.
    rewrite (Deprovision_tail _ _ _ Hd) by (rewrite Hi1; exact Hi). reflexivity.
  - intros id q r Hi Hs Hh Hid Hdom Hf.
    destruct (Deprovisioner_present _ _ _ _ _ Hi Hs Hh Hid Hdom Hf) as (w1 & E & Hi1 & Hs1).
    rewrite (Deprovision_tail _ _ _ E Hi1).
    eexists. split; [reflexivity | split; assumption].
Qed.

(** ** C10: the success path after a vanished record *)

(** C10 (code bug). If the record the pipeline worked on is no longer in
    the store when the success path runs (for instance, because a
    concurrent teardown of the same domain deleted it), [MarkSuccess] and
    the refresh [Get] both fail, and [finalState] is nil. The guard on
    [finalState] protects only the CDN hostname. Reading
    [finalState.ZoneID] for [NotifySuccess] then dereferences nil: the
    success path of [Provisioner.Provision] panics. *)
Theorem success_tail_nil_deref domain p w r :
  w.(heap) !! p = Some r ->
  w.(states) !! r.(ID) = None ->
  fst (Provisioner.success_tail domain p w) = RPanic.
Proof.
  intros Hp Hs. unfold Provisioner.success_tail, id_of.
  assert (Hd : deref p w = (ROk r, w)) by (unfold deref; rewrite Hp; reflexivity).
  unfold bind at 1. unfold bind at 1. rewrite Hd. cbv beta. unfold ret at 1. cbv iota.
  assert (Hm : Manager.MarkSuccess r.(ID) w = (RErr ErrStateNotFound, w)).
  { unfold Manager.MarkSuccess, Manager.mutate, Manager.lookup_id, bind. rewrite Hs. reflexivity. }
  rewrite (bind_run _ _ _ _ _ (try_err _ _ _ _ Hm)).
  assert (Hg : Manager.Get r.(ID) w = (RErr ErrStateNotFound, w)).
  { unfold Manager.Get, Manager.lookup_id, bind. rewrite Hs. reflexivity. }
  rewrite (bind_run _ _ _ _ _ (try_err _ _ _ _ Hg)).
  reflexivity.
Qed.

Lemma success_tail_nil_deref_witness :
  fst (Provisioner.success_tail "example.com" 0%nat orphan_world) = RPanic.
Proof.
  apply (success_tail_nil_deref "example.com" 0%nat orphan_world (demo_rec "example.com"));
    reflexivity.
Defined.

(* ------------------------------------------------------------------ *)
(** ** Further properties: the state manager *)

Lemma save_no_panic : no_panic Manager.save.
Proof. intros w. unfold Manager.save. destruct (faults w) as [|[] ?]; cbn; discriminate. Qed.

Lemma try_save_mem w :
  exists x, try Manager.save w = (ROk x, snd (Manager.save w))
  /\ same_mem w (snd (Manager.save w)).
Proof.
  destruct (save_spec w) as (f & Hm & _).
  destruct (try_run _ w save_no_panic) as [x Hx]. eauto.
Qed.

(** X1. [Create] stores a pending record for the domain at step
    [StepNone] with no retries, created at the current time, and returns
    a pointer to it.
    A following [GetByDomain] of that domain succeeds and hands out a
    different pointer to a copy of the same record. *)
Theorem Create_then_GetByDomain domain w :
  match Manager.Create domain w with
  | (ROk p, w1) =>
      exists r, w1.(heap) !! p = Some r
        /\ r.(Domain) = domain /\ r.(Status) = StatusPending /\ r.(CurrentStep) = StepNone
        /\ r.(Retries) = 0 /\ r.(CreatedAt) = w.(now)
        /\ exists q, fst (Manager.GetByDomain domain w1) = ROk q /\ q <> p
             /\ (snd (Manager.GetByDomain domain w1)).(heap) !! q = Some r
  | _ => False
  end.
Proof.
  unfold Manager.Create.
  set (w0 := snd (Manager.new_uuid w)).
  assert (Hu : exists id, Manager.new_uuid w = (ROk id, w0) /\ heap w0 = heap w
                 /\ nextLoc w0 = nextLoc w /\ now w0 = now w).
  { unfold w0, Manager.new_uuid. destruct (uuids w); eexists; repeat split. }
  destruct Hu as (id & Hu & Hh0 & Hn0 & Ht0).
  rewrite (bind_run _ _ _ _ _ Hu).
  rewrite (bind_run _ _ _ (now w0) w0) by reflexivity.
  set (r := mkPS id domain StatusPending StepNone 0 0 "" "" 0 (now w0) (now w0)).
  set (p := nextLoc w0).
  set (w1 := with_nextLoc (S p) (with_heap (<[p := r]> (heap w0)) w0)).
  rewrite (bind_run _ _ _ p w1) by reflexivity.
  set (w2 := with_domainIndex (<[domain := id]> w1.(domainIndex))
               (with_states (<[id := p]> w1.(states)) w1)).
  rewrite (bind_run _ _ _ tt w2) by reflexivity.
  destruct (try_save_mem w2) as (x & Hx & Hh & Hn & Hs & Hi & _).
  rewrite (bind_run _ _ _ _ _ Hx). cbn [ret].
  set (w3 := snd (Manager.save w2)) in *.
  exists r. assert (H3 : heap w3 !! p = Some r).
  { rewrite Hh. cbn. apply lookup_insert_eq. }
  split; [exact H3 | ]. split; [reflexivity | ]. split; [reflexivity | ].
  split; [reflexivity | ]. split; [reflexivity | ]. split; [cbn; congruence | ].
  unfold Manager.GetByDomain, Manager.Get, Manager.lookup_id, bind, deref, alloc.
  cbn. rewrite Hi. cbn. rewrite lookup_insert_eq. rewrite Hs. cbn. rewrite lookup_insert_eq. rewrite H3. cbn.
  exists (nextLoc w3). split; [reflexivity | ]. rewrite Hn. cbn. split; [lia | ].
  apply lookup_insert_eq.
Qed.

(** X2. On a well-formed store, [Get id] either returns a pointer whose
    cell holds the stored record, and writing through that pointer changes
    no stored record, or fails with [ErrStateNotFound], leaving the world
    unchanged; it fails only for an unknown id. *)
Theorem Get_copy id w :
  wf_store w ->
  match Manager.Get id w with
  | (ROk q, w1) =>
      w1.(heap) !! q = stored id w
      /\ forall r' k, stored k (snd (store q r' w1)) = stored k w
  | (RErr e, w1) => e = ErrStateNotFound /\ w1 = w /\ w.(states) !! id = None
  | (RPanic, _) => False
  end.
Proof.
  intros Hwf. unfold Manager.Get, Manager.lookup_id, bind, deref, alloc.
  destruct (states w !! id) as [p|] eqn:Hs; cbn; [ | auto].
  destruct (Hwf id p Hs) as [Hlt [r Hr]]. rewrite Hr. cbn.
  unfold stored. rewrite Hs. cbn. split; [rewrite lookup_insert_eq; symmetry; exact Hr | ].
  intros r' k. unfold store. cbn. destruct (states w !! k) as [pk|] eqn:Hk; cbn; [ | reflexivity].
  destruct (Hwf k pk Hk) as [Hlt' _].
  rewrite insert_insert_eq. rewrite lookup_insert_ne by lia. reflexivity.
Qed.

(** X3. For an id the manager does not hold, [Get], [Delete],
    [IncrementStep], [SetError], [MarkSuccess] and [MarkProvisioning] all
    fail with [ErrStateNotFound] and leave the world unchanged. So does
    [Update] of a record carrying that id. In particular none of them
    writes the state file. *)
Theorem unknown_id_rejected id msg w :
  w.(states) !! id = None ->
  Manager.Get id w = (RErr ErrStateNotFound, w)
  /\ Manager.Delete id w = (RErr ErrStateNotFound, w)
  /\ Manager.IncrementStep id w = (RErr ErrStateNotFound, w)
  /\ Manager.SetError id msg w = (RErr ErrStateNotFound, w)
  /\ Manager.MarkSuccess id w = (RErr ErrStateNotFound, w)
  /\ Manager.MarkProvisioning id w = (RErr ErrStateNotFound, w)
  /\ (forall p r, w.(heap) !! p = Some r -> r.(ID) = id ->
      Manager.Update p w = (RErr ErrStateNotFound, w)).
Proof.
  intros Hs.
  unfold Manager.Get, Manager.Delete, Manager.IncrementStep, Manager.SetError,
    Manager.MarkSuccess, Manager.MarkProvisioning, Manager.mutate, Manager.lookup_id, bind.
  rewrite Hs. repeat split.
  intros p r Hp Hid. unfold Manager.Update, Manager.lookup_id, bind, deref.
  rewrite Hp. cbn. rewrite Hid, Hs. reflexivity.
Qed.

Lemma ends_with_save_bind {A} (m : M A) (k : A -> M unit) :
  (forall a, ends_with_save (k a)) -> ends_with_save (bind m k).
Proof. intros Hk w w' H. apply bind_ok in H as (a & w1 & _ & H). exact (Hk a _ _ H). Qed.

Lemma ends_with_save_save_or_fail : ends_with_save Manager.save_or_fail.
Proof.
  intros w w' H. unfold Manager.save_or_fail, bind, try, ret, throw in H.
  unfold Manager.save in H. destruct (faults w) as [|[] fs]; cbn in H; inversion H; subst;
  cbn; unfold records_of; reflexivity.
Qed.

Lemma save_or_fail_outcome w :
  fst (Manager.save_or_fail w) = ROk tt \/ fst (Manager.save_or_fail w) = RErr "failed to save state".
Proof.
  unfold Manager.save_or_fail, bind, try, ret, throw, Manager.save.
  destruct (faults w) as [|[] fs]; cbn; auto.
Qed.

(** X4. Deleting a stored record removes its id and its domain from the
    manager in memory, whatever the outcome of the save. [Get] of the id
    and [GetByDomain] of the domain then fail with [ErrStateNotFound], and
    every other id keeps its record. The only error is the save failure,
    and on success the state file holds exactly the remaining records. *)
Theorem Delete_forgets id w r :
  stored id w = Some r ->
  let (res, w1) := Manager.Delete id w in
  (res = ROk tt \/ res = RErr "failed to save state")
  /\ w1.(states) !! id = None /\ w1.(domainIndex) !! r.(Domain) = None
  /\ fst (Manager.Get id w1) = RErr ErrStateNotFound
  /\ fst (Manager.GetByDomain r.(Domain) w1) = RErr ErrStateNotFound
  /\ (forall k, k <> id -> stored k w1 = stored k w)
  /\ (res = ROk tt -> w1.(disk).(real) = Some (Full (records_of w1))).
Proof.
  unfold stored. intros Hst.
  destruct (states w !! id) as [p|] eqn:Hs; cbn in Hst; [ | discriminate].
  unfold Manager.Delete.
  rewrite (bind_run _ _ _ p w) by (unfold Manager.lookup_id; rewrite Hs; reflexivity).
  rewrite (bind_run _ _ _ r w) by (unfold deref; rewrite Hst; reflexivity).
  set (w2 := with_domainIndex (delete (Domain r) (domainIndex w))
               (with_states (delete id (states w)) w)).
  rewrite (bind_run _ _ _ tt w2) by reflexivity.
  pose proof (save_or_fail_outcome w2) as Hout.
  pose proof (ends_with_save_save_or_fail w2) as Hews.
  destruct (Manager.save_or_fail w2) as [res w3] eqn:E.
  apply save_or_fail_mem in E as (Hh & _ & Hs3 & Hi3 & _).
  assert (Hid : states w3 !! id = None) by (rewrite Hs3; apply lookup_delete_eq).
  assert (Hd : domainIndex w3 !! Domain r = None) by (rewrite Hi3; apply lookup_delete_eq).
  split; [exact Hout | ]. split; [exact Hid | ]. split; [exact Hd | ].
  split; [unfold Manager.Get, Manager.lookup_id, bind; rewrite Hid; reflexivity | ].
  split; [unfold Manager.GetByDomain, bind; rewrite Hd; reflexivity | ].
  split; [ | intros ->; apply Hews; reflexivity].
  intros k Hk. rewrite Hs3, Hh. cbn. rewrite lookup_delete_ne by congruence. reflexivity.
Qed.

Lemma stored_in_records k w r : stored k w = Some r -> In r (records_of w).
Proof.
  unfold stored, records_of. destruct (states w !! k) as [p|] eqn:Hs; cbn; [ | discriminate].
  intros Hp. apply list_elem_of_In, list_elem_of_omap. exists (k, p).
  split; [apply elem_of_map_to_list; exact Hs | exact Hp].
Qed.

Lemma mutate_run id f w p r :
  w.(states) !! id = Some p -> w.(heap) !! p = Some r ->
  Manager.mutate id f w
  = Manager.save_or_fail (with_heap (<[p := f w.(now) r]> w.(heap)) w).
Proof.
  intros Hs Hp. unfold Manager.mutate.
  rewrite (bind_run _ _ _ p w) by (unfold Manager.lookup_id; rewrite Hs; reflexivity).
  rewrite (bind_run _ _ _ (now w) w) by reflexivity.
  rewrite (bind_run _ _ _ tt (with_heap (<[p := f w.(now) r]> w.(heap)) w))
    by (unfold assign, bind, deref, store; rewrite Hp; reflexivity).
  reflexivity.
Qed.

(** X5. [SetError] on a stored record marks it failed, records the message,
    adds one retry and stamps the current time, even when the save fails.
    The updated record is offered by [Recover] exactly when its retry
    count is still below 5. *)
Theorem SetError_effect id msg w r :
  stored id w = Some r ->
  let r' := set_UpdatedAt w.(now) (set_Retries (r.(Retries) + 1)
              (set_Error msg (set_Status StatusFailed r))) in
  let (res, w1) := Manager.SetError id msg w in
  (res = ROk tt \/ res = RErr "failed to save state")
  /\ stored id w1 = Some r'
  /\ exists l, Manager.Recover w1 = (ROk l, w1) /\ (In r' l <-> r.(Retries) + 1 < 5).
Proof.
  intros Hst r'. unfold stored in Hst.
  destruct (states w !! id) as [p|] eqn:Hs; cbn in Hst; [ | discriminate].
  unfold Manager.SetError. rewrite (mutate_run _ _ _ _ _ Hs Hst).
  set (w2 := with_heap _ w).
  pose proof (save_or_fail_outcome w2) as Hout.
  destruct (Manager.save_or_fail w2) as [res w3] eqn:E.
  apply save_or_fail_mem in E as (Hh & _ & Hs3 & _).
  assert (H3 : stored id w3 = Some r').
  { unfold stored. rewrite Hs3, Hh. cbn. rewrite Hs. cbn. apply lookup_insert_eq. }
  split; [exact Hout | ]. split; [exact H3 | ].
  eexists. split; [reflexivity | ].
  rewrite <- list_elem_of_In, list_elem_of_filter, list_elem_of_In.
  unfold Manager.recover_pred. cbn.
  split.
  - intros [Hp _]. apply Z.ltb_lt. exact Hp.
  - intros Hlt. split; [apply Z.ltb_lt; exact Hlt | exact (stored_in_records _ _ _ H3)].
Qed.

(** X6. [Update p] makes the manager store the caller's pointer [p] itself,
    with the original [CreatedAt] and a fresh [UpdatedAt], even when the
    save fails. Any later write through [p] changes the stored record. *)
Theorem Update_aliases p w r e er :
  w.(heap) !! p = Some r -> w.(states) !! r.(ID) = Some e -> w.(heap) !! e = Some er ->
  let (res, w1) := Manager.Update p w in
  (res = ROk tt \/ res = RErr "failed to save state")
  /\ w1.(states) !! r.(ID) = Some p
  /\ stored r.(ID) w1 = Some (set_UpdatedAt w.(now) (set_CreatedAt er.(CreatedAt) r))
  /\ forall r', stored r.(ID) (snd (store p r' w1)) = Some r'.
Proof.
  intros Hp He Her. unfold Manager.Update.
  rewrite (bind_run _ _ _ r w) by (unfold deref; rewrite Hp; reflexivity).
  rewrite (bind_run _ _ _ e w) by (unfold Manager.lookup_id; rewrite He; reflexivity).
  rewrite (bind_run _ _ _ er w) by (unfold deref; rewrite Her; reflexivity).
  rewrite (bind_run _ _ _ (now w) w) by reflexivity.
  set (w1 := snd (store p (set_UpdatedAt (now w) (set_CreatedAt (CreatedAt er) r)) w)).
  rewrite (bind_run _ _ _ tt w1) by reflexivity.
  set (w2 := with_domainIndex (<[Domain r := ID r]> (domainIndex w1))
               (with_states (<[ID r := p]> (states w1)) w1)).
  rewrite (bind_run _ _ _ tt w2) by reflexivity.
  pose proof (save_or_fail_outcome w2) as Hout.
  destruct (Manager.save_or_fail w2) as [res w3] eqn:E.
  apply save_or_fail_mem in E as (Hh & _ & Hs3 & _).
  assert (Hs : states w3 !! ID r = Some p) by (rewrite Hs3; apply lookup_insert_eq).
  split; [exact Hout | ]. split; [exact Hs | ].
  split.
  - unfold stored. rewrite Hs. cbn. rewrite Hh. apply lookup_insert_eq.
  - intros r'. unfold stored, store. cbn. rewrite Hs. cbn. apply lookup_insert_eq.
Qed.

(** X7. After [Clear] the manager holds no record: [GetCount] is 0,
    [ListAll] is empty and every [GetByDomain] fails. If the save
    succeeds, the state file holds an empty list. *)
Theorem Clear_empties w :
  let (res, w1) := Manager.Clear w in
  (res = ROk tt \/ res = RErr "failed to save state")
  /\ Manager.GetCount w1 = (ROk 0%nat, w1) /\ Manager.ListAll w1 = (ROk [], w1)
  /\ (forall d, fst (Manager.GetByDomain d w1) = RErr ErrStateNotFound)
  /\ (res = ROk tt -> w1.(disk).(real) = Some (Full [])).
Proof.
  unfold Manager.Clear.
  set (w2 := with_domainIndex ∅ (with_states ∅ w)).
  rewrite (bind_run _ _ _ tt w2) by reflexivity.
  pose proof (save_or_fail_outcome w2) as Hout.
  pose proof (ends_with_save_save_or_fail w2) as Hews.
  destruct (Manager.save_or_fail w2) as [res w3] eqn:E.
  apply save_or_fail_mem in E as (Hh & _ & Hs3 & Hi3 & _).
  assert (Hr : records_of w3 = []) by (unfold records_of; rewrite Hs3; reflexivity).
  split; [exact Hout | ].
  split; [unfold Manager.GetCount, gets; rewrite Hs3; reflexivity | ].
  split; [unfold Manager.ListAll, gets; rewrite Hr; reflexivity | ].
  split; [intros d; unfold Manager.GetByDomain, bind; rewrite Hi3; reflexivity | ].
  intros ->. rewrite (Hews w3 eq_refl), Hr. reflexivity.
Qed.

Lemma length_omap_total {A B} (f : A -> option B) l :
  Forall (fun x => is_Some (f x)) l -> length (omap f l) = length l.
Proof.
  induction 1 as [|x l [y Hy] _ IH]; [reflexivity | ]. cbn. rewrite Hy. cbn. now rewrite IH.
Qed.

(** X8. When every stored id points to a live cell, [ListAll] returns
    [GetCount] records, and every record [Recover] returns is also listed
    by [ListPending] or by [ListFailed]. *)
Theorem listing_consistent w :
  map_Forall (fun _ p => is_Some (w.(heap) !! p)) w.(states) ->
  match Manager.ListAll w, Manager.GetCount w, Manager.Recover w,
        Manager.ListPending w, Manager.ListFailed w with
  | (ROk all, _), (ROk n, _), (ROk rec, _), (ROk pend, _), (ROk failed, _) =>
      length all = n /\ forall r, In r rec -> In r pend \/ In r failed
  | _, _, _, _, _ => False
  end.
Proof.
  intros Hw. cbn. split.
  - unfold records_of. rewrite length_omap_total, length_map_to_list; [reflexivity | ].
    apply map_Forall_to_list in Hw. eapply Forall_impl; [exact Hw | ].
    intros [k p]. cbn. auto.
  - intros r. rewrite <- !list_elem_of_In, !list_elem_of_filter.
    intros [Hp Hin]. unfold Manager.recover_pred in Hp.
    apply orb_prop in Hp as [Hp|Hp]; [left | right]; (split; [ | exact Hin]).
    + left. exact Hp.
    + apply andb_prop in Hp as [Hp _]. exact Hp.
Qed.

Lemma ends_with_save_run_op o : (forall d, o <> OCreate d) -> ends_with_save (run_op o).
Proof.
  intros Ho. destruct o; cbn [run_op];
    [ exfalso; eapply Ho; reflexivity | .. ];
    unfold Manager.Update, Manager.Delete, Manager.IncrementStep, Manager.SetError,
      Manager.MarkSuccess, Manager.MarkProvisioning, Manager.mutate, Manager.Clear;
    repeat first [ apply ends_with_save_save_or_fail
                 | apply ends_with_save_bind; intros ? ].
Qed.

(** Records loaded after [l] do not disturb an id none of them carries. *)
Lemma load_records_other l w id :
  map_Forall (fun _ p => (p < w.(nextLoc))%nat) w.(states) ->
  Forall (fun r => r.(ID) <> id) l ->
  stored id (load_records l w) = stored id w.
Proof.
  revert w. induction l as [|r0 l IH]; intros w Hw Hl; [reflexivity | ].
  inversion Hl as [|? ? Hr0 Hrest]; subst. cbn [load_records].
  rewrite IH; [ | | exact Hrest].
  - unfold stored. cbn. rewrite lookup_insert_ne by congruence.
    destruct (states w !! id) as [p|] eqn:Hs; cbn; [ | reflexivity].
    rewrite lookup_insert_ne; [reflexivity | ]. specialize (Hw id p Hs). cbn in Hw. lia.
  - intros k p. cbn. destruct (decide (k = ID r0)) as [->|Hne].
    + rewrite lookup_insert_eq. intros [= <-]. lia.
    + rewrite lookup_insert_ne by congruence. intros Hk. specialize (Hw k p Hk). cbn in Hw. lia.
Qed.

Lemma load_records_member l w r :
  map_Forall (fun _ p => (p < w.(nextLoc))%nat) w.(states) ->
  NoDup (map ID l) -> In r l ->
  stored r.(ID) (load_records l w) = Some r.
Proof.
  revert w. induction l as [|r0 l IH]; intros w Hw Hnd Hin; [destruct Hin | ].
  inversion Hnd as [|? ? Hnot Hnd']; subst. cbn [load_records].
  set (w2 := with_domainIndex _ _).
  assert (Hw2 : map_Forall (fun _ p => (p < w2.(nextLoc))%nat) w2.(states)).
  { intros k p. cbn. destruct (decide (k = ID r0)) as [->|Hne].
    + rewrite lookup_insert_eq. intros [= <-]. lia.
    + rewrite lookup_insert_ne by congruence. intros Hk. specialize (Hw k p Hk). cbn in Hw. lia. }
  destruct Hin as [<- | Hin].
  - rewrite load_records_other; [ | exact Hw2 | ].
    + unfold stored. cbn. rewrite lookup_insert_eq. cbn. apply lookup_insert_eq.
    + apply Forall_forall. intros x Hx Heq. apply Hnot. rewrite <- Heq.
      apply list_elem_of_In, in_map, list_elem_of_In. exact Hx.
  - apply IH; assumption.
Qed.

Lemma ids_of_records w :
  ids_match w -> map ID (records_of w) = (map_to_list w.(states)).*1.
Proof.
  intros Hw. apply map_Forall_to_list in Hw. unfold records_of.
  induction Hw as [|[k p] l Hkp _ IH]; [reflexivity | ].
  cbn in Hkp |- *. destruct (heap w !! p) as [r|]; cbn in Hkp |- *; [ | discriminate].
  injection Hkp as ->. f_equal. exact IH.
Qed.

Lemma stored_of_records w id r :
  ids_match w -> In r (records_of w) -> r.(ID) = id -> stored id w = Some r.
Proof.
  intros Hw Hin Hid. unfold records_of in Hin.
  apply list_elem_of_In, list_elem_of_omap in Hin as ([k p] & Hkp & Hp).
  apply elem_of_map_to_list in Hkp. cbn in Hp.
  specialize (Hw k p Hkp). cbn in Hw. rewrite Hp in Hw. cbn in Hw. injection Hw as Hk.
  subst. unfold stored. rewrite Hkp. exact Hp.
Qed.

(** X9. After a successful mutation other than [Create], on a store whose
    records carry their own ids, a restart reads the state file back and
    recovers exactly the records the manager held. *)
Theorem mutation_durable o w w' pv us t :
  (forall d, o <> OCreate d) -> run_op o w = (ROk tt, w') -> ids_match w' ->
  exists w'', restart w'.(disk) pv us t = Some w''
              /\ forall id, stored id w'' = stored id w'.
Proof.
  intros Ho Hrun Hids.
  pose proof (ends_with_save_run_op o Ho w w' Hrun) as Hd.
  unfold restart. rewrite Hd. eexists. split; [reflexivity | ].
  set (w0 := mkW ∅ 0 ∅ ∅ (disk w') [] [] us t pv [] []).
  assert (H0 : map_Forall (fun _ p => (p < w0.(nextLoc))%nat) w0.(states))
    by apply map_Forall_empty.
  assert (Hnd : NoDup (map ID (records_of w'))).
  { rewrite ids_of_records by exact Hids. apply NoDup_fst_map_to_list. }
  intros id. destruct (stored id w') as [r|] eqn:Hs.
  - pose proof (stored_in_records _ _ _ Hs) as Hin.
    assert (Hid : r.(ID) = id).
    { unfold stored in Hs. destruct (states w' !! id) as [p|] eqn:Hp; [ | discriminate].
      cbn in Hs. specialize (Hids id p Hp). cbn in Hids. rewrite Hs in Hids.
      injection Hids as ->. reflexivity. }
    rewrite <- Hid. apply load_records_member; [exact H0 | exact Hnd | exact Hin].
  - rewrite load_records_other; [reflexivity | exact H0 | ].
    apply Forall_forall. intros r Hin Hid.
    apply list_elem_of_In in Hin.
    rewrite (stored_of_records w' id r Hids Hin Hid) in Hs. discriminate.
Qed.

Lemma Get_copy_witness :
  wf_store demo_store
  /\ match Manager.Get "id1" demo_store with
     | (ROk q, w1) =>
         w1.(heap) !! q = stored "id1" demo_store
         /\ forall r' k, stored k (snd (store q r' w1)) = stored k demo_store
     | (RErr e, w1) => e = ErrStateNotFound /\ w1 = demo_store /\ demo_store.(states) !! "id1" = None
     | (RPanic, _) => False
     end.
Proof.
  assert (H : wf_store demo_store) by (apply (bool_decide_unpack _); vm_compute; reflexivity).
  split; [exact H | apply (Get_copy "id1" demo_store H)].
Defined.

Lemma unknown_id_rejected_witness :
  demo_store.(states) !! "id9" = None
  /\ Manager.Get "id9" demo_store = (RErr ErrStateNotFound, demo_store)
  /\ Manager.Delete "id9" demo_store = (RErr ErrStateNotFound, demo_store)
  /\ Manager.IncrementStep "id9" demo_store = (RErr ErrStateNotFound, demo_store)
  /\ Manager.SetError "id9" "boom" demo_store = (RErr ErrStateNotFound, demo_store)
  /\ Manager.MarkSuccess "id9" demo_store = (RErr ErrStateNotFound, demo_store)
  /\ Manager.MarkProvisioning "id9" demo_store = (RErr ErrStateNotFound, demo_store)
  /\ (forall p r, demo_store.(heap) !! p = Some r -> r.(ID) = "id9" ->
      Manager.Update p demo_store = (RErr ErrStateNotFound, demo_store)).
Proof.
  assert (H : demo_store.(states) !! "id9" = None) by (vm_compute; reflexivity).
  split; [exact H | apply (unknown_id_rejected "id9" "boom" demo_store H)].
Defined.

Lemma Delete_forgets_witness :
  stored "id1" demo_store = Some (demo_rec "example.com")
  /\ let (res, w1) := Manager.Delete "id1" demo_store in
     (res = ROk tt \/ res = RErr "failed to save state")
     /\ w1.(states) !! "id1" = None /\ w1.(domainIndex) !! (demo_rec "example.com").(Domain) = None
     /\ fst (Manager.Get "id1" w1) = RErr ErrStateNotFound
     /\ fst (Manager.GetByDomain (demo_rec "example.com").(Domain) w1) = RErr ErrStateNotFound
     /\ (forall k, k <> "id1" -> stored k w1 = stored k demo_store)
     /\ (res = ROk tt -> w1.(disk).(real) = Some (Full (records_of w1))).
Proof.
  assert (H : stored "id1" demo_store = Some (demo_rec "example.com"))
    by (vm_compute; reflexivity).
  split; [exact H | apply (Delete_forgets "id1" demo_store _ H)].
Defined.

Lemma SetError_effect_witness :
  stored "id1" demo_store = Some (demo_rec "example.com")
  /\ let r' := set_UpdatedAt demo_store.(now) (set_Retries ((demo_rec "example.com").(Retries) + 1)
                (set_Error "boom" (set_Status StatusFailed (demo_rec "example.com")))) in
     let (res, w1) := Manager.SetError "id1" "boom" demo_store in
     (res = ROk tt \/ res = RErr "failed to save state")
     /\ stored "id1" w1 = Some r'
     /\ exists l, Manager.Recover w1 = (ROk l, w1)
                  /\ (In r' l <-> (demo_rec "example.com").(Retries) + 1 < 5).
Proof.
  assert (H : stored "id1" demo_store = Some (demo_rec "example.com"))
    by (vm_compute; reflexivity).
  split; [exact H | apply (SetError_effect "id1" "boom" demo_store _ H)].
Defined.

Lemma Update_aliases_witness :
  demo_store.(heap) !! 0%nat = Some (demo_rec "example.com")
  /\ demo_store.(states) !! (demo_rec "example.com").(ID) = Some 0%nat
  /\ (let (res, w1) := Manager.Update 0%nat demo_store in
      (res = ROk tt \/ res = RErr "failed to save state")
      /\ w1.(states) !! (demo_rec "example.com").(ID) = Some 0%nat
      /\ stored (demo_rec "example.com").(ID) w1
         = Some (set_UpdatedAt demo_store.(now)
                   (set_CreatedAt (demo_rec "example.com").(CreatedAt) (demo_rec "example.com")))
      /\ forall r', stored (demo_rec "example.com").(ID) (snd (store 0%nat r' w1)) = Some r').
Proof.
  assert (H1 : demo_store.(heap) !! 0%nat = Some (demo_rec "example.com"))
    by (vm_compute; reflexivity).
  assert (H2 : demo_store.(states) !! (demo_rec "example.com").(ID) = Some 0%nat)
    by (vm_compute; reflexivity).
  split; [exact H1 | split; [exact H2 | ]].
  apply (Update_aliases 0%nat demo_store _ 0%nat _ H1 H2 H1).
Defined.

Lemma listing_consistent_witness :
  map_Forall (fun _ p => is_Some (demo_store.(heap) !! p)) demo_store.(states)
  /\ match Manager.ListAll demo_store, Manager.GetCount demo_store, Manager.Recover demo_store,
           Manager.ListPending demo_store, Manager.ListFailed demo_store with
     | (ROk all, _), (ROk n, _), (ROk rec, _), (ROk pend, _), (ROk failed, _) =>
         length all = n /\ forall r, In r rec -> In r pend \/ In r failed
     | _, _, _, _, _ => False
     end.
Proof.
  assert (H : map_Forall (fun _ p => is_Some (demo_store.(heap) !! p)) demo_store.(states))
    by (apply (bool_decide_unpack _); vm_compute; reflexivity).
  split; [exact H | apply (listing_consistent demo_store H)].
Defined.

Lemma mutation_durable_witness :
  (forall d, OMarkSuccess "id1" <> OCreate d)
  /\ run_op (OMarkSuccess "id1") demo_store = (ROk tt, done_world)
  /\ ids_match done_world
  /\ exists w'', restart done_world.(disk) crashed_prov [] 200 = Some w''
                 /\ forall id, stored id w'' = stored id done_world.
Proof.
  assert (H1 : forall d, OMarkSuccess "id1" <> OCreate d) by discriminate.
  assert (H2 : run_op (OMarkSuccess "id1") demo_store = (ROk tt, done_world))
    by (vm_compute; reflexivity).
  assert (H3 : ids_match done_world)
    by (apply (bool_decide_unpack _); vm_compute; reflexivity).
  split; [exact H1 | split; [exact H2 | split; [exact H3 | ]]].
  apply (mutation_durable (OMarkSuccess "id1") demo_store done_world crashed_prov [] 200 H1 H2 H3).
Defined.

(* ------------------------------------------------------------------ *)
(** ** Further properties: provider client retries *)

Lemma do_loop_budget fuel cfg b n server :
  let o := Retry.do_loop fuel cfg b n server in
  Retry.max_attempt (Retry.backoff_after o)
    = Retry.max_attempt b + Z.of_nat (length (Retry.waits o))
  /\ Retry.max_attempt (Retry.backoff_after o)
     <= Z.max (Retry.MaxRetries cfg) (Retry.max_attempt b).
Proof.
  revert b n. induction fuel as [|fuel IH]; intros b n; cbn; [lia | ].
  destruct (Retry.retryFunc (server n)); cbn; try lia.
  unfold Retry.Next. destruct (Z.leb_spec (Retry.MaxRetries cfg) (Retry.max_attempt b)); cbn; [lia | ].
  match goal with |- context [Retry.do_loop fuel cfg ?b' (S n) server] =>
    destruct (IH b' (S n)) as [IH1 IH2] end.
  cbn in *. lia.
Qed.

Lemma doRequest_exhausted b server :
  5 <= Retry.max_attempt b ->
  Retry.attempts (Retry.doRequest b server) = 1%nat
  /\ Retry.waits (Retry.doRequest b server) = []
  /\ Retry.backoff_after (Retry.doRequest b server) = b.
Proof.
  intros Hb. unfold Retry.doRequest, Retry.Do. cbn [Retry.MaxRetries Retry.DefaultConfig].
  replace (Z.to_nat (5 - Retry.max_attempt b)) with 0%nat by lia. cbn.
  destruct (Retry.retryFunc (server 0%nat)); cbn; auto.
  unfold Retry.Next. cbn. destruct (Z.leb_spec 5 (Retry.max_attempt b)); [ | lia]. cbn. auto.
Qed.

Lemma doRequests_budget b servers :
  0 <= Retry.max_attempt b ->
  Retry.max_attempt b + Z.of_nat (total_waits (Retry.doRequests b servers))
    <= Z.max 5 (Retry.max_attempt b)
  /\ forall k o, nth_error (Retry.doRequests b servers) k = Some o ->
       5 <= Retry.max_attempt b + Z.of_nat (total_waits (firstn k (Retry.doRequests b servers))) ->
       Retry.attempts o = 1%nat.
Proof.
  revert b. induction servers as [|s rest IH]; intros b Hb; cbn [Retry.doRequests].
  - split; [unfold total_waits; cbn; lia | intros [|k] o H; discriminate].
  - assert (E := do_loop_budget (S (Z.to_nat (5 - Retry.max_attempt b)))
                      Retry.DefaultConfig b O s).
    change (Retry.do_loop (S (Z.to_nat (5 - Retry.max_attempt b))) Retry.DefaultConfig b O s)
      with (Retry.doRequest b s) in E.
    destruct E as [E1 E2]. cbn [Retry.MaxRetries Retry.DefaultConfig] in E2.
    destruct (IH (Retry.backoff_after (Retry.doRequest b s))) as [I1 I2]; [lia | ].
    split.
    + unfold total_waits, list_sum in *. cbn [map list_sum fold_right]. lia.
    + intros [|k] o Hk Hle.
      * cbn [nth_error] in Hk. injection Hk as <-. apply doRequest_exhausted.
        unfold total_waits, list_sum in Hle. cbn [firstn map list_sum fold_right] in Hle. lia.
      * cbn [nth_error] in Hk. apply (I2 k o Hk). unfold total_waits, list_sum in *. cbn [firstn map list_sum fold_right] in Hle.
        lia.
Qed.

(** X10. A [Client] keeps one backoff for all its requests. Over any
    sequence of requests through a new client it waits at most 5 delays in
    total, and once 5 delays have been spent every later request makes a
    single attempt. *)
Theorem client_retry_budget servers :
  let outs := Retry.doRequests (Retry.WithBackoff Retry.DefaultConfig) servers in
  (total_waits outs <= 5)%nat
  /\ forall k o, nth_error outs k = Some o ->
       total_waits (firstn k outs) = 5%nat -> Retry.attempts o = 1%nat.
Proof.
  cbn zeta. destruct (doRequests_budget (Retry.WithBackoff Retry.DefaultConfig) servers)
    as [H1 H2]; [cbn; lia | ].
  cbn [Retry.max_attempt Retry.WithBackoff] in H1, H2. split; [lia | ].
  intros k o Hk Hs. apply (H2 k o Hk). lia.
Qed.

Lemma IsRetryable_classify rs e :
  Retry.IsRetryable rs e = true ->
  Retry.classify rs e = Retry.Retryable (match e with Retry.HTTPError c => c | _ => 0 end).
Proof. unfold Retry.classify. destruct e; cbn; intros H; rewrite ?H; congruence. Qed.

Lemma run_all_retryable fuel cfg b n f :
  (forall k, exists c, f k = Retry.Retryable c) ->
  Retry.attempts (Retry.run fuel cfg b n f)
    = Retry.attempts (Retry.run fuel cfg b n (fun _ => Retry.Retryable 0))
  /\ Retry.waits (Retry.run fuel cfg b n f)
    = Retry.waits (Retry.run fuel cfg b n (fun _ => Retry.Retryable 0)).
Proof.
  intros Hf. revert b n. induction fuel as [|fuel IH]; intros b n; cbn; [auto | ].
  destruct (Hf n) as [c ->].
  destruct (Retry.Next cfg b) as [[d|] b']; cbn; [ | auto].
  destruct (IH b' (S n)) as [-> ->]. auto.
Qed.

(** X11. [retry.Do] with the default configuration retries an HTTP error
    exactly when [IsRetryableStatusCode] accepts its status. A nil first
    result ends after one attempt. A non-retryable HTTP status ends after
    one attempt with that status and no delay. If every call fails with a
    retryable error, [Do] makes 6 attempts and waits 1, 2, 4, 8 and 16
    seconds between them. *)
Theorem RetryDo_default fn :
  (forall c, Retry.IsRetryable Retry.DefaultRetryableErrors (Retry.HTTPError c)
             = Retry.IsRetryableStatusCode c)
  /\ (fn O = Retry.ErrNil ->
      Retry.final (Retry.RetryDo Retry.DefaultConfig Retry.DefaultRetryableErrors fn) = Retry.Done
      /\ Retry.attempts (Retry.RetryDo Retry.DefaultConfig Retry.DefaultRetryableErrors fn) = 1%nat)
  /\ (forall c, fn O = Retry.HTTPError c -> Retry.IsRetryableStatusCode c = false ->
      Retry.final (Retry.RetryDo Retry.DefaultConfig Retry.DefaultRetryableErrors fn)
        = Retry.Terminal c
      /\ Retry.attempts (Retry.RetryDo Retry.DefaultConfig Retry.DefaultRetryableErrors fn) = 1%nat
      /\ Retry.waits (Retry.RetryDo Retry.DefaultConfig Retry.DefaultRetryableErrors fn) = [])
  /\ ((forall n, Retry.IsRetryable Retry.DefaultRetryableErrors (fn n) = true) ->
      Retry.attempts (Retry.RetryDo Retry.DefaultConfig Retry.DefaultRetryableErrors fn) = 6%nat
      /\ Retry.waits (Retry.RetryDo Retry.DefaultConfig Retry.DefaultRetryableErrors fn)
         = [1; 2; 4; 8; 16]).
Proof.
  split; [reflexivity | ].
  split; [intros H0; unfold Retry.RetryDo; cbn -[Retry.classify]; rewrite H0; auto | ].
  split.
  - intros c H0 Hc.
    assert (Ec : Retry.classify Retry.DefaultRetryableErrors (fn O) = Retry.Terminal c).
    { rewrite H0. unfold Retry.classify, Retry.IsRetryable.
      change (existsb (fun c0 => Z.eqb c c0) Retry.DefaultRetryableErrors)
        with (Retry.IsRetryableStatusCode c). rewrite Hc. reflexivity. }
    unfold Retry.RetryDo; cbn -[Retry.classify]. rewrite Ec. auto.
  - intros Hall. unfold Retry.RetryDo.
    destruct (run_all_retryable (S (Z.to_nat (Retry.MaxRetries Retry.DefaultConfig)))
                Retry.DefaultConfig (Retry.WithBackoff Retry.DefaultConfig) O
                (fun n => Retry.classify Retry.DefaultRetryableErrors (fn n))) as [-> ->].
    + intros k. eexists. apply IsRetryable_classify, Hall.
    + vm_compute. auto.
Qed.

(* ------------------------------------------------------------------ *)
(** ** Further properties: the webhook handler *)

Lemma validatePayload_ok p :
  Webhook.validatePayload p = None ->
  p.(Webhook.User) <> ""
  /\ (((p.(Webhook.Event) = Webhook.eventAccountCreated
        \/ p.(Webhook.Event) = Webhook.eventAddonCreated
        \/ p.(Webhook.Event) = Webhook.eventAccountDeleted) /\ p.(Webhook.Domain) <> "")
      \/ (p.(Webhook.Event) = Webhook.eventSubdomainCreated
          /\ p.(Webhook.Subdomain) <> "" /\ p.(Webhook.ParentDomain) <> "")).
Proof.
  unfold Webhook.validatePayload.
  destruct (String.eqb_spec (Webhook.User p) "") as [_|HU]; [discriminate | ].
  destruct (String.eqb_spec (Webhook.Event p) Webhook.eventAccountCreated) as [E1|E1];
  destruct (String.eqb_spec (Webhook.Event p) Webhook.eventAddonCreated) as [E2|E2];
  destruct (String.eqb_spec (Webhook.Event p) Webhook.eventAccountDeleted) as [E3|E3];
  cbn;
  try (destruct (String.eqb_spec (Webhook.Domain p) "") as [_|HD]; [discriminate | ];
       intros _; split; [exact HU | left; split; [tauto | exact HD]]).
  destruct (String.eqb_spec (Webhook.Event p) Webhook.eventSubdomainCreated) as [E4|E4];
    [ | discriminate].
  destruct (String.eqb_spec (Webhook.Subdomain p) "") as [_|HS]; [discriminate | ].
  destruct (String.eqb_spec (Webhook.ParentDomain p) "") as [_|HP]; [discriminate | ].
  intros _. split; [exact HU | right; auto].
Qed.

(** X12. [ServeHTTP] answers 202, 400, 401 or 405, and it answers 202
    exactly when it starts a job. A job is started only for a POST whose
    body was read, whose signature verifies, and whose payload decodes
    and passes [validatePayload]. The job matches the event and gets a
    non-empty user and the fields its event needs. *)
Theorem ServeHTTP_spawn hmac json secret r :
  let resp := Webhook.ServeHTTP hmac json secret r in
  (Webhook.StatusCode resp = 202 \/ Webhook.StatusCode resp = 400
   \/ Webhook.StatusCode resp = 401 \/ Webhook.StatusCode resp = 405)
  /\ (Webhook.StatusCode resp = 202 <-> Webhook.Spawned resp <> None)
  /\ (forall j, Webhook.Spawned resp = Some j ->
        r.(Webhook.Method) = "POST"
        /\ (exists body, r.(Webhook.Body) = Some body
            /\ Webhook.verifySignature hmac secret body r.(Webhook.SignatureHdr) = true
            /\ json body = Some (job_payload j))
        /\ Webhook.validatePayload (job_payload j) = None
        /\ job_ready j).
Proof.
  cbn zeta. unfold Webhook.ServeHTTP.
  destruct (String.eqb_spec (Webhook.Method r) "POST") as [HM|HM]; cbn;
    [ | split; [tauto | split; [split; [discriminate | tauto] | discriminate]]].
  destruct (Webhook.Body r) as [body|] eqn:HB; cbn;
    [ | split; [tauto | split; [split; [discriminate | tauto] | discriminate]]].
  destruct (Webhook.verifySignature hmac secret body (Webhook.SignatureHdr r)) eqn:HV; cbn;
    [ | split; [tauto | split; [split; [discriminate | tauto] | discriminate]]].
  destruct (json body) as [p|] eqn:HJ; cbn;
    [ | split; [tauto | split; [split; [discriminate | tauto] | discriminate]]].
  destruct (Webhook.validatePayload p) as [e|] eqn:HP; cbn;
    [split; [tauto | split; [split; [discriminate | tauto] | discriminate]] | ].
  destruct (validatePayload_ok p HP) as [HU Hcases].
  destruct Hcases as [[[Ev|[Ev|Ev]] HD] | [Ev [HS HPD]]]; rewrite Ev; cbn;
    (split; [tauto | split; [split; [discriminate | tauto] | ]]);
    intros j Hj; injection Hj as <-; cbn;
    (split; [exact HM | split; [exists body; auto | split; [exact HP | ]]]);
    cbn; auto 6.
Qed.

(** X13. A POST whose signature header is the hex HMAC of its body (with a
    non-empty digest) and whose body decodes to a payload accepted by
    [validatePayload] is answered with 202 and starts a job for that
    payload. *)
Theorem ServeHTTP_accepts_signed hmac json secret body p :
  hmac (Webhook.bytes_of_string secret) body <> [] ->
  json body = Some p -> Webhook.validatePayload p = None ->
  forall r, r.(Webhook.Method) = "POST" -> r.(Webhook.Body) = Some body ->
  r.(Webhook.SignatureHdr)
    = Webhook.EncodeToString (hmac (Webhook.bytes_of_string secret) body) ->
  Webhook.StatusCode (Webhook.ServeHTTP hmac json secret r) = 202
  /\ exists j, Webhook.Spawned (Webhook.ServeHTTP hmac json secret r) = Some j
               /\ job_payload j = p.
Proof.
  intros Hmac HJ HP r HM HB HS.
  assert (HV : Webhook.verifySignature hmac secret body (Webhook.SignatureHdr r) = true).
  { unfold Webhook.verifySignature. rewrite HS.
    destruct (hmac (Webhook.bytes_of_string secret) body) as [|b bs] eqn:E; [congruence | ].
    destruct (String.eqb_spec (Webhook.EncodeToString (b :: bs)) "") as [H|_];
      [exfalso; revert H; apply EncodeToString_nonempty | ].
    apply Equal_iff. reflexivity. }
  unfold Webhook.ServeHTTP. rewrite HM, HB, HV, HJ, HP. cbn.
  destruct (validatePayload_ok p HP) as [_ Hcases].
  destruct Hcases as [[[Ev|[Ev|Ev]] _] | [Ev _]]; rewrite Ev; cbn;
    (split; [reflexivity | eexists; split; reflexivity]).
Qed.

Lemma ServeHTTP_accepts_signed_witness :
  zero_mac (Webhook.bytes_of_string "k") [] <> []
  /\ demo_json [] = Some (Webhook.mkPayload "account_created" "example.com" "" "" "user1")
  /\ Webhook.validatePayload (Webhook.mkPayload "account_created" "example.com" "" "" "user1")
     = None
  /\ (Webhook.StatusCode (Webhook.ServeHTTP zero_mac demo_json "k"
        (Webhook.mkReq "POST" (Some [])
           (Webhook.EncodeToString (zero_mac (Webhook.bytes_of_string "k") [])))) = 202
      /\ exists j, Webhook.Spawned (Webhook.ServeHTTP zero_mac demo_json "k"
        (Webhook.mkReq "POST" (Some [])
           (Webhook.EncodeToString (zero_mac (Webhook.bytes_of_string "k") [])))) = Some j
        /\ job_payload j = Webhook.mkPayload "account_created" "example.com" "" "" "user1").
Proof.
  split; [discriminate | split; [reflexivity | split; [reflexivity | ]]].
  apply (ServeHTTP_accepts_signed zero_mac demo_json "k" []
           (Webhook.mkPayload "account_created" "example.com" "" "" "user1"));
    [discriminate | reflexivity | reflexivity | reflexivity | reflexivity | reflexivity].
Defined.

(* ------------------------------------------------------------------ *)
(** ** Further properties: subdomains, pull zone names and CDN hostnames *)

#[global] Instance keeps_zones_preorder : PreOrder keeps_zones.
Proof.
  split.
  - intros w. split; [reflexivity | apply calls_grow_preorder].
  - intros w1 w2 w3 [Z12 C12] [Z23 C23]. split; [congruence | ].
    eapply (@PreOrder_Transitive _ _ (calls_grow_preorder _)); eassumption.
Qed.

Ltac keep_prim :=
  intros ?w; cbn;
  repeat (case_match; cbn);
  (split; [reflexivity | ]);
  first [ exists []; rewrite app_nil_r; split; [reflexivity | constructor]
        | eexists; split; [reflexivity | repeat constructor; intros ? ?; discriminate] ].

Lemma keeps_deref p : preserves keeps_zones (deref p).
Proof. unfold deref. keep_prim. Qed.
Lemma keeps_store p r : preserves keeps_zones (store p r).
Proof. unfold store, modify. keep_prim. Qed.
Lemma keeps_alloc r : preserves keeps_zones (alloc r).
Proof. unfold alloc. keep_prim. Qed.
Lemma keeps_lookup_id id : preserves keeps_zones (Manager.lookup_id id).
Proof. unfold Manager.lookup_id. keep_prim. Qed.
Lemma keeps_save : preserves keeps_zones Manager.save.
Proof. unfold Manager.save. keep_prim. Qed.
Lemma keeps_record_call c : (forall z, c <> CDeleteDNSZone z) -> preserves keeps_zones (record_call c).
Proof.
  intros Hc w. split; [reflexivity | ]. exists [c]. split; [reflexivity | repeat constructor; auto].
Qed.
Lemma keeps_fresh_id : preserves keeps_zones Bunny.fresh_id.
Proof. unfold Bunny.fresh_id. keep_prim. Qed.

#[global] Hint Resolve keeps_deref keeps_store keeps_alloc keeps_lookup_id keeps_save
  keeps_fresh_id : frame.
#[global] Hint Extern 1 (preserves keeps_zones (record_call _)) =>
  apply keeps_record_call; intros ? ?; discriminate : frame.
#[global] Hint Extern 2 (preserves keeps_zones (modify _)) => unfold modify; keep_prim : frame.
#[global] Hint Extern 2 (preserves keeps_zones (fun _ => _)) => keep_prim : frame.

Lemma keeps_GetByDomain d : preserves keeps_zones (Manager.GetByDomain d).
Proof. unfold Manager.GetByDomain, Manager.Get. frame_walk. Qed.
Lemma keeps_Delete id : preserves keeps_zones (Manager.Delete id).
Proof. unfold Manager.Delete, Manager.save_or_fail. frame_walk. Qed.
Lemma keeps_GetDNSZone d : preserves keeps_zones (Bunny.GetDNSZone d).
Proof. unfold Bunny.GetDNSZone. bunny_frame. Qed.
Lemma keeps_GetDNSRecords z : preserves keeps_zones (Bunny.GetDNSRecords z).
Proof. unfold Bunny.GetDNSRecords. bunny_frame. Qed.
Lemma keeps_GetPullZone z : preserves keeps_zones (Bunny.GetPullZone z).
Proof. unfold Bunny.GetPullZone. bunny_frame. Qed.
Lemma keeps_GetPullZoneByName n : preserves keeps_zones (Bunny.GetPullZoneByName n).
Proof. unfold Bunny.GetPullZoneByName, Bunny.ListPullZones. bunny_frame. Qed.
Lemma keeps_DeleteDNSRecord z i : preserves keeps_zones (Bunny.DeleteDNSRecord z i).
Proof. unfold Bunny.DeleteDNSRecord, Bunny.upd_prov. bunny_frame. Qed.
Lemma keeps_DeletePullZone z : preserves keeps_zones (Bunny.DeletePullZone z).
Proof. unfold Bunny.DeletePullZone, Bunny.upd_prov. bunny_frame. Qed.
#[global] Hint Resolve keeps_GetByDomain keeps_Delete keeps_GetDNSZone keeps_GetDNSRecords
  keeps_GetPullZone keeps_GetPullZoneByName keeps_DeleteDNSRecord keeps_DeletePullZone : frame.

Lemma keeps_deletePullZone z : preserves keeps_zones (Deprovisioner.deletePullZone z).
Proof. unfold Deprovisioner.deletePullZone. frame_walk. Qed.
Lemma keeps_deleteSubdomainCNAME z s f :
  preserves keeps_zones (Deprovisioner.deleteSubdomainCNAME z s f).
Proof. unfold Deprovisioner.deleteSubdomainCNAME. frame_walk. Qed.
#[global] Hint Resolve keeps_deletePullZone keeps_deleteSubdomainCNAME : frame.

(** X14. Neither [DeprovisionSubdomain] nor [RemoveSubdomain] deletes a DNS
    zone: the provider's zones are unchanged and no zone deletion request
    is sent, whatever the outcome. *)
Theorem subdomain_teardown_keeps_zones sub parent w :
  keeps_zones w (snd (Deprovisioner.DeprovisionSubdomain sub parent w))
  /\ keeps_zones w (snd (SubdomainProvisioner.RemoveSubdomain sub parent w)).
Proof.
  split; [refine ((_ : preserves keeps_zones _) w) | refine ((_ : preserves keeps_zones _) w)].
  - unfold Deprovisioner.DeprovisionSubdomain, Deprovisioner.deprovisionSubdomainByName.
    frame_walk.
  - unfold SubdomainProvisioner.RemoveSubdomain. frame_walk.
Qed.

Lemma DeleteDNSRecord_store z i : preserves same_store (Bunny.DeleteDNSRecord z i).
Proof. unfold Bunny.DeleteDNSRecord. bunny_frame. Qed.
Lemma DeleteDNSRecord_no_panic z i : no_panic (Bunny.DeleteDNSRecord z i).
Proof. unfold Bunny.DeleteDNSRecord. bunny_frame. Qed.
#[global] Hint Resolve DeleteDNSRecord_store DeleteDNSRecord_no_panic : frame.
Lemma deleteSubdomainCNAME_store z s f :
  preserves same_store (Deprovisioner.deleteSubdomainCNAME z s f).
Proof. unfold Deprovisioner.deleteSubdomainCNAME. frame_walk. Qed.
Lemma deleteSubdomainCNAME_no_panic z s f :
  no_panic (Deprovisioner.deleteSubdomainCNAME z s f).
Proof. unfold Deprovisioner.deleteSubdomainCNAME. frame_walk. Qed.
#[global] Hint Resolve deleteSubdomainCNAME_store deleteSubdomainCNAME_no_panic : frame.

Lemma run_total_store {A B} (m : M A) (k : A -> M B) w :
  total m -> preserves same_store m ->
  exists a, bind m k w = k a (snd (m w)) /\ same_store w (snd (m w)).
Proof.
  intros Ht Hs. destruct (Ht w) as [a Ha]. exists a. split; [ | apply Hs].
  apply bind_run. destruct (m w) as [r w1]. cbn in Ha. subst. reflexivity.
Qed.

(** The manager forgets a record it holds, in memory, whether or not
    the save that follows succeeds; [try] hands any save error back as a
    value. *)
Lemma try_Delete_forgets id w q r :
  w.(states) !! id = Some q -> w.(heap) !! q = Some r ->
  exists x w', try (Manager.Delete id) w = (ROk x, w')
    /\ w'.(states) !! id = None /\ w'.(domainIndex) !! r.(Domain) = None.
Proof.
  intros Hs Hh. unfold Manager.Delete.
  set (w2 := with_domainIndex (delete (Domain r) (domainIndex w))
               (with_states (delete id (states w)) w)).
  pose proof (save_or_fail_outcome w2) as Hout.
  destruct (Manager.save_or_fail w2) as [res w3] eqn:E.
  apply save_or_fail_mem in E as Em. destruct Em as (_ & _ & Hs3 & Hi3 & _).
  assert (Hb : bind (Manager.lookup_id id)
                 (fun p => bind (deref p) (fun r0 =>
                   bind (modify (fun w0 => with_domainIndex (delete (Domain r0) (domainIndex w0))
                                    (with_states (delete id (states w0)) w0)))
                        (fun _ => Manager.save_or_fail))) w = (res, w3)).
  { rewrite (bind_run _ _ _ q w) by (unfold Manager.lookup_id; rewrite Hs; reflexivity).
    rewrite (bind_run _ _ _ r w) by (unfold deref; rewrite Hh; reflexivity).
    rewrite (bind_run _ _ _ tt w2) by reflexivity. exact E. }
  cbn in Hout. destruct Hout as [-> | ->].
  - exists (inl tt), w3. unfold try. rewrite Hb.
    split; [reflexivity | ]. rewrite Hs3, Hi3. cbn. split; apply lookup_delete_eq.
  - eexists; exists w3. unfold try. rewrite Hb.
    split; [reflexivity | ]. rewrite Hs3, Hi3. cbn. split; apply lookup_delete_eq.
Qed.

Ltac mid_step S :=
  match goal with
  | |- context [bind ?m ?k ?w] =>
      let a := fresh "a" in let E := fresh "E" in
      destruct (run_total_store m k w) as (a & E & S);
      [total_walk | frame_walk | rewrite E; clear E]
  end.

(** X15. For a subdomain whose record is stored consistently,
    [DeprovisionSubdomain] and [RemoveSubdomain] return nil and the
    record is gone from the manager (its id and its full domain), whatever
    the provider calls and the save do. *)
Theorem subdomain_teardown_forgets_state sub parent w id q r :
  w.(domainIndex) !! (sub ++ "." ++ parent) = Some id ->
  w.(states) !! id = Some q -> w.(heap) !! q = Some r ->
  r.(ID) = id -> r.(Domain) = sub ++ "." ++ parent ->
  (let (res, w') := Deprovisioner.DeprovisionSubdomain sub parent w in
   res = ROk tt /\ w'.(domainIndex) !! (sub ++ "." ++ parent) = None
   /\ w'.(states) !! id = None)
  /\ (let (res, w') := SubdomainProvisioner.RemoveSubdomain sub parent w in
      res = ROk tt /\ w'.(domainIndex) !! (sub ++ "." ++ parent) = None
      /\ w'.(states) !! id = None).
Proof.
  intros Hi Hs Hh Hid Hdom.
  set (p := nextLoc w).
  set (w1 := with_nextLoc (S p) (with_heap (<[p := r]> w.(heap)) w)).
  assert (Hg : Manager.GetByDomain (sub ++ "." ++ parent) w = (ROk p, w1)).
  { unfold Manager.GetByDomain, Manager.Get, Manager.lookup_id, bind, deref, alloc.
    rewrite Hi. cbn. rewrite Hs, Hh. reflexivity. }
  assert (Hd1 : deref p w1 = (ROk r, w1)).
  { unfold deref. cbn. rewrite lookup_insert_eq. reflexivity. }
  (* after the provider calls, the store is still [w1]'s *)
  assert (Hfin : forall w3, same_store w1 w3 ->
            exists x w', try (Manager.Delete (ID r)) w3 = (ROk x, w')
              /\ w'.(states) !! id = None /\ w'.(domainIndex) !! (sub ++ "." ++ parent) = None).
  { intros w3 (Hh3 & _ & Hs3 & _).
    assert (Hs' : states w3 !! ID r = Some q) by (rewrite Hs3, Hid; exact Hs).
    assert (Hh' : heap w3 !! q = Some r).
    { rewrite Hh3. cbn. destruct (decide (q = p)) as [->|Hne].
      - apply lookup_insert_eq.
      - rewrite lookup_insert_ne by congruence. exact Hh. }
    destruct (try_Delete_forgets _ _ _ _ Hs' Hh') as (x & w' & E & H1 & H2).
    exists x, w'. rewrite <- Hid, <- Hdom. auto. }
  split.
  - unfold Deprovisioner.DeprovisionSubdomain.
    rewrite (bind_run _ _ _ (inl p) w1) by (unfold try; rewrite Hg; reflexivity).
    cbv beta iota. rewrite (bind_run _ _ _ _ _ Hd1).
    mid_step S1. mid_step S2.
    destruct (Hfin _ (transitivity S1 S2)) as (x & w' & E & H1 & H2).
    rewrite (bind_run _ _ _ _ _ E). cbn. auto.
  - unfold SubdomainProvisioner.RemoveSubdomain.
    rewrite (bind_run _ _ _ p w1) by (unfold wrap; rewrite Hg; reflexivity).
    rewrite (bind_run _ _ _ _ _ Hd1).
    mid_step S1. mid_step S2.
    destruct (Hfin _ (transitivity S1 S2)) as (x & w' & E & H1 & H2).
    rewrite (bind_run _ _ _ _ _ E). cbn. auto.
Qed.

Lemma subdomain_teardown_forgets_state_witness :
  let w := snd (Manager.Create "blog.example.com" demo_world) in
  w.(domainIndex) !! ("blog" ++ "." ++ "example.com") = Some "id1"
  /\ w.(states) !! "id1" = Some 0%nat
  /\ w.(heap) !! 0%nat = Some (demo_rec "blog.example.com")
  /\ (let (res, w') := Deprovisioner.DeprovisionSubdomain "blog" "example.com" w in
      res = ROk tt /\ w'.(domainIndex) !! ("blog" ++ "." ++ "example.com") = None
      /\ w'.(states) !! "id1" = None)
  /\ (let (res, w') := SubdomainProvisioner.RemoveSubdomain "blog" "example.com" w in
      res = ROk tt /\ w'.(domainIndex) !! ("blog" ++ "." ++ "example.com") = None
      /\ w'.(states) !! "id1" = None).
Proof.
  cbv zeta.
  assert (H1 : (snd (Manager.Create "blog.example.com" demo_world)).(domainIndex)
                 !! ("blog" ++ "." ++ "example.com") = Some "id1") by (vm_compute; reflexivity).
  assert (H2 : (snd (Manager.Create "blog.example.com" demo_world)).(states) !! "id1"
                 = Some 0%nat) by (vm_compute; reflexivity).
  assert (H3 : (snd (Manager.Create "blog.example.com" demo_world)).(heap) !! 0%nat
                 = Some (demo_rec "blog.example.com")) by (vm_compute; reflexivity).
  split; [exact H1 | split; [exact H2 | split; [exact H3 | ]]].
  apply (subdomain_teardown_forgets_state "blog" "example.com" _ "id1" 0%nat _ H1 H2 H3);
    reflexivity.
Defined.

(** X16. [RemoveSubdomain] of a subdomain with no state record fails with
    "subdomain state not found: state not found" and changes nothing. *)
Theorem RemoveSubdomain_missing sub parent w :
  w.(domainIndex) !! (sub ++ "." ++ parent) = None ->
  SubdomainProvisioner.RemoveSubdomain sub parent w
  = (RErr ("subdomain state not found: " ++ ErrStateNotFound), w).
Proof.
  intros Hi. unfold SubdomainProvisioner.RemoveSubdomain, bind at 1, wrap.
  rewrite (GetByDomain_missing _ _ Hi). reflexivity.
Qed.

(** X17. If the record of [subdomain.parent] has status success,
    [ProvisionSubdomain] returns nil at once; its only effect is the copy
    [GetByDomain] allocates. *)
Theorem ProvisionSubdomain_skips_success cfg sub parent user w id q r :
  w.(domainIndex) !! (sub ++ "." ++ parent) = Some id ->
  w.(states) !! id = Some q ->
  w.(heap) !! q = Some r ->
  r.(Status) = StatusSuccess ->
  Provisioner.ProvisionSubdomain cfg sub parent user w
  = (ROk tt, with_nextLoc (S w.(nextLoc)) (with_heap (<[w.(nextLoc) := r]> w.(heap)) w)).
Proof.
  intros Hd Hs Hh Hst.
  unfold Provisioner.ProvisionSubdomain, Manager.GetByDomain, Manager.Get, Manager.lookup_id,
    bind, try, deref, alloc, ret.
  rewrite Hd. cbn. rewrite Hs, Hh. cbn. rewrite lookup_insert_eq, Hst. reflexivity.
Qed.

Lemma all_from_spec f n r :
  all_from f n r = true -> forall k, (r <= k < r + Z.of_nat n)%Z -> f k = true.
Proof.
  revert r. induction n as [|n IH]; intros r H k Hk; [lia | ].
  cbn in H. destruct (f r) eqn:Ef; [ | discriminate].
  destruct (Z.eq_dec k r) as [->|Hne]; [exact Ef | ].
  apply (IH (r + 1)%Z H). lia.
Qed.

Lemma byte_range c : (0 <= utf8.byte c < 256)%Z.
Proof. unfold utf8.byte. pose proof (N_ascii_bounded c). lia. Qed.

Lemma of_byte_byte c : utf8.of_byte (utf8.byte c) = c.
Proof. unfold utf8.of_byte, utf8.byte. rewrite N2Z.id. apply ascii_N_embedding. Qed.

Lemma byte_at_range s k : (0 <= utf8.byte_at s k < 256)%Z.
Proof. unfold utf8.byte_at. destruct (String.get k s); [apply byte_range | lia]. Qed.

Lemma first_cases b :
  (b < 0x80 /\ utf8.first b = utf8.as_) \/
  ((0x80 <= b < 0xC2 \/ 0xF5 <= b) /\ utf8.first b = utf8.xx) \/
  (0xC2 <= b < 0xE0 /\ utf8.first b = utf8.s1) \/
  (b = 0xE0 /\ utf8.first b = utf8.s2) \/
  ((0xE1 <= b < 0xED \/ 0xEE <= b < 0xF0) /\ utf8.first b = utf8.s3) \/
  (b = 0xED /\ utf8.first b = utf8.s4) \/
  (b = 0xF0 /\ utf8.first b = utf8.s5) \/
  (0xF1 <= b < 0xF4 /\ utf8.first b = utf8.s6) \/
  (b = 0xF4 /\ utf8.first b = utf8.s7).
Proof.
  unfold utf8.first.
  repeat match goal with
  | |- context [if ?c then _ else _] => destruct c eqn:?
  end;
  repeat match goal with
  | H : (_ <? _)%Z = true |- _ => apply Z.ltb_lt in H
  | H : (_ <? _)%Z = false |- _ => apply Z.ltb_ge in H
  | H : (_ =? _)%Z = true |- _ => apply Z.eqb_eq in H
  | H : (_ =? _)%Z = false |- _ => apply Z.eqb_neq in H
  end;
  unfold utf8.as_, utf8.xx, utf8.s1, utf8.s2, utf8.s3, utf8.s4, utf8.s5, utf8.s6, utf8.s7; lia.
Qed.

Lemma first_multi b :
  (utf8.as_ <=? utf8.first b)%Z = false ->
  (2 <= Z.to_nat (Z.land (utf8.first b) 7) <= 4)%nat
  /\ (0x80 <= fst (utf8.acceptRanges (Z.shiftr (utf8.first b) 4)))%Z
  /\ (snd (utf8.acceptRanges (Z.shiftr (utf8.first b) 4)) <= 0xBF)%Z.
Proof.
  intros H.
  destruct (first_cases b) as [[_ E]|[[_ E]|[[_ E]|[[_ E]|[[_ E]|[[_ E]|[[_ E]|[[_ E]|[_ E]]]]]]]]];
    rewrite E in *; vm_compute in H; try discriminate;
    vm_compute; repeat split; try (intro; discriminate); auto with arith.
Qed.

Lemma str_length_app s t : String.length (s ++ t) = (String.length s + String.length t)%nat.
Proof. induction s as [|c s IH]; simpl; [reflexivity | rewrite IH; reflexivity]. Qed.

Lemma length_replace_dots s : String.length (replace_dots s) = String.length s.
Proof. induction s as [|c s IH]; simpl; [reflexivity | rewrite IH; reflexivity]. Qed.

Lemma byte_at_app s t k :
  (k < String.length s)%nat -> utf8.byte_at (s ++ t) k = utf8.byte_at s k.
Proof.
  revert k. induction s as [|c s IH]; intros k Hk; cbn in Hk; [lia | ].
  destruct k as [|k]; [reflexivity | ].
  apply (IH k). lia.
Qed.

Lemma byte_dot c : utf8.byte c = 46%Z -> c = "."%char.
Proof. intros H. rewrite <- (of_byte_byte c), H. reflexivity. Qed.

Lemma byte_at_replace_dots s k :
  utf8.byte_at (replace_dots s) k = rdb (utf8.byte_at s k).
Proof.
  revert k. induction s as [|c s IH]; intros k; [reflexivity | ].
  destruct k as [|k]; [ | apply IH].
  cbn [replace_dots]. unfold utf8.byte_at at 1 2. cbn [String.get].
  destruct (Ascii.eqb_spec c "."%char) as [->|Hc]; [reflexivity | ].
  unfold rdb. destruct (Z.eqb_spec (utf8.byte c) 46) as [E|E]; [ | reflexivity].
  apply byte_dot in E. contradiction.
Qed.

Lemma str_drop_length n s :
  String.length (str_drop n s) = (String.length s - n)%nat.
Proof.
  revert s. induction n as [|n IH]; intros s; cbn; [lia | ].
  destruct s as [|c s]; cbn; [reflexivity | apply IH].
Qed.

Lemma str_drop_replace_dots n s :
  str_drop n (replace_dots s) = replace_dots (str_drop n s).
Proof.
  revert s. induction n as [|n IH]; intros s; [reflexivity | ].
  destruct s as [|c s]; [reflexivity | apply IH].
Qed.

Lemma str_drop_app s t : str_drop (String.length s) (s ++ t) = t.
Proof. induction s as [|c s IH]; [reflexivity | exact IH]. Qed.

Ltac bool_facts :=
  repeat match goal with
  | H : (_ <? _)%nat = true |- _ => apply Nat.ltb_lt in H
  | H : (_ <? _)%nat = false |- _ => apply Nat.ltb_ge in H
  | H : (_ <=? _)%nat = true |- _ => apply Nat.leb_le in H
  | H : (_ <=? _)%nat = false |- _ => apply Nat.leb_gt in H
  | H : (_ <? _)%Z = true |- _ => apply Z.ltb_lt in H
  | H : (_ <? _)%Z = false |- _ => apply Z.ltb_ge in H
  | H : (_ <=? _)%Z = true |- _ => apply Z.leb_le in H
  | H : (_ <=? _)%Z = false |- _ => apply Z.leb_gt in H
  | H : (_ || _) = false |- _ => apply orb_false_iff in H as [? ?]
  | H : (_ || _) = true |- _ => apply orb_true_iff in H as [H|H]
  end.

(** Splits every test of [DecodeRuneInString] in [H], recording the
    length facts of [first] on the multi-byte path. *)
Ltac split_decode H :=
  repeat match type of H with
  | context [if ?c then _ else _] => let E := fresh "E" in destruct c eqn:E
  end.

Ltac first_facts :=
  repeat match goal with
  | E : (utf8.as_ <=? utf8.first ?b)%Z = false |- _ =>
      let F := fresh "F" in pose proof (first_multi b E) as F; clear E
  end.

Lemma decode_ascii c t :
  (utf8.byte c < 0x80)%Z -> utf8.DecodeRuneInString (String c t) = (utf8.byte c, 1%nat).
Proof.
  intros Hc. unfold utf8.DecodeRuneInString. cbv zeta.
  change (utf8.byte_at (String c t) 0) with (utf8.byte c).
  change (String.length (String c t)) with (S (String.length t)).
  replace (utf8.first (utf8.byte c)) with utf8.as_
    by (unfold utf8.first; destruct (Z.ltb_spec (utf8.byte c) 0x80); [reflexivity | lia]).
  reflexivity.
Qed.

Lemma decode_width s c w :
  utf8.DecodeRuneInString s = (c, w) -> s <> EmptyString ->
  (1 <= w <= String.length s)%nat.
Proof.
  intros H Hs. destruct s as [|a t]; [congruence | ].
  unfold utf8.DecodeRuneInString in H. cbv zeta in H.
  split_decode H; first_facts; injection H as <- <-; bool_facts; cbn [String.length] in *; lia.
Qed.

Lemma replace_dots_app s t : replace_dots (s ++ t) = replace_dots s ++ replace_dots t.
Proof. induction s as [|c s IH]; simpl; [reflexivity | rewrite IH; reflexivity]. Qed.

Lemma decode_congr s s' :
  String.length s' = String.length s ->
  utf8.byte_at s' 0 = utf8.byte_at s 0 ->
  (forall k, (1 <= k <= 3)%nat ->
     utf8.byte_at s' k = utf8.byte_at s k
     \/ (utf8.byte_at s' k < 0x80 /\ utf8.byte_at s k < 0x80)%Z) ->
  utf8.DecodeRuneInString s' = utf8.DecodeRuneInString s.
Proof.
  intros Hl H0 Hk. unfold utf8.DecodeRuneInString. cbv zeta. rewrite Hl, H0.
  destruct (String.length s <? 1)%nat; [reflexivity | ].
  destruct (utf8.as_ <=? utf8.first (utf8.byte_at s 0))%Z eqn:Ex; [reflexivity | ].
  destruct (first_multi _ Ex) as (_ & Hlo & _).
  destruct (Hk 1%nat ltac:(lia)) as [E1|[L1 L1']].
  - rewrite E1.
    destruct (Hk 2%nat ltac:(lia)) as [E2|[L2 L2']].
    + rewrite E2.
      destruct (Hk 3%nat ltac:(lia)) as [E3|[L3 L3']].
      * rewrite E3. reflexivity.
      * rewrite (proj2 (Z.ltb_lt _ utf8.locb) L3), (proj2 (Z.ltb_lt _ utf8.locb) L3').
        reflexivity.
    + rewrite (proj2 (Z.ltb_lt _ utf8.locb) L2), (proj2 (Z.ltb_lt _ utf8.locb) L2').
      reflexivity.
  - rewrite (proj2 (Z.ltb_lt (utf8.byte_at s' 1) _) (Z.lt_le_trans _ _ _ L1 Hlo)),
            (proj2 (Z.ltb_lt (utf8.byte_at s 1) _) (Z.lt_le_trans _ _ _ L1' Hlo)).
    reflexivity.
Qed.

Lemma decode_replace_dots c t :
  utf8.DecodeRuneInString (replace_dots (String c t))
  = if Ascii.eqb c "."%char then (45%Z, 1%nat) else utf8.DecodeRuneInString (String c t).
Proof.
  destruct (Ascii.eqb_spec c "."%char) as [->|Hc].
  - cbn [replace_dots Ascii.eqb]. rewrite decode_ascii; [reflexivity | vm_compute; reflexivity].
  - apply decode_congr.
    + apply length_replace_dots.
    + rewrite byte_at_replace_dots. unfold rdb.
      change (utf8.byte_at (String c t) 0) with (utf8.byte c).
      destruct (Z.eqb_spec (utf8.byte c) 46) as [E|E]; [ | reflexivity].
      apply byte_dot in E. contradiction.
    + intros k _. rewrite byte_at_replace_dots. unfold rdb.
      destruct (Z.eqb_spec (utf8.byte_at (String c t) k) 46) as [E|E]; [ | left; reflexivity].
      right. lia.
Qed.

Lemma decode_app s t c w :
  utf8.DecodeRuneInString s = (c, w) -> (2 <= w)%nat ->
  utf8.DecodeRuneInString (s ++ t) = (c, w).
Proof.
  intros H Hw. destruct s as [|a s0]; [cbv in H; injection H as _ <-; lia | ].
  remember (String a s0) as s eqn:Hs.
  assert (Hl : (1 <= String.length s)%nat) by (subst s; cbn; lia).
  unfold utf8.DecodeRuneInString in H |- *. cbv zeta in H |- *.
  rewrite str_length_app, (byte_at_app s t 0) by lia.
  split_decode H; first_facts; injection H as <- <-; try lia.
  all: bool_facts.
  all: rewrite ?(byte_at_app s t 1) by lia; rewrite ?(byte_at_app s t 2) by lia;
       rewrite ?(byte_at_app s t 3) by lia.
  all: repeat match goal with
       | |- context [if ?c then _ else _] => let E := fresh "G" in destruct c eqn:E
       end.
  all: bool_facts; try reflexivity.
  all: exfalso; lia.
Qed.

Lemma valid_rune_intro r :
  (0 <= r <= 0x10FFFF)%Z -> ~ (0xD800 <= r <= 0xDFFF)%Z -> valid_rune r = true.
Proof.
  intros H1 H2. unfold valid_rune, utf8.MaxRune, utf8.surrogateMin, utf8.surrogateMax.
  destruct (Z.leb_spec 0 r), (Z.leb_spec r 0x10FFFF), (Z.leb_spec 0xD800 r), (Z.leb_spec r 0xDFFF);
    cbn; lia.
Qed.

Lemma valid_rune_elim r :
  valid_rune r = true -> (0 <= r <= 0x10FFFF)%Z /\ ~ (0xD800 <= r <= 0xDFFF)%Z.
Proof.
  unfold valid_rune, utf8.MaxRune, utf8.surrogateMin, utf8.surrogateMax.
  destruct (Z.leb_spec 0 r), (Z.leb_spec r 0x10FFFF), (Z.leb_spec 0xD800 r), (Z.leb_spec r 0xDFFF);
    cbn; intros Hv; try discriminate; lia.
Qed.

Lemma land_shiftl_small a b k :
  (0 <= k)%Z -> (0 <= b < 2 ^ k)%Z -> Z.land (Z.shiftl a k) b = 0%Z.
Proof.
  intros Hk Hb. apply Z.bits_inj'. intros i Hi. rewrite Z.land_spec, Z.bits_0.
  destruct (Z.lt_ge_cases i k) as [Hik|Hik].
  - rewrite Z.shiftl_spec_low by lia. reflexivity.
  - destruct (Z.eq_dec b 0) as [->|Hb0]; [rewrite Z.bits_0; apply andb_false_r | ].
    rewrite (Z.bits_above_log2 b i); [apply andb_false_r | lia | ].
    apply Z.log2_lt_pow2; [lia | ].
    apply Z.lt_le_trans with (2 ^ k)%Z; [lia | apply Z.pow_le_mono_r; lia].
Qed.

Lemma lor_add x b k :
  (0 <= k)%Z -> (x mod 2 ^ k = 0)%Z -> (0 <= b < 2 ^ k)%Z -> Z.lor x b = (x + b)%Z.
Proof.
  intros Hk Hx Hb.
  assert (Ex : x = Z.shiftl (x / 2 ^ k) k).
  { rewrite Z.shiftl_mul_pow2 by lia. pose proof (Z.div_mod x (2 ^ k)) as D.
    assert (2 ^ k <> 0)%Z by (apply Z.pow_nonzero; lia). lia. }
  pose proof (land_shiftl_small (x / 2 ^ k) b k Hk Hb) as L. rewrite <- Ex in L.
  rewrite <- Z.lxor_lor by exact L. rewrite Z.add_nocarry_lxor by exact L. reflexivity.
Qed.

Lemma land_mask b m k : (0 <= k)%Z -> m = Z.ones k -> Z.land b m = (b mod 2 ^ k)%Z.
Proof. intros Hk ->. apply Z.land_ones. exact Hk. Qed.

Lemma dec2_val b0 b1 :
  Z.lor (Z.shiftl (Z.land b0 utf8.mask2) 6) (Z.land b1 utf8.maskx)
  = ((b0 mod 32) * 64 + b1 mod 64)%Z.
Proof.
  rewrite (land_mask b0 _ 5), (land_mask b1 _ 6) by (reflexivity || lia).
  rewrite Z.shiftl_mul_pow2 by lia.
  rewrite (lor_add _ _ 6); [reflexivity | lia | | ].
  - change (2 ^ 6)%Z with 64%Z. change (2 ^ 5)%Z with 32%Z. rewrite Z.mod_mul; lia.
  - change (2 ^ 6)%Z with 64%Z. pose proof (Z.mod_pos_bound b1 64). lia.
Qed.

Lemma dec3_val b0 b1 b2 :
  Z.lor (Z.lor (Z.shiftl (Z.land b0 utf8.mask3) 12) (Z.shiftl (Z.land b1 utf8.maskx) 6))
        (Z.land b2 utf8.maskx)
  = ((b0 mod 16) * 4096 + (b1 mod 64) * 64 + b2 mod 64)%Z.
Proof.
  rewrite (land_mask b0 _ 4), (land_mask b1 _ 6), (land_mask b2 _ 6) by (reflexivity || lia).
  rewrite !Z.shiftl_mul_pow2 by lia. change (2 ^ 12)%Z with 4096%Z. change (2 ^ 6)%Z with 64%Z.
  change (2 ^ 4)%Z with 16%Z.
  pose proof (Z.mod_pos_bound b1 64). pose proof (Z.mod_pos_bound b2 64).
  rewrite (lor_add (b0 mod 16 * 4096) _ 12); [ | lia | | ].
  2: { change (2 ^ 12)%Z with 4096%Z. apply Z.mod_mul. lia. }
  2: { change (2 ^ 12)%Z with 4096%Z. lia. }
  rewrite (lor_add _ _ 6); [lia | lia | | ].
  - change (2 ^ 6)%Z with 64%Z.
    replace (b0 mod 16 * 4096 + b1 mod 64 * 64)%Z with ((b0 mod 16 * 64 + b1 mod 64) * 64)%Z by lia.
    apply Z.mod_mul. lia.
  - change (2 ^ 6)%Z with 64%Z. lia.
Qed.

Lemma dec4_val b0 b1 b2 b3 :
  Z.lor (Z.lor (Z.lor (Z.shiftl (Z.land b0 utf8.mask4) 18) (Z.shiftl (Z.land b1 utf8.maskx) 12))
               (Z.shiftl (Z.land b2 utf8.maskx) 6)) (Z.land b3 utf8.maskx)
  = ((b0 mod 8) * 262144 + (b1 mod 64) * 4096 + (b2 mod 64) * 64 + b3 mod 64)%Z.
Proof.
  rewrite (land_mask b0 _ 3), (land_mask b1 _ 6), (land_mask b2 _ 6), (land_mask b3 _ 6)
    by (reflexivity || lia).
  rewrite !Z.shiftl_mul_pow2 by lia. change (2 ^ 18)%Z with 262144%Z.
  change (2 ^ 12)%Z with 4096%Z. change (2 ^ 6)%Z with 64%Z. change (2 ^ 3)%Z with 8%Z.
  pose proof (Z.mod_pos_bound b1 64). pose proof (Z.mod_pos_bound b2 64).
  pose proof (Z.mod_pos_bound b3 64).
  rewrite (lor_add (b0 mod 8 * 262144) _ 18); [ | lia | | ].
  2: { change (2 ^ 18)%Z with 262144%Z. apply Z.mod_mul. lia. }
  2: { change (2 ^ 18)%Z with 262144%Z. lia. }
  rewrite (lor_add (b0 mod 8 * 262144 + b1 mod 64 * 4096) _ 12); [ | lia | | ].
  2: { change (2 ^ 12)%Z with 4096%Z.
       replace (b0 mod 8 * 262144 + b1 mod 64 * 4096)%Z
         with ((b0 mod 8 * 64 + b1 mod 64) * 4096)%Z by lia.
       apply Z.mod_mul. lia. }
  2: { change (2 ^ 12)%Z with 4096%Z. lia. }
  rewrite (lor_add _ _ 6); [lia | lia | | ].
  - change (2 ^ 6)%Z with 64%Z.
    replace (b0 mod 8 * 262144 + b1 mod 64 * 4096 + b2 mod 64 * 64)%Z
      with ((b0 mod 8 * 4096 + b1 mod 64 * 64 + b2 mod 64) * 64)%Z by lia.
    apply Z.mod_mul. lia.
  - change (2 ^ 6)%Z with 64%Z. lia.
Qed.

Lemma first_as b :
  (utf8.as_ <=? utf8.first b)%Z = true -> Z.odd (utf8.first b) = false -> (b < 0x80)%Z.
Proof.
  intros H1 H2.
  destruct (first_cases b) as [[? E]|[[_ E]|[[_ E]|[[_ E]|[[_ E]|[[_ E]|[[_ E]|[[_ E]|[_ E]]]]]]]]];
    [exact H | ..]; rewrite E in *; vm_compute in H1, H2; discriminate.
Qed.

Lemma first_multi_cases b :
  (utf8.as_ <=? utf8.first b)%Z = false ->
  (0xC2 <= b < 0xE0 /\ Z.to_nat (Z.land (utf8.first b) 7) = 2%nat
     /\ utf8.acceptRanges (Z.shiftr (utf8.first b) 4) = (0x80, 0xBF)) \/
  (b = 0xE0 /\ Z.to_nat (Z.land (utf8.first b) 7) = 3%nat
     /\ utf8.acceptRanges (Z.shiftr (utf8.first b) 4) = (0xA0, 0xBF)) \/
  ((0xE1 <= b < 0xED \/ 0xEE <= b < 0xF0) /\ Z.to_nat (Z.land (utf8.first b) 7) = 3%nat
     /\ utf8.acceptRanges (Z.shiftr (utf8.first b) 4) = (0x80, 0xBF)) \/
  (b = 0xED /\ Z.to_nat (Z.land (utf8.first b) 7) = 3%nat
     /\ utf8.acceptRanges (Z.shiftr (utf8.first b) 4) = (0x80, 0x9F)) \/
  (b = 0xF0 /\ Z.to_nat (Z.land (utf8.first b) 7) = 4%nat
     /\ utf8.acceptRanges (Z.shiftr (utf8.first b) 4) = (0x90, 0xBF)) \/
  (0xF1 <= b < 0xF4 /\ Z.to_nat (Z.land (utf8.first b) 7) = 4%nat
     /\ utf8.acceptRanges (Z.shiftr (utf8.first b) 4) = (0x80, 0xBF)) \/
  (b = 0xF4 /\ Z.to_nat (Z.land (utf8.first b) 7) = 4%nat
     /\ utf8.acceptRanges (Z.shiftr (utf8.first b) 4) = (0x80, 0x8F)).
Proof.
  intros H.
  destruct (first_cases b) as [[? E]|[[? E]|[[? E]|[[? E]|[[? E]|[[? E]|[[? E]|[[? E]|[? E]]]]]]]]];
    rewrite E in *; vm_compute in H; try discriminate;
    repeat (first [ left; split; [lia | split; reflexivity] | right ]);
    split; [lia | split; reflexivity].
Qed.

Lemma decode_valid a t c w :
  utf8.DecodeRuneInString (String a t) = (c, w) ->
  valid_rune c = true /\ ((c < 0x80)%Z -> c = utf8.byte a /\ w = 1%nat).
Proof.
  intros H. unfold utf8.DecodeRuneInString in H. cbv zeta in H.
  change (utf8.byte_at (String a t) 0) with (utf8.byte a) in H.
  pose proof (byte_range a).
  pose proof (byte_at_range (String a t) 1). pose proof (byte_at_range (String a t) 2).
  pose proof (byte_at_range (String a t) 3).
  split_decode H.
  all: try match goal with
       | E : (utf8.as_ <=? utf8.first _)%Z = true, E' : Z.odd _ = false |- _ =>
           pose proof (first_as _ E E')
       end.
  all: try match goal with
       | E : (utf8.as_ <=? utf8.first _)%Z = false |- _ =>
           destruct (first_multi_cases _ E)
             as [(? & Hsz & Hacc)|[(? & Hsz & Hacc)|[(? & Hsz & Hacc)|[(? & Hsz & Hacc)|
                 [(? & Hsz & Hacc)|[(? & Hsz & Hacc)|(? & Hsz & Hacc)]]]]]];
           rewrite ?Hsz, ?Hacc in *
       end.
  all: injection H as <- <-; rewrite ?dec2_val, ?dec3_val, ?dec4_val; bool_facts; cbn [fst snd] in *.
  all: try (split; [reflexivity | unfold utf8.RuneError; lia]).
  all: try (split; [apply valid_rune_intro; lia | lia]).
  all: split; [apply valid_rune_intro | intros]; Z.to_euclidean_division_equations; lia.
Qed.

Lemma lower_ok_ascii : all_from lower_ok 128 0 = true.
Proof. vm_compute. reflexivity. Qed.

Lemma lower_ok_ranges :
  forallb (fun cr => all_from lower_ok (Z.to_nat (unicode.Hi cr - unicode.Lo cr + 1)) (unicode.Lo cr))
    unicode.LowerCaseRanges = true.
Proof. vm_compute. reflexivity. Qed.

Lemma byte_of_byte v : (0 <= v < 256)%Z -> utf8.byte (utf8.of_byte v) = v.
Proof. intros H. unfold utf8.byte, utf8.of_byte. rewrite N_ascii_embedding by lia. lia. Qed.

Lemma land_ones_mod b m k n :
  (0 <= k)%Z -> m = Z.ones k -> n = (2 ^ k)%Z -> Z.land b m = (b mod n)%Z.
Proof. intros Hk -> ->. apply Z.land_ones. exact Hk. Qed.

Lemma uint32_id r : (0 <= r < 2 ^ 32)%Z -> utf8.uint32 r = r.
Proof.
  intros H. unfold utf8.uint32. rewrite (land_ones_mod r _ 32 (2 ^ 32)) by (reflexivity || lia).
  apply Z.mod_small. exact H.
Qed.

Lemma to_byte_mod y : utf8.to_byte y = (y mod 256)%Z.
Proof. unfold utf8.to_byte. apply (land_ones_mod y _ 8); reflexivity || lia. Qed.

Lemma lead_byte c k y :
  (0 <= k)%Z -> (c mod 2 ^ k = 0)%Z -> (0 <= y < 2 ^ k)%Z -> (2 ^ k <= 256)%Z ->
  Z.lor c (utf8.to_byte y) = (c + y)%Z.
Proof.
  intros Hk Hc Hy H256. rewrite to_byte_mod, Z.mod_small by lia.
  apply (lor_add c y k); assumption.
Qed.

Lemma cont_byte y :
  (0 <= y)%Z -> Z.lor utf8.tx (Z.land (utf8.to_byte y) utf8.maskx) = (0x80 + y mod 64)%Z.
Proof.
  intros Hy. rewrite to_byte_mod, (land_ones_mod _ _ 6 64) by (reflexivity || lia).
  rewrite (lor_add _ _ 6); [ | lia | reflexivity | ].
  - unfold utf8.tx. f_equal. Z.to_euclidean_division_equations. lia.
  - change (2 ^ 6)%Z with 64%Z. apply Z.mod_pos_bound. lia.
Qed.

Lemma AppendRune_1 r :
  (0 <= r < 0x80)%Z -> utf8.AppendRune r = String (utf8.of_byte r) EmptyString.
Proof.
  intros H. unfold utf8.AppendRune. rewrite uint32_id by lia.
  replace (r <=? utf8.rune1Max)%Z with true by (symmetry; apply Z.leb_le; unfold utf8.rune1Max; lia).
  rewrite to_byte_mod, Z.mod_small by lia. reflexivity.
Qed.

Lemma AppendRune_2 r :
  (0x80 <= r < 0x800)%Z ->
  utf8.AppendRune r
  = String (utf8.of_byte (0xC0 + r / 64)) (String (utf8.of_byte (0x80 + r mod 64)) EmptyString).
Proof.
  intros H. unfold utf8.AppendRune. rewrite uint32_id by lia.
  replace (r <=? utf8.rune1Max)%Z with false by (symmetry; apply Z.leb_gt; unfold utf8.rune1Max; lia).
  replace (r <=? utf8.rune2Max)%Z with true by (symmetry; apply Z.leb_le; unfold utf8.rune2Max; lia).
  rewrite Z.shiftr_div_pow2 by lia. change (2 ^ 6)%Z with 64%Z.
  rewrite (lead_byte utf8.t2 6 (r / 64)); [ | lia | reflexivity | | cbv; discriminate ].
  - rewrite cont_byte by lia. reflexivity.
  - change (2 ^ 6)%Z with 64%Z. Z.to_euclidean_division_equations. lia.
Qed.

Lemma AppendRune_3 r :
  (0x800 <= r < 0x10000)%Z -> ~ (0xD800 <= r <= 0xDFFF)%Z ->
  utf8.AppendRune r
  = String (utf8.of_byte (0xE0 + r / 4096))
      (String (utf8.of_byte (0x80 + (r / 64) mod 64))
        (String (utf8.of_byte (0x80 + r mod 64)) EmptyString)).
Proof.
  intros H Hs. unfold utf8.AppendRune. rewrite uint32_id by lia.
  replace (r <=? utf8.rune1Max)%Z with false by (symmetry; apply Z.leb_gt; unfold utf8.rune1Max; lia).
  replace (r <=? utf8.rune2Max)%Z with false by (symmetry; apply Z.leb_gt; unfold utf8.rune2Max; lia).
  replace ((utf8.MaxRune <? r)%Z || ((utf8.surrogateMin <=? r)%Z && (r <=? utf8.surrogateMax)%Z))
    with false
    by (unfold utf8.MaxRune, utf8.surrogateMin, utf8.surrogateMax;
        destruct (Z.ltb_spec 0x10FFFF r), (Z.leb_spec 0xD800 r), (Z.leb_spec r 0xDFFF); cbn; lia).
  cbn iota. rewrite uint32_id by lia.
  replace (r <=? utf8.rune3Max)%Z with true by (symmetry; apply Z.leb_le; unfold utf8.rune3Max; lia).
  rewrite !Z.shiftr_div_pow2 by lia. change (2 ^ 6)%Z with 64%Z. change (2 ^ 12)%Z with 4096%Z.
  rewrite (lead_byte utf8.t3 4 (r / 4096)); [ | lia | reflexivity | | cbv; discriminate ].
  - rewrite !cont_byte by (Z.to_euclidean_division_equations; lia). reflexivity.
  - change (2 ^ 4)%Z with 16%Z. Z.to_euclidean_division_equations. lia.
Qed.

Lemma AppendRune_4 r :
  (0x10000 <= r <= 0x10FFFF)%Z ->
  utf8.AppendRune r
  = String (utf8.of_byte (0xF0 + r / 262144))
      (String (utf8.of_byte (0x80 + (r / 4096) mod 64))
        (String (utf8.of_byte (0x80 + (r / 64) mod 64))
          (String (utf8.of_byte (0x80 + r mod 64)) EmptyString))).
Proof.
  intros H. unfold utf8.AppendRune. rewrite uint32_id by lia.
  replace (r <=? utf8.rune1Max)%Z with false by (symmetry; apply Z.leb_gt; unfold utf8.rune1Max; lia).
  replace (r <=? utf8.rune2Max)%Z with false by (symmetry; apply Z.leb_gt; unfold utf8.rune2Max; lia).
  replace ((utf8.MaxRune <? r)%Z || ((utf8.surrogateMin <=? r)%Z && (r <=? utf8.surrogateMax)%Z))
    with false
    by (unfold utf8.MaxRune, utf8.surrogateMin, utf8.surrogateMax;
        destruct (Z.ltb_spec 0x10FFFF r), (Z.leb_spec 0xD800 r), (Z.leb_spec r 0xDFFF); cbn; lia).
  cbn iota. rewrite uint32_id by lia.
  replace (r <=? utf8.rune3Max)%Z with false by (symmetry; apply Z.leb_gt; unfold utf8.rune3Max; lia).
  rewrite !Z.shiftr_div_pow2 by lia. change (2 ^ 6)%Z with 64%Z. change (2 ^ 12)%Z with 4096%Z.
  change (2 ^ 18)%Z with 262144%Z.
  rewrite (lead_byte utf8.t4 3 (r / 262144)); [ | lia | reflexivity | | cbv; discriminate ].
  - rewrite !cont_byte by (Z.to_euclidean_division_equations; lia). reflexivity.
  - change (2 ^ 3)%Z with 8%Z. Z.to_euclidean_division_equations. lia.
Qed.

Lemma first_lt_as b : (0xC2 <= b < 0xF5)%Z -> (utf8.as_ <=? utf8.first b)%Z = false.
Proof.
  intros H.
  destruct (first_cases b) as [[? E]|[[? E]|[[? E]|[[? E]|[[? E]|[[? E]|[[? E]|[[? E]|[? E]]]]]]]]];
    rewrite E; try (exfalso; lia); reflexivity.
Qed.

Lemma str_app_cons c s t : String c s ++ t = String c (s ++ t).
Proof. reflexivity. Qed.

Lemma str_app_nil t : EmptyString ++ t = t.
Proof. reflexivity. Qed.

Ltac decode_bytes B0 :=
  unfold utf8.DecodeRuneInString, utf8.byte_at; cbv zeta; cbn [String.get String.length];
  rewrite !byte_of_byte by lia;
  rewrite (first_lt_as B0) by lia;
  destruct (first_multi_cases B0 (first_lt_as B0 ltac:(lia)))
    as [(? & Hsz & Hacc)|[(? & Hsz & Hacc)|[(? & Hsz & Hacc)|[(? & Hsz & Hacc)|
        [(? & Hsz & Hacc)|[(? & Hsz & Hacc)|(? & Hsz & Hacc)]]]]]];
  try (exfalso; lia);
  rewrite Hsz, Hacc; cbn [fst snd];
  repeat match goal with
  | |- context [if ?c then _ else _] => let E := fresh "G" in destruct c eqn:E
  end;
  bool_facts; try reflexivity; unfold utf8.locb, utf8.hicb in *; exfalso; lia.

Lemma decode_2 B0 B1 t :
  (0xC2 <= B0 < 0xE0)%Z -> (0x80 <= B1 <= 0xBF)%Z ->
  utf8.DecodeRuneInString (String (utf8.of_byte B0) (String (utf8.of_byte B1) t))
  = (Z.lor (Z.shiftl (Z.land B0 utf8.mask2) 6) (Z.land B1 utf8.maskx), 2%nat).
Proof. intros. decode_bytes B0. Qed.

Lemma decode_3 B0 B1 B2 t :
  (0xE0 <= B0 < 0xF0)%Z -> (0x80 <= B1 <= 0xBF)%Z ->
  (B0 = 0xE0 -> 0xA0 <= B1)%Z -> (B0 = 0xED -> B1 <= 0x9F)%Z ->
  (0x80 <= B2 <= 0xBF)%Z ->
  utf8.DecodeRuneInString
    (String (utf8.of_byte B0) (String (utf8.of_byte B1) (String (utf8.of_byte B2) t)))
  = (Z.lor (Z.lor (Z.shiftl (Z.land B0 utf8.mask3) 12) (Z.shiftl (Z.land B1 utf8.maskx) 6))
           (Z.land B2 utf8.maskx), 3%nat).
Proof. intros. decode_bytes B0. Qed.

Lemma decode_4 B0 B1 B2 B3 t :
  (0xF0 <= B0 <= 0xF4)%Z -> (0x80 <= B1 <= 0xBF)%Z ->
  (B0 = 0xF0 -> 0x90 <= B1)%Z -> (B0 = 0xF4 -> B1 <= 0x8F)%Z ->
  (0x80 <= B2 <= 0xBF)%Z -> (0x80 <= B3 <= 0xBF)%Z ->
  utf8.DecodeRuneInString
    (String (utf8.of_byte B0) (String (utf8.of_byte B1)
      (String (utf8.of_byte B2) (String (utf8.of_byte B3) t))))
  = (Z.lor (Z.lor (Z.lor (Z.shiftl (Z.land B0 utf8.mask4) 18) (Z.shiftl (Z.land B1 utf8.maskx) 12))
                  (Z.shiftl (Z.land B2 utf8.maskx) 6)) (Z.land B3 utf8.maskx), 4%nat).
Proof. intros. decode_bytes B0. Qed.

Lemma decode_AppendRune_app r t :
  valid_rune r = true ->
  utf8.DecodeRuneInString (utf8.AppendRune r ++ t) = (r, String.length (utf8.AppendRune r)).
Proof.
  intros Hv. apply valid_rune_elim in Hv as [Hr Hs].
  destruct (Z.lt_ge_cases r 0x80) as [H1|H1].
  { rewrite AppendRune_1 by lia. rewrite ?str_app_cons, str_app_nil; cbn [String.length].
    rewrite decode_ascii; rewrite byte_of_byte by lia; [reflexivity | lia]. }
  destruct (Z.lt_ge_cases r 0x800) as [H2|H2].
  { rewrite AppendRune_2 by lia. rewrite ?str_app_cons, str_app_nil; cbn [String.length].
    rewrite decode_2 by (Z.to_euclidean_division_equations; lia). rewrite dec2_val.
    f_equal. Z.to_euclidean_division_equations. lia. }
  destruct (Z.lt_ge_cases r 0x10000) as [H3|H3].
  { rewrite AppendRune_3 by lia. rewrite ?str_app_cons, str_app_nil; cbn [String.length].
    rewrite decode_3 by (Z.to_euclidean_division_equations; lia). rewrite dec3_val.
    f_equal. Z.to_euclidean_division_equations. lia. }
  rewrite AppendRune_4 by lia. rewrite ?str_app_cons, str_app_nil; cbn [String.length].
  rewrite decode_4 by (Z.to_euclidean_division_equations; lia). rewrite dec4_val.
  f_equal. Z.to_euclidean_division_equations. lia.
Qed.

Lemma rd_byte v :
  (0 <= v < 256)%Z -> v <> 46%Z ->
  (if Ascii.eqb (utf8.of_byte v) "."%char then "-"%char else utf8.of_byte v) = utf8.of_byte v.
Proof.
  intros Hv Hd. destruct (Ascii.eqb_spec (utf8.of_byte v) "."%char) as [E|E]; [ | reflexivity].
  apply (f_equal utf8.byte) in E. rewrite byte_of_byte in E by exact Hv.
  change (utf8.byte "."%char) with 46%Z in E. contradiction.
Qed.

Lemma replace_dots_AppendRune r :
  valid_rune r = true -> r <> 46%Z -> replace_dots (utf8.AppendRune r) = utf8.AppendRune r.
Proof.
  intros Hv Hd. apply valid_rune_elim in Hv as [Hr Hs].
  destruct (Z.lt_ge_cases r 0x80) as [H1|H1].
  { rewrite AppendRune_1 by lia. cbn [replace_dots]. rewrite rd_byte by lia. reflexivity. }
  destruct (Z.lt_ge_cases r 0x800) as [H2|H2].
  { rewrite AppendRune_2 by lia. cbn [replace_dots].
    rewrite !rd_byte by (Z.to_euclidean_division_equations; lia). reflexivity. }
  destruct (Z.lt_ge_cases r 0x10000) as [H3|H3].
  { rewrite AppendRune_3 by lia. cbn [replace_dots].
    rewrite !rd_byte by (Z.to_euclidean_division_equations; lia). reflexivity. }
  rewrite AppendRune_4 by lia. cbn [replace_dots].
  rewrite !rd_byte by (Z.to_euclidean_division_equations; lia). reflexivity.
Qed.

Lemma AppendRune_nonempty r : utf8.AppendRune r <> EmptyString.
Proof.
  unfold utf8.AppendRune. cbv zeta.
  repeat match goal with
  | |- context [if ?c then _ else _] => destruct c
  end; discriminate.
Qed.

Lemma to_in rs r :
  unicode.to rs r <> r -> exists cr, In cr rs /\ (unicode.Lo cr <= r <= unicode.Hi cr)%Z.
Proof.
  induction rs as [|cr rs IH]; cbn; [congruence | intros H].
  destruct ((unicode.Lo cr <=? r)%Z && (r <=? unicode.Hi cr)%Z) eqn:E.
  - apply andb_prop in E as [E1 E2]. apply Z.leb_le in E1, E2. exists cr. auto.
  - destruct (IH H) as (cr' & Hin & Hr). exists cr'. auto.
Qed.

Lemma lower_id_or_ok r :
  valid_rune r = true -> unicode.ToLower r = r \/ lower_ok r = true.
Proof.
  intros Hv. pose proof lower_ok_ascii as TA. pose proof lower_ok_ranges as TR.
  destruct (Z.le_gt_cases r unicode.MaxASCII) as [Ha|Ha].
  - right. apply (all_from_spec _ _ _ TA). apply valid_rune_elim in Hv.
    unfold unicode.MaxASCII in Ha. lia.
  - destruct (Z.eq_dec (unicode.ToLower r) r) as [E|E]; [left; exact E | right].
    unfold unicode.ToLower in E. rewrite (proj2 (Z.leb_gt _ _) Ha) in E.
    destruct (to_in _ _ E) as (cr & Hin & Hr).
    pose proof (proj1 (forallb_forall _ _) TR cr Hin) as C. cbv beta in C.
    apply (all_from_spec _ _ _ C). lia.
Qed.

Lemma lower_props r :
  valid_rune r = true ->
  valid_rune (unicode.ToLower r) = true
  /\ unicode.ToLower (unicode.ToLower r) = unicode.ToLower r
  /\ (unicode.ToLower r = 46%Z -> r = 46%Z).
Proof.
  intros Hv. destruct (lower_id_or_ok r Hv) as [E|Hok].
  - rewrite !E. auto.
  - unfold lower_ok in Hok. cbv zeta in Hok.
    apply andb_prop in Hok as [Hok H3]. apply andb_prop in Hok as [H1 H2].
    apply Z.eqb_eq in H2. split; [exact H1 | split; [exact H2 | ]].
    intros E. rewrite E in H3. cbn in H3. apply Z.eqb_eq. exact H3.
Qed.

Lemma ascii_ok_all : all_from ascii_ok 128 0 = true.
Proof. vm_compute. reflexivity. Qed.

Lemma AppendRune_lower_ascii a :
  (utf8.byte a < 0x80)%Z ->
  utf8.AppendRune (unicode.ToLower (utf8.byte a)) = String (lower_ascii a) EmptyString.
Proof.
  intros H. pose proof (byte_range a).
  pose proof (all_from_spec _ _ _ ascii_ok_all (utf8.byte a) ltac:(lia)) as C.
  unfold ascii_ok in C. rewrite of_byte_byte in C. apply String.eqb_eq in C. exact C.
Qed.

Lemma map_runes_fuel f fuel1 fuel2 s :
  (String.length s <= fuel1)%nat -> (String.length s <= fuel2)%nat ->
  map_runes fuel1 f s = map_runes fuel2 f s.
Proof.
  revert fuel2 s. induction fuel1 as [|fuel1 IH]; intros fuel2 s H1 H2.
  - destruct s as [|a t]; [ | cbn in H1; lia]. destruct fuel2; reflexivity.
  - destruct s as [|a t]; [destruct fuel2; reflexivity | ].
    destruct fuel2 as [|fuel2]; [cbn in H2; lia | ].
    cbn [map_runes].
    destruct (utf8.DecodeRuneInString (String a t)) as [c w] eqn:Hd.
    pose proof (decode_width _ _ _ Hd ltac:(discriminate)) as Hw.
    f_equal. apply IH; rewrite str_drop_length; lia.
Qed.

Lemma Map_cons f s c w :
  s <> EmptyString -> utf8.DecodeRuneInString s = (c, w) ->
  Map f s = (if (0 <=? f c)%Z then utf8.AppendRune (f c) else EmptyString) ++ Map f (str_drop w s).
Proof.
  intros Hs Hd. destruct s as [|a t]; [congruence | ].
  pose proof (decode_width _ _ _ Hd Hs) as Hw.
  unfold Map at 1. cbn [String.length map_runes]. rewrite Hd. f_equal.
  unfold Map. apply map_runes_fuel; rewrite str_drop_length; cbn [String.length] in *; lia.
Qed.

Lemma Map_nil f : Map f EmptyString = EmptyString.
Proof. reflexivity. Qed.

Lemma lower_nonneg c : valid_rune c = true -> (0 <=? unicode.ToLower c)%Z = true.
Proof.
  intros Hv. destruct (lower_props c Hv) as (Hl & _ & _).
  apply valid_rune_elim in Hl. apply Z.leb_le. lia.
Qed.

Lemma lower_ascii_bytes_Map s h :
  fst (scan_ascii s h) = true -> lower_ascii_bytes s = Map unicode.ToLower s.
Proof.
  revert h. induction s as [|a t IH]; intros h H; [reflexivity | ].
  cbn [scan_ascii] in H. destruct (utf8.RuneSelf <=? utf8.byte a)%Z eqn:Ha; [discriminate H | ].
  apply Z.leb_gt in Ha. unfold utf8.RuneSelf in Ha.
  rewrite (Map_cons _ _ (utf8.byte a) 1) by (discriminate || apply decode_ascii; exact Ha).
  pose proof (byte_range a).
  rewrite lower_nonneg by (apply valid_rune_intro; lia).
  rewrite AppendRune_lower_ascii by exact Ha.
  cbn [lower_ascii_bytes str_drop]. rewrite str_app_cons, str_app_nil. f_equal. exact (IH _ H).
Qed.

Lemma scan_no_upper s h :
  scan_ascii s h = (true, false) -> h = false /\ lower_ascii_bytes s = s.
Proof.
  revert h. induction s as [|a t IH]; intros h H.
  - cbn in H. injection H as ->. auto.
  - cbn [scan_ascii] in H. destruct (utf8.RuneSelf <=? utf8.byte a)%Z; [discriminate H | ].
    destruct (IH _ H) as [Hh Ht]. apply orb_false_iff in Hh as [-> Hu].
    split; [reflexivity | ]. cbn [lower_ascii_bytes]. rewrite Ht. f_equal.
    unfold lower_ascii. unfold utf8.byte in Hu. unfold nat_of_ascii in *.
    destruct ((65 <=? N.to_nat (N_of_ascii a))%nat && (N.to_nat (N_of_ascii a) <=? 90)%nat) eqn:E;
      [ | reflexivity].
    apply andb_prop in E as [E1 E2]. apply Nat.leb_le in E1, E2.
    apply andb_false_iff in Hu as [Hu|Hu]; apply Z.leb_gt in Hu; lia.
Qed.

Lemma ToLower_Map s : ToLower s = Map unicode.ToLower s.
Proof.
  unfold ToLower. destruct (scan_ascii s false) as [isASCII hasUpper] eqn:Hs.
  destruct isASCII; [ | reflexivity].
  rewrite <- (lower_ascii_bytes_Map s false) by (rewrite Hs; reflexivity).
  destruct hasUpper; [reflexivity | ].
  symmetry. apply (scan_no_upper s false Hs).
Qed.

Lemma Map_lower_replace_dots n s :
  (String.length s <= n)%nat ->
  Map unicode.ToLower (replace_dots s) = replace_dots (Map unicode.ToLower s).
Proof.
  revert s. induction n as [|n IH]; intros s Hs.
  { destruct s; [reflexivity | cbn in Hs; lia]. }
  destruct s as [|a t]; [reflexivity | ].
  destruct (utf8.DecodeRuneInString (String a t)) as [c w] eqn:Hd.
  pose proof (decode_width _ _ _ Hd ltac:(discriminate)) as Hw.
  pose proof (decode_replace_dots a t) as Hr.
  rewrite (Map_cons _ (String a t) c w) by (discriminate || exact Hd).
  rewrite replace_dots_app.
  destruct (Ascii.eqb_spec a "."%char) as [->|Ha].
  - rewrite (Map_cons _ _ 45 1) by (cbn; discriminate || exact Hr).
    rewrite decode_ascii in Hd by (vm_compute; reflexivity). injection Hd as <- <-.
    change (replace_dots (String "." t)) with (String "-" (replace_dots t)).
    cbn [str_drop]. rewrite IH by (cbn in Hs; lia). reflexivity.
  - assert (Hrd : replace_dots (String a t) = String a (replace_dots t)).
    { cbn [replace_dots]. destruct (Ascii.eqb_spec a "."%char); [contradiction | reflexivity]. }
    rewrite Hd, Hrd in Hr. rewrite ?Hrd.
    rewrite (Map_cons _ _ c w) by (discriminate || exact Hr).
    rewrite <- Hrd, str_drop_replace_dots, IH by (rewrite str_drop_length; cbn in Hs |- *; lia).
    f_equal.
    destruct (decode_valid _ _ _ _ Hd) as [Hv Hasc].
    rewrite lower_nonneg by exact Hv.
    symmetry. apply replace_dots_AppendRune; [apply lower_props, Hv | ].
    intros E. apply (lower_props c Hv) in E. subst c.
    destruct (Hasc ltac:(lia)) as [Hb _]. apply Ha, byte_dot. symmetry. exact Hb.
Qed.

Lemma Map_lower_idem n s :
  (String.length s <= n)%nat ->
  Map unicode.ToLower (Map unicode.ToLower s) = Map unicode.ToLower s.
Proof.
  revert s. induction n as [|n IH]; intros s Hs.
  { destruct s; [reflexivity | cbn in Hs; lia]. }
  destruct s as [|a t]; [reflexivity | ].
  destruct (utf8.DecodeRuneInString (String a t)) as [c w] eqn:Hd.
  pose proof (decode_width _ _ _ Hd ltac:(discriminate)) as Hw.
  destruct (decode_valid _ _ _ _ Hd) as [Hv _].
  destruct (lower_props c Hv) as (Hlv & Hli & _).
  rewrite (Map_cons _ (String a t) c w) by (discriminate || exact Hd).
  rewrite lower_nonneg by exact Hv.
  rewrite (Map_cons _ _ (unicode.ToLower c) (String.length (utf8.AppendRune (unicode.ToLower c)))).
  - rewrite Hli, (lower_nonneg c Hv), str_drop_app. f_equal.
    apply IH. rewrite str_drop_length. cbn in Hs |- *. lia.
  - destruct (utf8.AppendRune (unicode.ToLower c)) eqn:E; [ | discriminate].
    exfalso. exact (AppendRune_nonempty _ E).
  - apply decode_AppendRune_app. exact Hlv.
Qed.

Lemma ToLower_replace_dots s : ToLower (replace_dots s) = replace_dots (ToLower s).
Proof. rewrite !ToLower_Map. apply (Map_lower_replace_dots (String.length s)). lia. Qed.

Lemma ToLower_idem s : ToLower (ToLower s) = ToLower s.
Proof. rewrite !ToLower_Map. apply (Map_lower_idem (String.length s)). lia. Qed.

Lemma replace_dots_idem s : replace_dots (replace_dots s) = replace_dots s.
Proof.
  induction s as [|c s IH]; [reflexivity | ]. cbn. rewrite IH. f_equal.
  destruct (Ascii.eqb_spec c "."%char) as [->|Hc]; [reflexivity | ].
  destruct (Ascii.eqb_spec c "."%char); [contradiction | reflexivity].
Qed.

(** X18. Pull zone names ignore case and do not distinguish dots from
    dashes, for any string, not only ASCII: with Go's [strings.ToLower]
    (Unicode simple lowercase mapping, invalid UTF-8 bytes replaced by
    U+FFFD), [generatePullZoneName] gives the same name for a domain, its
    lowercase form and its form with dots replaced by dashes. The
    subdomain [sub.parent] gets the pull zone name of the domain
    [sub-parent]. *)
Theorem pull_zone_name_collisions d sub parent :
  generatePullZoneName (replace_dots d) = generatePullZoneName d
  /\ generatePullZoneName (ToLower d) = generatePullZoneName d
  /\ generateSubdomainPullZoneName sub parent = generatePullZoneName (sub ++ "-" ++ parent).
Proof.
  unfold generateSubdomainPullZoneName, generatePullZoneName.
  split; [ | split].
  - rewrite ToLower_replace_dots, replace_dots_idem. reflexivity.
  - rewrite ToLower_idem. reflexivity.
  - rewrite <- !ToLower_replace_dots, !replace_dots_app. reflexivity.
Qed.

Lemma RemoveSubdomain_missing_witness :
  demo_world.(domainIndex) !! ("blog" ++ "." ++ "example.com") = None
  /\ SubdomainProvisioner.RemoveSubdomain "blog" "example.com" demo_world
     = (RErr ("subdomain state not found: " ++ ErrStateNotFound), demo_world).
Proof.
  assert (H : demo_world.(domainIndex) !! ("blog" ++ "." ++ "example.com") = None)
    by reflexivity.
  split; [exact H | apply (RemoveSubdomain_missing "blog" "example.com" demo_world H)].
Defined.

Lemma ProvisionSubdomain_skips_success_witness :
  let w := snd (Manager.MarkSuccess "id1" (snd (Manager.Create "blog.example.com" demo_world))) in
  let r := set_UpdatedAt 100 (set_Error "" (set_CurrentStep StepCNAMESync
             (set_Status StatusSuccess (demo_rec "blog.example.com")))) in
  w.(domainIndex) !! ("blog" ++ "." ++ "example.com") = Some "id1"
  /\ w.(states) !! "id1" = Some 0%nat
  /\ w.(heap) !! 0%nat = Some r
  /\ Provisioner.ProvisionSubdomain demo_cfg "blog" "example.com" "user1" w
     = (ROk tt, with_nextLoc (S w.(nextLoc)) (with_heap (<[w.(nextLoc) := r]> w.(heap)) w)).
Proof.
  cbv zeta.
  split; [vm_compute; reflexivity | split; [vm_compute; reflexivity | split; [vm_compute; reflexivity | ]]].
  apply (ProvisionSubdomain_skips_success demo_cfg "blog" "example.com" "user1" _ "id1" 0%nat);
    vm_compute; reflexivity.
Defined.

Lemma Contains_nonempty h sub : sub <> "" -> Contains h sub = true -> h <> "".
Proof. intros Hs Hc ->. unfold Contains in Hc. destruct sub; [congruence | discriminate]. Qed.

Lemma find_some_prop {A} (f : A -> bool) l x : List.find f l = Some x -> f x = true.
Proof. intros H. apply find_some in H. tauto. Qed.

Lemma pretty_Z_app_nonempty (z : Z) s : s <> "" -> pretty z ++ s <> "".
Proof. intros Hs H. destruct (pretty z); cbn in H; [contradiction | discriminate]. Qed.

(** X19. [extractCDNHostname] returns the empty string exactly when the
    pull zone id is not positive and either there are no hostnames or the
    first hostname is empty and none contains ".bunnycdn.com". *)
Theorem extractCDNHostname_empty pz :
  extractCDNHostname pz = ""
  <-> pz.(pz_ID) <= 0
      /\ (pz.(pz_Hostnames) = []
          \/ (hd "x" pz.(pz_Hostnames) = ""
              /\ Forall (fun h => Contains h ".bunnycdn.com" = false) pz.(pz_Hostnames))).
Proof.
  unfold extractCDNHostname. destruct pz as [id name hs]. cbn [pz_Hostnames pz_ID].
  assert (Hid : (if Z.ltb 0 id then pretty id ++ ".bunnycdn.com" else "") = "" <-> id <= 0).
  { destruct (Z.ltb_spec 0 id) as [Hlt|Hle].
    - split; [intros He; exfalso; revert He; apply pretty_Z_app_nonempty; discriminate | lia].
    - split; [lia | reflexivity]. }
  destruct hs as [|h0 rest].
  - rewrite Hid. split; [tauto | tauto].
  - destruct (List.find (fun h => Contains h ".bunnycdn.com") (h0 :: rest)) as [h|] eqn:Ef.
    + split.
      * intros ->. exfalso. apply find_some_prop in Ef.
        exact (Contains_nonempty "" _ ltac:(discriminate) Ef eq_refl).
      * intros [_ [Hn | [_ Hall]]]; [discriminate | ].
        apply find_some in Ef as [Hin Hc]. rewrite Forall_forall in Hall.
        rewrite (Hall h) in Hc; [discriminate | apply list_elem_of_In, Hin].
    + assert (Hall : Forall (fun h => Contains h ".bunnycdn.com" = false) (h0 :: rest)).
      { apply Forall_forall. intros x Hx. apply list_elem_of_In in Hx.
        destruct (Contains x ".bunnycdn.com") eqn:Ex; [ | reflexivity].
        exfalso. eapply (List.find_none _ _ Ef) in Hx. congruence. }
      cbn [hd]. destruct (String.eqb_spec h0 "") as [->|Hh0].
      * rewrite Hid. split; [tauto | intros [H _]; exact H].
      * split; [intros H; contradiction | intros [_ [H1 | [H2 _]]]; [discriminate | contradiction]].
Qed.

(* ------------------------------------------------------------------ *)
(** ** Further properties: bandwidth snapshots *)

Import Snapshots.

(** X20. [GetLatestSnapshotByZone z] returns nothing exactly when no
    snapshot is of zone [z]. Otherwise it returns a snapshot of zone [z]
    with the greatest timestamp: the first one with that timestamp, as
    earlier snapshots of the zone are strictly older and later ones are
    not newer. *)
Theorem GetLatestSnapshotByZone_spec z s :
  match GetLatestSnapshotByZone z s with
  | None => Forall (fun x => x.(ZoneID) <> z) s.(snapshots)
  | Some l =>
      l.(ZoneID) = z
      /\ exists pre post, s.(snapshots) = (pre ++ l :: post)%list
         /\ Forall (fun x => x.(ZoneID) = z -> x.(Timestamp) < l.(Timestamp)) pre
         /\ Forall (fun x => x.(ZoneID) = z -> x.(Timestamp) <= l.(Timestamp)) post
  end.
Proof.
  unfold GetLatestSnapshotByZone. destruct s as [l f]. cbn [snapshots]. clear f.
  induction l as [|x l IH] using rev_ind; [constructor | ].
  rewrite fold_left_app. cbn [fold_left].
  destruct (fold_left _ l None) as [l0|] eqn:E.
  - destruct IH as (Hz & pre & post & -> & Hpre & Hpost).
    destruct (Z.eqb_spec (ZoneID x) z) as [Hx|Hx].
    + unfold After. destruct (Z.ltb_spec (Timestamp l0) (Timestamp x)) as [Hlt|Hge].
      * split; [exact Hx | ]. exists (pre ++ l0 :: post)%list, []. split; [reflexivity | ].
        split; [ | constructor].
        apply Forall_app. split; [ | constructor].
        -- eapply Forall_impl; [exact Hpre | ]. intros y Hy Hyz. specialize (Hy Hyz). lia.
        -- intros _. exact Hlt.
        -- eapply Forall_impl; [exact Hpost | ]. intros y Hy Hyz. specialize (Hy Hyz). lia.
      * split; [exact Hz | ]. exists pre, (post ++ [x])%list.
        split; [rewrite <- app_assoc; reflexivity | ]. split; [exact Hpre | ].
        apply Forall_app. split; [exact Hpost | ]. constructor; [intros _; lia | constructor].
    + split; [exact Hz | ]. exists pre, (post ++ [x])%list.
      split; [rewrite <- app_assoc; reflexivity | ]. split; [exact Hpre | ].
      apply Forall_app. split; [exact Hpost | ]. constructor; [intros Hc; contradiction | constructor].
  - destruct (Z.eqb_spec (ZoneID x) z) as [Hx|Hx].
    + split; [exact Hx | ]. exists l, []. split; [reflexivity | ].
      split; [ | constructor].
      eapply Forall_impl; [exact IH | ]. intros y Hy Hyz. contradiction.
    + apply Forall_app. split; [exact IH | ]. constructor; [exact Hx | constructor].
Qed.

(** X21. [AddSnapshot] appends the snapshot and then keeps only the
    snapshots newer than the cutoff; the new snapshot itself is dropped if
    it is not newer. The list in memory is filtered even when the save
    fails. It returns nil exactly when the save succeeds; the file then
    holds the filtered list, and otherwise the file is unchanged. *)
Theorem AddSnapshot_effect f cutoff snap s :
  let (err, s') := AddSnapshot f cutoff snap s in
  s'.(snapshots) = (keep_after cutoff s.(snapshots)
                    ++ (if Z.ltb cutoff snap.(Timestamp) then [snap] else []))%list
  /\ Forall (fun x => cutoff < x.(Timestamp)) s'.(snapshots)
  /\ (err = None <-> f = SaveOK)
  /\ (err = None -> s'.(file) = Some s'.(snapshots))
  /\ (err <> None -> s'.(file) = s.(file)).
Proof.
  unfold AddSnapshot, keep_after.
  assert (Hf : forall l, Forall (fun x => cutoff < x.(Timestamp))
                 (List.filter (fun x => After (Timestamp x) cutoff) l)).
  { intros l. apply Forall_forall. intros x Hx. apply list_elem_of_In, filter_In in Hx as [_ Hx].
    unfold After in Hx. lia. }
  assert (Happ : List.filter (fun x => After (Timestamp x) cutoff) (snapshots s ++ [snap])
                 = (List.filter (fun x => After (Timestamp x) cutoff) (snapshots s)
                    ++ (if Z.ltb cutoff snap.(Timestamp) then [snap] else []))%list).
  { rewrite List.filter_app. cbn. unfold After. destruct (Z.ltb cutoff (Timestamp snap)); reflexivity. }
  destruct f; cbn; (split; [exact Happ | ]); (split; [apply Hf | ]).
  - split; [tauto | ]. split; [reflexivity | ]. intros H; contradiction.
  - split; [split; discriminate | ]. split; [discriminate | reflexivity].
  - split; [split; discriminate | ]. split; [discriminate | reflexivity].
Qed.

Lemma filter_filter_andb {A} (f g : A -> bool) l :
  List.filter f (List.filter g l) = List.filter (fun x => g x && f x) l.
Proof.
  induction l as [|x l IH]; [reflexivity | ]. cbn.
  destruct (g x); cbn; [destruct (f x); cbn | ]; rewrite IH; reflexivity.
Qed.

Lemma filter_ext_bool {A} (f g : A -> bool) l :
  (forall x, f x = g x) -> List.filter f l = List.filter g l.
Proof. intros H. induction l as [|x l IH]; cbn; [reflexivity | ]. rewrite H, IH. reflexivity. Qed.

(** X22. [Cleanup(olderThan)] drops the snapshots not newer than
    [now - olderThan], where the negation wraps around for
    [olderThan = math.MinInt64] so that the cutoff is then [now - 2^63]
    ns. Querying after [Cleanup] is querying before it from the later of
    the two cutoffs. [GetSnapshotsByZone] is [GetAllSnapshots] restricted
    to the zone. A second [Cleanup] at the same time removes nothing. *)
Theorem snapshot_queries_compose f now olderThan since z s :
  ((- 2 ^ 63 < olderThan < 2 ^ 63 -> cleanup_cutoff now olderThan = now - olderThan)
   /\ cleanup_cutoff now (- 2 ^ 63) = now - 2 ^ 63)
  /\ GetAllSnapshots since (snd (Cleanup f now olderThan s))
     = GetAllSnapshots (Z.max since (cleanup_cutoff now olderThan)) s
  /\ GetSnapshotsByZone z since s
     = List.filter (fun x => Z.eqb x.(ZoneID) z) (GetAllSnapshots since s)
  /\ forall f', (snd (Cleanup f' now olderThan (snd (Cleanup f now olderThan s)))).(snapshots)
               = (snd (Cleanup f now olderThan s)).(snapshots).
Proof.
  assert (Hc : forall f0 s0, (snd (Cleanup f0 now olderThan s0)).(snapshots)
                             = keep_after (cleanup_cutoff now olderThan) s0.(snapshots)).
  { intros [] s0; reflexivity. }
  unfold GetAllSnapshots, GetSnapshotsByZone. split; [ | split; [ | split]].
  - unfold cleanup_cutoff, neg_int64. split.
    + intros Hd. rewrite Z.mod_small by lia. lia.
    + reflexivity.
  - rewrite Hc. unfold keep_after. rewrite filter_filter_andb.
    apply filter_ext_bool. intros x. unfold After.
    apply eq_iff_eq_true. rewrite andb_true_iff, !Z.ltb_lt. lia.
  - rewrite filter_filter_andb. apply filter_ext_bool. intros x. apply andb_comm.
  - intros f'. rewrite !Hc. unfold keep_after. rewrite filter_filter_andb.
    apply filter_ext_bool. intros x. apply andb_diag.
Qed.
